(** * ubvff: shallow embedding of ubvff1.c, ubvff2.c and vecass.c

    The three programs of the repository are embedded as Rocq functions:
    - [Ubvff1]: the single-stream (Type 1) decoder and its SVG emitter;
    - [Ubvff2]: the split-stream (Type 2) decoder and its SVG emitter;
    - [Vecass]: the layer assembler (dump list, viewbox patch, recursion).

    C integers are modelled in [Z] with the wrap-around written out where the
    source relies on it; files are lists of bytes; the output stream is a
    byte list with a write cursor; globals are fields of explicit state
    records threaded through the functions. *)

From Stdlib Require Import ZArith List Bool Lia.
From Stdlib Require Import Strings.String Strings.Ascii Strings.Byte DecimalString.
From Stdlib Require Import Sorting.Sorted Sorting.Permutation.
From stdpp Require Import base list sorting.

Open Scope Z_scope.

(** ** Shared C-level helpers *)

Module C.

(** Unsigned and signed wrap-around of a [w]-bit integer. *)
Definition wrapu (w : Z) (x : Z) : Z := x mod 2 ^ w.
Definition wraps (w : Z) (x : Z) : Z :=
  let u := x mod 2 ^ w in if u <? 2 ^ (w - 1) then u else u - 2 ^ w.

Definition uint16 (x : Z) : Z := wrapu 16 x.
Definition uint32 (x : Z) : Z := wrapu 32 x.
Definition int16 (x : Z) : Z := wraps 16 x.
Definition int32 (x : Z) : Z := wraps 32 x.

Definition byteZ (b : byte) : Z := Z.of_N (Byte.to_N b).

Definition bytes (s : string) : list byte := list_byte_of_string s.

(** printf's [%i] / [%d] / [%u] conversion of an integer. *)
Definition fmt_i (x : Z) : list byte := bytes (NilZero.string_of_int (Z.to_int x)).

Definition digit (d : Z) : byte :=
  match Byte.of_N (Z.to_N (48 + d mod 10)) with Some b => b | None => "0"%byte end.

(** printf's [%05u] conversion (at least five digits, zero padded). *)
Definition fmt_05u (x : Z) : list byte :=
  if x <? 100000
  then [digit (x / 10000); digit (x / 1000); digit (x / 100); digit (x / 10); digit x]
  else fmt_i x.

(** A stdio stream opened for writing: the bytes of the file and the
    position of the write cursor. *)
Record FILE := mkFILE { contents : list byte; fpos : nat }.

Definition fopen_w : FILE := mkFILE [] 0.

(** [fwrite]: the bytes go to the cursor, over what is there, extending the
    file (with zero bytes up to the cursor when it is past the end). *)
Definition fwrite (data : list byte) (f : FILE) : FILE :=
  let gap := replicate (fpos f - length (contents f))%nat "000"%byte in
  mkFILE (take (fpos f) (contents f) ++ gap ++ data
            ++ drop (fpos f + length data)%nat (contents f))
         (fpos f + length data)%nat.

Definition fputs (s : string) (f : FILE) : FILE := fwrite (bytes s) f.

Definition ftell (f : FILE) : nat := fpos f.

Definition fseek_set (off : nat) (f : FILE) : FILE := mkFILE (contents f) off.

(** What the programs take from the C library and from the host and what
    this development leaves open: the host byte order, whether [char] is a
    signed type, the text of a [double] printed with [%.6f], and [sscanf]
    with ["%i %i %i %i"]. *)
Class Host := {
  littleEndian : bool;
  charSigned : bool;
  (** [fmt_f6 x scale]: the text of [(double)x/(double)scale] under [%.6f]. *)
  fmt_f6 : Z → Z → list byte;
  (** [sscanf_4i buf]: the four integers ["%i %i %i %i"] reads from the
      start of [buf], when all four conversions succeed. *)
  sscanf_4i : list byte → option (Z * Z * Z * Z)
}.

(** The value a C object of two or four bytes holds on the host. *)
Definition load16 `{Host} (b0 b1 : byte) : Z :=
  if littleEndian then byteZ b0 + 256 * byteZ b1 else 256 * byteZ b0 + byteZ b1.

Definition load32 `{Host} (b0 b1 b2 b3 : byte) : Z :=
  if littleEndian
  then byteZ b0 + 256 * byteZ b1 + 65536 * byteZ b2 + 16777216 * byteZ b3
  else 16777216 * byteZ b0 + 65536 * byteZ b1 + 256 * byteZ b2 + byteZ b3.

Definition reverseByteOrder2 (input : Z) : Z :=
  let output := uint16 (Z.shiftl (Z.land input 0xFF) 8) in
  Z.lor output (Z.shiftr (Z.land input 0xFF00) 8).

Definition reverseByteOrder4 (input : Z) : Z :=
  let output := 0 in
  let output := Z.lor output (uint32 (Z.shiftl (Z.land input 0x000000FF) 24)) in
  let output := Z.lor output (Z.shiftl (Z.land input 0x0000FF00) 8) in
  let output := Z.lor output (Z.shiftr (Z.land input 0x00FF0000) 8) in
  Z.lor output (Z.shiftr (Z.land input 0xFF000000) 24).

Definition reverseByteMixed (input : Z) : Z :=
  let output := 0 in
  let output := Z.lor output (Z.shiftl (Z.land input 0x000000FF) 8) in
  let output := Z.lor output (Z.shiftr (Z.land input 0x0000FF00) 8) in
  let output := Z.lor output (uint32 (Z.shiftl (Z.land input 0x00FF0000) 8)) in
  Z.lor output (Z.shiftr (Z.land input 0xFF000000) 8).

Definition reverseByteMixedForBigEndian (input : Z) : Z :=
  let output := 0 in
  let output := Z.lor output (uint32 (Z.shiftl (Z.land input 0x0000FFFF) 16)) in
  Z.lor output (Z.shiftr (Z.land input 0xFFFF0000) 16).

(** [bo_fread] of one 16-bit item: the same in the three programs. *)
Definition bo_read16 `{Host} (b0 b1 : byte) : Z :=
  if littleEndian then reverseByteOrder2 (load16 b0 b1) else load16 b0 b1.

(** [bo_fread] of one 32-bit item in ubvff1.c and vecass.c. *)
Definition bo_read32 `{Host} (b0 b1 b2 b3 : byte) : Z :=
  if littleEndian then reverseByteOrder4 (load32 b0 b1 b2 b3) else load32 b0 b1 b2 b3.

(** [bo_fread] of one 32-bit item in ubvff2.c (the two halves swapped). *)
Definition bo_read32_mixed `{Host} (b0 b1 b2 b3 : byte) : Z :=
  if littleEndian then reverseByteMixed (load32 b0 b1 b2 b3)
  else reverseByteMixedForBigEndian (load32 b0 b1 b2 b3).

(** [roundInt], the same text in ubvff1.c and ubvff2.c.  C's [/] truncates
    towards zero and [%] takes the sign of the dividend: [Z.quot], [Z.rem].
    (The callers pass [d = scaleFactor], where no [int] overflows.) *)
Definition roundInt (n d : Z) : Z :=
  let l := Z.quot n d in
  let r := Z.rem n d in
  if r <? Z.quot d 4 then l
  else if l >? 0 then l + 1
  else l - 1.

(** The text [sprintf] makes of the four bounds: a quote, the bounds with
    [%i] and a space between them, a quote; in [setViewbox] of vecass.c and
    in [dumpSVGSetViewbox] of ubvff2.c. *)
Definition viewboxText (minx miny maxx maxy : Z) : list byte :=
  [x22] ++ fmt_i minx ++ [x20] ++ fmt_i miny ++ [x20] ++ fmt_i maxx
        ++ [x20] ++ fmt_i maxy ++ [x22].

(** The zero-initialised [char buf[30]] after [sprintf] of a text that fits
    with its terminator. *)
Definition sprintfBuf (text : list byte) : list byte :=
  text ++ [x00] ++ replicate (30 - S (length text)) x00.

(** The padding loop of both: spaces from [size1] up to index 25 and a
    terminator at index 26, when the text is shorter than 26. *)
Definition rpad (buf : list byte) (size1 : nat) : list byte :=
  if (size1 <? 26)%nat
  then <[26%nat := x00]> (foldl (λ b i, <[i := x20]> b) buf (seq size1 (26 - size1)))
  else buf.

End C.

(** ** Reading items from an input stream

    An input stream is the list of bytes from the read position on.  A read
    that finds too few bytes gives [None]: [bo_fread] returns less than
    [count] and the stream is at its end. *)

Module Reader.
Import C.
Section WithHost.
Context `{Host}.

Definition read16 (fin : list byte) : option (Z * list byte) :=
  match fin with
  | b0 :: b1 :: rest => Some (bo_read16 b0 b1, rest)
  | _ => None
  end.

Definition read32 (fin : list byte) : option (Z * list byte) :=
  match fin with
  | b0 :: b1 :: b2 :: b3 :: rest => Some (bo_read32 b0 b1 b2 b3, rest)
  | _ => None
  end.

Definition read32_mixed (fin : list byte) : option (Z * list byte) :=
  match fin with
  | b0 :: b1 :: b2 :: b3 :: rest => Some (bo_read32_mixed b0 b1 b2 b3, rest)
  | _ => None
  end.

(** [count] items with the reader [rd] of one item, all or nothing. *)
Fixpoint readN (rd : list byte → option (Z * list byte)) (count : nat) (fin : list byte)
  : option (list Z * list byte) :=
  match count with
  | O => Some ([], fin)
  | S count' =>
      match rd fin with
      | Some (w, rest) =>
          match readN rd count' rest with
          | Some (ws, rest') => Some (w :: ws, rest')
          | None => None
          end
      | None => None
      end
  end.

(** Byte [k] (in memory order) of a 32-bit object holding [v]. *)
Definition mem_byte (k : Z) (v : Z) : Z :=
  if littleEndian then Z.land (Z.shiftr v (8 * k)) 0xFF
  else Z.land (Z.shiftr v (8 * (3 - k))) 0xFF.

End WithHost.
End Reader.

(** Result of running a piece of C: a value, behaviour the C standard leaves
    undefined (a write or read outside an array, a call on a null stream), or
    the recursion budget of the model used up. *)
Inductive outcome (A : Type) : Type :=
| Ret (a : A)
| Undefined
| OutOfFuel.
Arguments Ret {A} a.
Arguments Undefined {A}.
Arguments OutOfFuel {A}.

(** ** vecass.c: the layer assembler *)

Module Vecass.
Import C.

Definition BLOCKSIZE : Z := 4096.
Definition MAX_DUMPLIST : nat := 100.

Record DUMPLIST := mkDL { filenum : Z; layernum : Z }.

#[global] Instance DUMPLIST_inhabited : Inhabited DUMPLIST := populate (mkDL 0 0).

(** The globals of vecass.c, with the standard output and the history of
    [fopen] calls on command files (name and [depth] at the call). *)
Record state := mkState {
  fout : option FILE;
  viewMinX : Z; viewMinY : Z; viewMaxX : Z; viewMaxY : Z;
  depth : Z;
  dumpList : list DUMPLIST;
  dumpListPos : nat;
  stdout : list byte;
  opened : list (list byte * Z)
}.

Definition init : state :=
  mkState None 0 0 1 1 0 (replicate MAX_DUMPLIST (mkDL 0 0)) 0 [] [].

(** The entries in use: [dumpList[0 .. dumpListPos-1]]. *)
Definition entries (st : state) : list DUMPLIST := take (dumpListPos st) (dumpList st).

Definition printf (s : list byte) (st : state) : state :=
  mkState (fout st) (viewMinX st) (viewMinY st) (viewMaxX st) (viewMaxY st)
          (depth st) (dumpList st) (dumpListPos st) (stdout st ++ s) (opened st).

Definition set_dump (dl : list DUMPLIST) (pos : nat) (st : state) : state :=
  mkState (fout st) (viewMinX st) (viewMinY st) (viewMaxX st) (viewMaxY st)
          (depth st) dl pos (stdout st) (opened st).

Definition set_fout (f : option FILE) (st : state) : state :=
  mkState f (viewMinX st) (viewMinY st) (viewMaxX st) (viewMaxY st)
          (depth st) (dumpList st) (dumpListPos st) (stdout st) (opened st).

Definition set_view (x1 y1 x2 y2 : Z) (st : state) : state :=
  mkState (fout st) x1 y1 x2 y2
          (depth st) (dumpList st) (dumpListPos st) (stdout st) (opened st).

Definition set_depth (d : Z) (st : state) : state :=
  mkState (fout st) (viewMinX st) (viewMinY st) (viewMaxX st) (viewMaxY st)
          d (dumpList st) (dumpListPos st) (stdout st) (opened st).

Definition log_open (name : list byte) (st : state) : state :=
  mkState (fout st) (viewMinX st) (viewMinY st) (viewMaxX st) (viewMaxY st)
          (depth st) (dumpList st) (dumpListPos st) (stdout st)
          (opened st ++ [(name, depth st)]).

(** [addToDumpList]: stores at [dumpListPos] and advances it; the store is
    outside the array once [dumpListPos] has reached [MAX_DUMPLIST].  Both
    returns of the source are [1].  The arguments are [uint16_t] values. *)
Definition addToDumpList (fnum lnum : Z) (st : state) : outcome (Z * state) :=
  if (dumpListPos st <? MAX_DUMPLIST)%nat then
    let st := set_dump (<[dumpListPos st := mkDL fnum lnum]> (dumpList st))
                       (S (dumpListPos st)) st in
    if (MAX_DUMPLIST <=? dumpListPos st)%nat
    then Ret (1, printf (bytes "error : dumpList overload!" ++ [x0a]) st)
    else Ret (1, st)
  else Undefined.

(** The inner loop of [sortDumpList], from index [i] for [cnt] rounds, on
    the array of references [refs] into [dl]. *)
Fixpoint bubbleInner (dl : list DUMPLIST) (i cnt : nat) (refs : list nat) (changed : bool)
  : list nat * bool :=
  match cnt with
  | O => (refs, changed)
  | S cnt' =>
      let a := layernum (dl !!! (refs !!! i)) in
      let b := layernum (dl !!! (refs !!! S i)) in
      if a >? b then
        let swap := refs !!! i in
        let refs := <[i := refs !!! S i]> refs in
        let refs := <[S i := swap]> refs in
        bubbleInner dl (S i) cnt' refs true
      else bubbleInner dl (S i) cnt' refs changed
  end.

(** The outer loop: [reps] runs from its start value down to 1. *)
Fixpoint bubbleOuter (dl : list DUMPLIST) (reps : nat) (refs : list nat) (changed : bool)
  : list nat * bool :=
  match reps with
  | O => (refs, changed)
  | S reps' =>
      let '(refs, changed) := bubbleInner dl 0 reps refs changed in
      bubbleOuter dl reps' refs changed
  end.

(** [sortDumpList]: the references start as 0, 1, ..., [dumpListPos - 1];
    when an exchange was made, [outList[i] = dumpList[dumpListRefs[i]]] for
    the entries in use, and [outList] is copied back over them. *)
Definition sortDumpList (st : state) : state :=
  if (dumpListPos st <? 2)%nat then st
  else
    let dumpListRefs := seq 0 (dumpListPos st) in
    let '(dumpListRefs, changed) :=
      bubbleOuter (dumpList st) (dumpListPos st - 1) dumpListRefs false in
    if changed then
      let outList := (λ r, dumpList st !!! r) <$> dumpListRefs in
      set_dump (outList ++ drop (dumpListPos st) (dumpList st)) (dumpListPos st) st
    else st.

(** [setViewbox] on a stream of a regular file, where [fflush], [ftell],
    [fseek] and [fwrite] succeed.  A text of 30 characters or more does not
    fit [buf]: [sprintf] then writes past its end. *)
Definition setViewbox (f : FILE) (minx miny maxx maxy : Z) : outcome (Z * FILE) :=
  let pos := ftell f in
  let f := fseek_set 13 f in
  let text := viewboxText minx miny maxx maxy in
  if (30 <=? length text)%nat then Undefined
  else
    let buf := sprintfBuf text in
    let size1 := length text in
    let buf := rpad buf size1 in
    let f := fwrite (take 26 buf) f in
    let f := fseek_set pos f in
    Ret (0, f).

(** [strchr(headerbuf, '\n')] on the 150 bytes of [headerbuf]:
    [Some (Some i)] for a newline at index [i], [Some None] when the
    terminator comes first, [None] when neither is in the array. *)
Fixpoint strchr_nl (buf : list byte) (i : nat) : option (option nat) :=
  match buf with
  | [] => None
  | b :: rest =>
      if Byte.eqb b x0a then Some (Some i)
      else if Byte.eqb b x00 then Some None
      else strchr_nl rest (S i)
  end.

(** The block copy loop of [dumpFromList]; [fin] is what is left of the
    input file.  Each round takes at least one byte, so a [fuel] above the
    length of [fin] is never used up. *)
Fixpoint copyBlocks (fuel : nat) (bytesLeft : Z) (fin : list byte) (fo : FILE)
  : outcome (Z * FILE) :=
  match fuel with
  | O => OutOfFuel
  | S fuel' =>
      if bytesLeft >? 0 then
        let count := if bytesLeft <? BLOCKSIZE then bytesLeft else BLOCKSIZE in
        if Z.of_nat (length fin) <? count then Ret (1, fo)
        else copyBlocks fuel' (bytesLeft - count) (drop (Z.to_nat count) fin)
                        (fwrite (take (Z.to_nat count) fin) fo)
      else Ret (0, fo)
  end.

Definition header_line : list byte :=
  bytes "<svg viewBox=" ++ [x22] ++ bytes "VIEWBOX_PLACEHOLDER_1234" ++ [x22]
    ++ bytes " version=" ++ [x22] ++ bytes "1.1" ++ [x22]
    ++ bytes " baseProfile=" ++ [x22] ++ bytes "full" ++ [x22]
    ++ bytes " xmlns=" ++ [x22] ++ bytes "http://www.w3.org/2000/svg" ++ [x22]
    ++ bytes ">" ++ [x0a].

Section WithFiles.
Context `{Host}.
(** The files that can be opened for reading, by name; [prefix] as [main]
    sets it.  The output file is none of them, and opening it succeeds. *)
Variable fs : list byte → option (list byte).
Variable prefix : list byte.

(** One round of the loop of [dumpFromList], for the entry [e]: [inl] is
    a [return] out of the function, [inr] goes on with the loop. *)
Definition dumpOne (e : DUMPLIST) (st : state) : outcome ((Z * state) + state) :=
  let filename := prefix ++ fmt_05u (filenum e) ++ bytes ".svg" in
  match fs filename with
  | None =>
      Ret (inr (printf (bytes "warning : dumpFromList: unable to open input file '"
                          ++ filename ++ bytes "'" ++ [x0a]) st))
  | Some data =>
      let byteCount := uint32 (Z.of_nat (length data)) in
      let byteCount := uint32 (byteCount - 7) in
      let headerbuf := take 150 data ++ replicate (150 - length data) x00 in
      match sscanf_4i (drop 14 headerbuf) with
      | None => Ret (inl (1, printf (bytes "error : unable to read viewBox" ++ [x0a]) st))
      | Some (x1, y1, x2, y2) =>
          let st := set_view (if x1 <? viewMinX st then x1 else viewMinX st)
                             (viewMinY st) (viewMaxX st) (viewMaxY st) st in
          let st := set_view (viewMinX st)
                             (if y1 <? viewMinY st then y1 else viewMinY st)
                             (viewMaxX st) (viewMaxY st) st in
          let st := set_view (viewMinX st) (viewMinY st)
                             (if x2 >? viewMaxX st then x2 else viewMaxX st)
                             (viewMaxY st) st in
          let st := set_view (viewMinX st) (viewMinY st) (viewMaxX st)
                             (if y2 >? viewMaxY st then y2 else viewMaxY st) st in
          match strchr_nl headerbuf 0 with
          | None => Undefined
          | Some None => Ret (inl (1, printf (bytes "error : reading header" ++ [x0a]) st))
          | Some (Some nl) =>
              let offset := Z.of_nat nl + 1 in
              let byteCount := uint32 (byteCount - offset) in
              let fin := drop (Z.to_nat offset) data in
              match fout st with
              | None => Undefined
              | Some fo =>
                  let fo := fwrite (bytes "<g>" ++ [x0a]) fo in
                  match copyBlocks (S (length fin)) byteCount fin fo with
                  | Ret (0, fo) =>
                      Ret (inr (set_fout (Some (fwrite (bytes "</g>" ++ [x0a]) fo)) st))
                  | Ret (_, fo) =>
                      (* a failed [fread]: [fwrite] cannot fail on the model's stream *)
                      Ret (inl (1, printf (bytes "error : dumpFromList: fread failed" ++ [x0a])
                                          (set_fout (Some fo) st)))
                  | Undefined => Undefined
                  | OutOfFuel => OutOfFuel
                  end
              end
          end
      end
  end.

(** The [for] loop of [dumpFromList] over the entries still to do. *)
Fixpoint dumpLoop (todo : list DUMPLIST) (st : state) : outcome ((Z * state) + state) :=
  match todo with
  | [] => Ret (inr st)
  | e :: todo' =>
      match dumpOne e st with
      | Ret (inr st) => dumpLoop todo' st
      | r => r
      end
  end.

Definition dumpFromList (st : state) : outcome (Z * state) :=
  let st := sortDumpList st in
  match dumpLoop (entries st) st with
  | Ret (inl r) => Ret r
  | Ret (inr st) =>
      match fout st with
      | None => Undefined
      | Some fo =>
          match setViewbox fo (viewMinX st) (viewMinY st) (viewMaxX st) (viewMaxY st) with
          | Ret (0, fo) => Ret (0, set_fout (Some fo) st)
          | Ret (_, fo) => Ret (1, printf (bytes "error : in setViewbox" ++ [x0a])
                                          (set_fout (Some fo) st))
          | Undefined => Undefined
          | OutOfFuel => OutOfFuel
          end
      end
  | Undefined => Undefined
  | OutOfFuel => OutOfFuel
  end.

Variable svgfilename : list byte.

(** The main loop of [processFile] on what is left of the command file;
    [call] is the recursive call, [spacer] the indentation computed on
    entry.  [feof] becomes true only through a failed read, which leaves
    the loop by itself. *)
Fixpoint scanLoop (call : list byte → state → outcome (Z * state))
         (spacer : list byte) (fin1 : list byte) (st : state) : outcome state :=
  match fin1 with
  | b0 :: b1 :: rest =>
      let cmd := int16 (bo_read16 b0 b1) in
      if cmd =? 0 then scanLoop call spacer rest st
      else if (cmd =? 3) || (cmd =? 4) then
        match rest with
        | c0 :: c1 :: rest' =>
            let incnum := bo_read16 c0 c1 in
            let nextFilename := prefix ++ fmt_05u incnum ++ bytes ".bin" in
            let st := printf (spacer ++ bytes "include " ++ nextFilename ++ [x0a]) st in
            let st := set_depth (depth st + 1) st in
            match call nextFilename st with
            | Ret (r, st) =>
                if r =? 0 then scanLoop call spacer rest' (set_depth (depth st - 1) st)
                else Ret (printf (bytes "error : failure" ++ [x0a]) st)
            | Undefined => Undefined
            | OutOfFuel => OutOfFuel
            end
        | _ => Ret (printf (spacer ++ bytes "error : read failed (params)" ++ [x0a]) st)
        end
      else scanLoop call spacer rest st
  | _ => Ret st
  end.

(** The body of [processFile], with [call] for its recursive calls. *)
Definition processBody (call : list byte → state → outcome (Z * state))
           (baseFilename : list byte) (st : state) : outcome (Z * state) :=
  if depth st =? 10 then
    Ret (0, printf (bytes "warning : MAX DEPTH reached, not going deeper" ++ [x0a]) st)
  else if 80 <=? 4 * depth st then Undefined (* [strcat] past the end of [spacer] *)
  else
    let spacer := replicate (4 * Z.to_nat (depth st)) x20 in
    let st := log_open baseFilename st in
    match fs baseFilename with
    | None =>
        Ret (1, printf (spacer ++ bytes "error : failed to open: " ++ baseFilename ++ [x0a]) st)
    | Some (a0 :: a1 :: a2 :: a3 :: b0 :: b1 :: b2 :: b3 :: c0 :: c1 :: c2 :: c3 :: rest) =>
        let header0 := int32 (bo_read32 a0 a1 a2 a3) in
        let header1 := int32 (bo_read32 b0 b1 b2 b3) in
        let header2 := int32 (bo_read32 c0 c1 c2 c3) in
        if header0 =? 1 then
          if negb (header1 =? 0) then
            Ret (1, printf (spacer ++ bytes "error : weird header" ++ [x0a]) st)
          else if depth st =? 0 then
            Ret (0, printf (bytes "skip.shallow" ++ [x0a]) st)
          else
            let data := uint32 header2 in
            let fnum := uint16 (Z.shiftr (Z.land data 0xFFFF0000) 16) in
            let lnum := uint16 (Z.land data 0xFFFF) in
            let st := printf (spacer ++ bytes "load layer " ++ fmt_i lnum ++ bytes " from "
                                ++ fmt_05u fnum ++ bytes ".svg" ++ [x0a]) st in
            match addToDumpList fnum lnum st with
            | Ret (_, st) => Ret (0, st)
            | Undefined => Undefined
            | OutOfFuel => OutOfFuel
            end
        else if (header0 <? 3) || (header0 >=? Z.of_nat MAX_DUMPLIST) then
          Ret (1, printf (spacer ++ bytes "skip.type" ++ [x0a]) st)
        else if (header0 =? 3) && (depth st =? 0) then
          Ret (1, printf (spacer ++ bytes "skip.three" ++ [x0a]) st)
        else if header1 =? 0x48 then
          Ret (1, printf (spacer ++ bytes "skip.0x48" ++ [x0a]) st)
        else if negb (header1 =? 0) || negb (header2 =? 0) then
          Ret (1, printf (spacer ++ bytes "skip.not_group" ++ [x0a]) st)
        else
          match rest with
          | _ :: _ :: _ :: _ :: _ :: _ :: _ :: _ :: _ :: _ :: _ :: _ :: cmds =>
              let st :=
                if depth st =? 0 then
                  printf (bytes "writing to " ++ svgfilename ++ [x0a])
                         (set_fout (Some (fwrite header_line fopen_w)) st)
                else st in
              match scanLoop call spacer cmds st with
              | Ret st =>
                  let st := printf (spacer ++ bytes "end file" ++ [x0a]) st in
                  if depth st =? 0 then
                    match dumpFromList st with
                    | Ret (r, st) =>
                        if negb (r =? 0) then
                          Ret (1, printf (bytes "error : during dumpFromList" ++ [x0a]) st)
                        else
                          match fout st with
                          | None => Undefined
                          | Some fo =>
                              Ret (0, printf (bytes "done" ++ [x0a])
                                             (set_fout (Some (fwrite (bytes "</svg>" ++ [x0a]) fo)) st))
                          end
                    | Undefined => Undefined
                    | OutOfFuel => OutOfFuel
                    end
                  else Ret (0, st)
              | Undefined => Undefined
              | OutOfFuel => OutOfFuel
              end
          | _ => Ret (1, printf (spacer ++ bytes "error : read failed (header part 2)" ++ [x0a]) st)
          end
    | Some _ => Ret (1, printf (spacer ++ bytes "error : read failed (header)" ++ [x0a]) st)
    end.

(** [processFile]: [fuel] bounds the nesting of recursive calls only; the
    loop over the commands of one file is structural. *)
Fixpoint processFile (fuel : nat) (baseFilename : list byte) (st : state)
  : outcome (Z * state) :=
  match fuel with
  | O => OutOfFuel
  | S fuel' => processBody (processFile fuel') baseFilename st
  end.

End WithFiles.

End Vecass.

(** ** ubvff1.c: [escapeStringA] *)

Module Escape.
Import C.

(** The [char] with the code [c], for the codes a byte has. *)
Definition char_byte (c : Z) : byte :=
  match Byte.of_N (Z.to_N c) with Some b => b | None => x00 end.

(** One digit of [%02X]. *)
Definition hexdigit (n : Z) : byte :=
  if n <? 10 then char_byte (48 + n) else char_byte (55 + n).

(** The test of the second branch of the loop. *)
Definition escaped_char (c : Z) : bool :=
  (c <? 32) || (c >? 126) || (c =? 92) || (c =? 39) || (c =? 34).

(** The first four bytes of [csbuf] after [sprintf(csbuf,"\\x%02X",c)] for
    a [c] that is not negative (and below 256, as a [char] is). *)
Definition csbuf4 (c : Z) : list byte :=
  [char_byte 92; char_byte 120; hexdigit (c / 16); hexdigit (c mod 16)].

(** The loop of [escapeStringA] from [source[i]] on: [source] is what is
    left of the string before its terminator, as the values of its [char]s
    (negative ones where [char] is signed).  The result is [dest], [destPos]
    and [overflow].  A negative [char] is printed by [%02X] with eight
    digits, which [csbuf] has no room for. *)
Fixpoint escapeLoop (source : list Z) (dest : list byte) (destPos destSize : nat)
  : outcome (list byte * nat * Z) :=
  if (destSize <=? destPos)%nat then Ret (dest, destPos, 0)
  else
    match source with
    | [] => Ret (<[destPos := x00]> dest, destPos, 0)
    | c :: rest =>
        if c =? 0 then Ret (<[destPos := x00]> dest, destPos, 0)
        else if escaped_char c then
          if (destSize <=? destPos + 4)%nat then Ret (dest, destPos, 1)
          else if c <? 0 then Undefined
          else
            let dest := take destPos dest ++ csbuf4 c ++ drop (destPos + 4) dest in
            escapeLoop rest dest (destPos + 4) destSize
        else escapeLoop rest (<[destPos := char_byte c]> dest) (S destPos) destSize
    end.

(** [escapeStringA(dest, destSize, source)], for a [dest] of [destSize]
    bytes: the return value and [dest] afterwards. *)
Definition escapeStringA (dest : list byte) (destSize : Z) (source : list Z)
  : outcome (Z * list byte) :=
  if destSize <? 1 then Ret (1, dest)
  else
    match escapeLoop source dest 0 (Z.to_nat destSize) with
    | Ret (dest, destPos, overflow) =>
        if Z.of_nat destPos =? destSize
        then Ret (1, <[(destPos - 1)%nat := x00]> dest)
        else Ret (overflow, <[destPos := x00]> dest)
    | Undefined => Undefined
    | OutOfFuel => OutOfFuel
    end.

(** The text the loop makes of a string when nothing stops it. *)
Definition escapeOne (c : Z) : list byte :=
  if escaped_char c then csbuf4 c else [char_byte c].

Definition escapeAll (source : list Z) : list byte := concat (escapeOne <$> source).

(** A byte of the result as a reader sees it: printable, and no quote or
    apostrophe. *)
Definition display_byte (b : byte) : bool :=
  (32 <=? byteZ b) && (byteZ b <=? 126) && negb (byteZ b =? 39) && negb (byteZ b =? 34).

End Escape.

(** ** ubvff1.c: the single-stream (Type 1) decoder *)

Module Ubvff1.
Import C Reader.

Record BIN_HEADER := mkHeader { x1 : Z; y1 : Z; x2 : Z; y2 : Z; unknown : Z }.
Record BIN_POINT := mkPoint { x : Z; y : Z }.
Record BIN_CUBIC := mkCubic { p0 : BIN_POINT; p1 : BIN_POINT; p2 : BIN_POINT }.
Record BIN_COLOR := mkColor { r : Z; g : Z; b : Z; unused : Z }.

Definition scaleFactor : Z := 0x8000.

Inductive SVGDUMP_STATE :=
| DUMPSTATE_BEGIN
| DUMPSTATE_AFTER_HEADER
| DUMPSTATE_AFTER_START_LAYER
| DUMPSTATE_AFTER_START_PATH
| DUMPSTATE_AFTER_LINE
| DUMPSTATE_AFTER_CLOSE_PATH
| DUMPSTATE_AFTER_END_PATH
| DUMPSTATE_AFTER_END_LAYER
| DUMPSTATE_AFTER_FOOTER.

Definition state_eqb (a b : SVGDUMP_STATE) : bool :=
  match a, b with
  | DUMPSTATE_BEGIN, DUMPSTATE_BEGIN
  | DUMPSTATE_AFTER_HEADER, DUMPSTATE_AFTER_HEADER
  | DUMPSTATE_AFTER_START_LAYER, DUMPSTATE_AFTER_START_LAYER
  | DUMPSTATE_AFTER_START_PATH, DUMPSTATE_AFTER_START_PATH
  | DUMPSTATE_AFTER_LINE, DUMPSTATE_AFTER_LINE
  | DUMPSTATE_AFTER_CLOSE_PATH, DUMPSTATE_AFTER_CLOSE_PATH
  | DUMPSTATE_AFTER_END_PATH, DUMPSTATE_AFTER_END_PATH
  | DUMPSTATE_AFTER_END_LAYER, DUMPSTATE_AFTER_END_LAYER
  | DUMPSTATE_AFTER_FOOTER, DUMPSTATE_AFTER_FOOTER => true
  | _, _ => false
  end.

(** The emitter: the globals [svgdump] and [svgDumpState] and the output
    stream [fout] (not used while [svgdump] is off).  The messages the
    emitter prints on a state error go to [stdout], which is left out. *)
Record emitter := mkEmitter {
  svgdump : bool;
  svgDumpState : SVGDUMP_STATE;
  fout : FILE
}.

(** A successful [fprintf] of [text] followed by the move to [next]. *)
Definition emit (text : list byte) (next : SVGDUMP_STATE) (e : emitter) : Z * emitter :=
  (0, mkEmitter (svgdump e) next (fwrite text (fout e))).

Section WithHost.
Context `{Host}.

Definition f6 (v : Z) : list byte := fmt_f6 v scaleFactor.

Definition dumpSVGHeader (header : BIN_HEADER) (e : emitter) : Z * emitter :=
  if negb (svgdump e) then (0, e)
  else if negb (state_eqb (svgDumpState e) DUMPSTATE_BEGIN) then (1, e)
  else emit (bytes "<svg viewBox=" ++ [x22] ++ bytes "0 0 "
               ++ fmt_i (roundInt (x2 header) scaleFactor) ++ bytes " "
               ++ fmt_i (roundInt (y2 header) scaleFactor)
               ++ [x22] ++ bytes " version=" ++ [x22] ++ bytes "1.1" ++ [x22]
               ++ bytes " baseProfile=" ++ [x22] ++ bytes "full" ++ [x22]
               ++ bytes " xmlns=" ++ [x22] ++ bytes "http://www.w3.org/2000/svg" ++ [x22]
               ++ bytes ">" ++ [x0a])
            DUMPSTATE_AFTER_HEADER e.

Definition dumpSVGStartLayer (e : emitter) : Z * emitter :=
  if negb (svgdump e) then (0, e)
  else if negb (state_eqb (svgDumpState e) DUMPSTATE_AFTER_HEADER)
          && negb (state_eqb (svgDumpState e) DUMPSTATE_AFTER_END_LAYER) then (1, e)
  else emit (bytes "<g>" ++ [x0a]) DUMPSTATE_AFTER_START_LAYER e.

Definition dumpSVGStartPath (p : BIN_POINT) (e : emitter) : Z * emitter :=
  if negb (svgdump e) then (0, e)
  else
    let coords := f6 (x p) ++ bytes " " ++ f6 (y p) ++ bytes " " in
    if state_eqb (svgDumpState e) DUMPSTATE_AFTER_CLOSE_PATH
       || state_eqb (svgDumpState e) DUMPSTATE_AFTER_LINE
    then emit (bytes "M " ++ coords) DUMPSTATE_AFTER_START_PATH e
    else if negb (state_eqb (svgDumpState e) DUMPSTATE_AFTER_START_LAYER)
            && negb (state_eqb (svgDumpState e) DUMPSTATE_AFTER_END_PATH)
    then (1, e)
    else emit (bytes "<path d=" ++ [x22] ++ bytes "M " ++ coords)
              DUMPSTATE_AFTER_START_PATH e.

Definition cubicText (c : BIN_CUBIC) : list byte :=
  bytes "C " ++ f6 (x (p0 c)) ++ bytes " " ++ f6 (y (p0 c)) ++ bytes ", "
    ++ f6 (x (p1 c)) ++ bytes " " ++ f6 (y (p1 c)) ++ bytes ", "
    ++ f6 (x (p2 c)) ++ bytes " " ++ f6 (y (p2 c)) ++ bytes " ".

Definition dumpSVGCubic (c : BIN_CUBIC) (e : emitter) : Z * emitter :=
  if negb (svgdump e) then (0, e)
  else if negb (state_eqb (svgDumpState e) DUMPSTATE_AFTER_START_PATH)
          && negb (state_eqb (svgDumpState e) DUMPSTATE_AFTER_LINE) then (1, e)
  else emit (cubicText c) DUMPSTATE_AFTER_LINE e.

Definition dumpSVGLine (p : BIN_POINT) (e : emitter) : Z * emitter :=
  if negb (svgdump e) then (0, e)
  else if negb (state_eqb (svgDumpState e) DUMPSTATE_AFTER_START_PATH)
          && negb (state_eqb (svgDumpState e) DUMPSTATE_AFTER_LINE) then (1, e)
  else emit (bytes "L " ++ f6 (x p) ++ bytes " " ++ f6 (y p) ++ bytes " ")
            DUMPSTATE_AFTER_LINE e.

Definition dumpSVGClosePath (e : emitter) : Z * emitter :=
  if negb (svgdump e) then (0, e)
  else if negb (state_eqb (svgDumpState e) DUMPSTATE_AFTER_LINE) then (1, e)
  else emit (bytes "Z ") DUMPSTATE_AFTER_CLOSE_PATH e.

Definition fillText (hasFill : bool) (fillColor : BIN_COLOR) : list byte :=
  if hasFill
  then bytes "fill=" ++ [x22] ++ bytes "rgb(" ++ fmt_i (r fillColor) ++ bytes ","
         ++ fmt_i (g fillColor) ++ bytes "," ++ fmt_i (b fillColor) ++ bytes ")"
         ++ [x22] ++ bytes " "
  else bytes "fill=" ++ [x22] ++ bytes "none" ++ [x22] ++ bytes " ".

Definition strokeText (hasStroke : bool) (strokeWidth : Z) (strokeColor : BIN_COLOR)
  : list byte :=
  if hasStroke
  then bytes "stroke=" ++ [x22] ++ bytes "rgb(" ++ fmt_i (r strokeColor) ++ bytes ","
         ++ fmt_i (g strokeColor) ++ bytes "," ++ fmt_i (b strokeColor) ++ bytes ")"
         ++ [x22] ++ bytes " stroke-width=" ++ [x22] ++ f6 strokeWidth ++ [x22]
         ++ bytes " stroke-linecap=" ++ [x22] ++ bytes "butt" ++ [x22]
         ++ bytes " stroke-linejoin=" ++ [x22] ++ bytes "miter" ++ [x22]
         ++ bytes " stroke-miterlimit=" ++ [x22] ++ bytes "10" ++ [x22] ++ bytes " "
  else bytes "stroke=" ++ [x22] ++ bytes "none" ++ [x22] ++ bytes " ".

Definition dumpSVGEndPath (hasFill : bool) (fillColor : BIN_COLOR) (hasStroke : bool)
           (strokeWidth : Z) (strokeColor : BIN_COLOR) (e : emitter) : Z * emitter :=
  if negb (svgdump e) then (0, e)
  else if negb (state_eqb (svgDumpState e) DUMPSTATE_AFTER_LINE)
          && negb (state_eqb (svgDumpState e) DUMPSTATE_AFTER_CLOSE_PATH) then (1, e)
  else emit ([x22] ++ bytes " " ++ fillText hasFill fillColor
               ++ strokeText hasStroke strokeWidth strokeColor ++ bytes "/>" ++ [x0a])
            DUMPSTATE_AFTER_END_PATH e.

Definition dumpSVGEndLayer (e : emitter) : Z * emitter :=
  if negb (svgdump e) then (0, e)
  else if negb (state_eqb (svgDumpState e) DUMPSTATE_AFTER_END_PATH)
          && negb (state_eqb (svgDumpState e) DUMPSTATE_AFTER_START_LAYER) then (1, e)
  else emit (bytes "</g>" ++ [x0a]) DUMPSTATE_AFTER_END_LAYER e.

Definition dumpSVGFooter (e : emitter) : Z * emitter :=
  if negb (svgdump e) then (0, e)
  else if negb (state_eqb (svgDumpState e) DUMPSTATE_AFTER_END_LAYER) then (1, e)
  else emit (bytes "</svg>" ++ [x0a]) DUMPSTATE_AFTER_FOOTER e.

(** The state of [main]'s loop: what is left of the input file, the
    emitter, and the values read so far; [title] is the array of 65 [char]s
    of that name, as the values of its elements.  What is printed to the
    standard output is left out. *)
Record decoder := mkDecoder {
  fin : list byte;
  em : emitter;
  header : BIN_HEADER;
  color : BIN_COLOR;
  strokeColor : BIN_COLOR;
  strokeWidth : Z;
  title : list Z
}.

Definition with_fin (f : list byte) (d : decoder) : decoder :=
  mkDecoder f (em d) (header d) (color d) (strokeColor d) (strokeWidth d) (title d).

Definition with_em (e : emitter) (d : decoder) : decoder :=
  mkDecoder (fin d) e (header d) (color d) (strokeColor d) (strokeWidth d) (title d).

Definition with_title (t : list Z) (d : decoder) : decoder :=
  mkDecoder (fin d) (em d) (header d) (color d) (strokeColor d) (strokeWidth d) t.

(** How one round of the loop ends: [continue] (or falling off the end of
    the body), [break], [return] from [main], or behaviour that the C
    standard does not define. *)
Inductive flow :=
| Continue (d : decoder)
| Break (d : decoder)
| Return (code : Z) (d : decoder)
| Fault.

Definition readPoint (f : list byte) : option (BIN_POINT * list byte) :=
  match readN read32 2 f with
  | Some ([px; py], rest) => Some (mkPoint (int32 px) (int32 py), rest)
  | _ => None
  end.

Definition readCubic (f : list byte) : option (BIN_CUBIC * list byte) :=
  match readN read32 6 f with
  | Some ([ax; ay; bx; by'; cx; cy], rest) =>
      Some (mkCubic (mkPoint (int32 ax) (int32 ay)) (mkPoint (int32 bx) (int32 by'))
                    (mkPoint (int32 cx) (int32 cy)), rest)
  | _ => None
  end.

(** A [BIN_COLOR] read as one 32-bit item: its four bytes in memory
    after [bo_fread]. *)
Definition readColor (f : list byte) : option (BIN_COLOR * list byte) :=
  match read32 f with
  | Some (v, rest) =>
      Some (mkColor (mem_byte 0 v) (mem_byte 1 v) (mem_byte 2 v) (mem_byte 3 v), rest)
  | None => None
  end.

(** [(char)dw] for a 32-bit [dw]: the low byte, as a value from -128 to 127
    where [char] is signed (the conversion of gcc) and from 0 to 255 where it
    is not. *)
Definition to_char (dw : Z) : Z := if charSigned then wraps 8 dw else wrapu 8 dw.

(** The loop over the characters of a layer name, one 32-bit word each,
    from [title[y]] on; a failed read leaves the loop with the stream at its
    end and the rest of [title] as it was. *)
Fixpoint titleLoop (n : nat) (y : nat) (f : list byte) (t : list Z) : list byte * list Z :=
  match n with
  | O => (f, t)
  | S n' =>
      match read32 f with
      | Some (dw, rest) => titleLoop n' (S y) rest (<[y := to_char dw]> t)
      | None => ([], t)
      end
  end.

(** [strBuf], 257 bytes of the frame of [main] that nothing has written
    yet: what they hold has no part in how [escapeStringA] goes. *)
Definition strBuf0 : list byte := replicate 257 x00.

(** The loop of CMD_07_LINE over [n] points. *)
Fixpoint lineLoop (n : nat) (f : list byte) (e : emitter) : list byte * emitter :=
  match n with
  | O => (f, e)
  | S n' =>
      match readPoint f with
      | None => ([], e)
      | Some (p, rest) =>
          let '(rc, e') := dumpSVGLine p e in
          if rc =? 0 then lineLoop n' rest e' else (rest, e')
      end
  end.

(** The loop of CMD_08_CUBIC over [n = pcount/3] cubics. *)
Fixpoint cubicLoop (n : nat) (f : list byte) (e : emitter) : list byte * emitter :=
  match n with
  | O => (f, e)
  | S n' =>
      match readCubic f with
      | None => ([], e)
      | Some (c, rest) =>
          let '(rc, e') := dumpSVGCubic c e in
          if rc =? 0 then cubicLoop n' rest e' else (rest, e')
      end
  end.

(** The cubics a block of [n] cubics holds, when the input has them all. *)
Fixpoint readCubics (n : nat) (f : list byte) : option (list BIN_CUBIC * list byte) :=
  match n with
  | O => Some ([], f)
  | S n' =>
      match readCubic f with
      | Some (c, rest) =>
          match readCubics n' rest with
          | Some (cs, rest') => Some (c :: cs, rest')
          | None => None
          end
      | None => None
      end
  end.

(** The output after the segments of the cubics [cs] are written to it. *)
Definition writeCubics (cs : list BIN_CUBIC) (fo : FILE) : FILE :=
  foldl (λ fo c, fwrite (cubicText c) fo) fo cs.

(** An emitter operation whose failure leaves the loop. *)
Definition guarded (res : Z * emitter) (d : decoder) : flow :=
  let '(rc, e) := res in
  if rc =? 0 then Continue (with_em e d) else Break (with_em e d).

(** One round of the main loop of [main].  A layer name is escaped into
    [strBuf] whether or not it is printed; a character of it that is
    negative as a [char] makes the round a [Fault], in [escapeStringA]. *)
Definition step (d : decoder) : flow :=
  match read32 (fin d) with
  | None => Break (with_fin [] d)
  | Some (cmd, f) =>
      let d := with_fin f d in
      if cmd =? 0x00 then Continue d
      else if cmd =? 0x01 then
        match read32 f with
        | None => Break (with_fin [] d)
        | Some (strLength, f) =>
            if strLength >? 64 then Return 1 (with_fin f d)
            else
              let '(f, t) := titleLoop (Z.to_nat strLength) 0 f (title d) in
              let d := with_title (<[Z.to_nat strLength := 0]> t) (with_fin f d) in
              match Escape.escapeStringA strBuf0 257 (title d) with
              | Ret _ =>
                  let '(rc, e) :=
                    if state_eqb (svgDumpState (em d)) DUMPSTATE_BEGIN
                    then dumpSVGHeader (header d) (em d) else (0, em d) in
                  if negb (rc =? 0) then Break (with_em e d)
                  else guarded (dumpSVGStartLayer e) d
              | _ => Fault
              end
        end
      else if cmd =? 0x02 then
        let '(rc, e) :=
          if state_eqb (svgDumpState (em d)) DUMPSTATE_AFTER_CLOSE_PATH
          then dumpSVGEndPath false (color d) false (strokeWidth d) (strokeColor d) (em d)
          else (0, em d) in
        if negb (rc =? 0) then Break (with_em e d)
        else guarded (dumpSVGEndLayer e) d
      else if cmd =? 0x03 then
        match readN read32 5 f with
        | Some ([h0; h1; h2; h3; h4], f) =>
            Continue (mkDecoder f (em d)
                        (mkHeader (int32 h0) (int32 h1) (int32 h2) (int32 h3) (int32 h4))
                        (color d) (strokeColor d) (strokeWidth d) (title d))
        | _ => Break (with_fin [] d)
        end
      else if cmd =? 0x04 then
        match readColor f with
        | Some (c, f) =>
            Continue (mkDecoder f (em d) (header d) (color d) c (strokeWidth d) (title d))
        | None => Break (with_fin [] d)
        end
      else if cmd =? 0x05 then
        match readColor f with
        | Some (c, f) =>
            Continue (mkDecoder f (em d) (header d) c (strokeColor d) (strokeWidth d) (title d))
        | None => Break (with_fin [] d)
        end
      else if cmd =? 0x06 then
        match readPoint f with
        | Some (p, f) => guarded (dumpSVGStartPath p (em d)) (with_fin f d)
        | None => Break (with_fin [] d)
        end
      else if cmd =? 0x07 then
        match read32 f with
        | None => Break (with_fin [] d)
        | Some (pcount, f) =>
            let '(f, e) := lineLoop (Z.to_nat pcount) f (em d) in
            Continue (with_em e (with_fin f d))
        end
      else if cmd =? 0x08 then
        match read32 f with
        | None => Break (with_fin [] d)
        | Some (pcount, f) =>
            let '(f, e) := cubicLoop (Z.to_nat (pcount / 3)) f (em d) in
            Continue (with_em e (with_fin f d))
        end
      else if cmd =? 0x09 then
        guarded (dumpSVGEndPath false (color d) true (strokeWidth d) (strokeColor d) (em d)) d
      else if (cmd =? 0x0A) || (cmd =? 0x0B) then
        guarded (dumpSVGEndPath true (color d) (cmd =? 0x0B) (strokeWidth d)
                                (strokeColor d) (em d)) d
      else if cmd =? 0x0C then Continue d
      else if cmd =? 0x0D then guarded (dumpSVGClosePath (em d)) d
      else if (cmd =? 0x0E) || (cmd =? 0x0F) then
        match read32 f with
        | Some (_, f) => Continue (with_fin f d)
        | None => Break (with_fin [] d)
        end
      else if cmd =? 0x10 then
        match read32 f with
        | Some (w, f) =>
            Continue (mkDecoder f (em d) (header d) (color d) (strokeColor d) (int32 w)
                                (title d))
        | None => Break (with_fin [] d)
        end
      else if cmd =? 0x15 then
        Break (with_em (snd (dumpSVGFooter (em d))) d)
      else Continue d
  end.

(** The loop of [main] and the exit status computed after it.  A round
    either reads the four bytes of an opcode or leaves the loop. *)
Fixpoint mainLoop (fuel : nat) (d : decoder) : outcome (option Z * decoder) :=
  match fuel with
  | O => OutOfFuel
  | S fuel' =>
      match step d with
      | Continue d' => mainLoop fuel' d'
      | Break d' => Ret (None, d')
      | Return code d' => Ret (Some code, d')
      | Fault => Undefined
      end
  end.

Definition exitStatus (r : option Z * decoder) : Z :=
  match r with
  | (Some code, _) => code
  | (None, d) =>
      if svgdump (em d)
      then if state_eqb (svgDumpState (em d)) DUMPSTATE_AFTER_FOOTER then 0 else 1
      else 0
  end.

(** What [main] finds in its uninitialised locals. *)
Record locals := mkLocals {
  header0 : BIN_HEADER;
  color0 : BIN_COLOR;
  strokeColor0 : BIN_COLOR
}.

(** [main] after the command line is parsed and the files are opened:
    [dump] is [svgdump], [file] the bytes of the input file.  The result is
    the exit status with the final state, or [Undefined] when a round of the
    loop is a [Fault]. *)
Definition main (dump : bool) (file : list byte) (l : locals) : outcome (Z * decoder) :=
  let d := mkDecoder file (mkEmitter dump DUMPSTATE_BEGIN fopen_w)
                     (header0 l) (color0 l) (strokeColor0 l) 0x8000 (replicate 65 0) in
  match mainLoop (S (length file)) d with
  | Ret r => Ret (exitStatus r, snd r)
  | Undefined => Undefined
  | OutOfFuel => OutOfFuel
  end.

End WithHost.
End Ubvff1.

(** ** ubvff2.c: the split-stream (Type 2) decoder *)

Module Ubvff2.
Import C Reader.

Record BIN_HEADER_S := mkHeader {
  z1 : Z; cmdCount : Z; z2 : Z; x1 : Z; y1 : Z; x2 : Z; y2 : Z
}.
Record BIN_POINT := mkPoint { x : Z; y : Z }.
Record BIN_CUBIC := mkCubic { p0 : BIN_POINT; p1 : BIN_POINT; p2 : BIN_POINT }.
Record BIN_COLOR := mkColor { cmd : Z; r : Z; g : Z; b : Z; z : Z }.
Record BIN_FOOTER := mkFooter {
  fcmd : Z; pfilenum : Z; fz1 : Z; fz2 : Z; fz3 : Z
}.

Definition scaleFactor : Z := 0x10000.

Inductive SVGDUMP_STATE :=
| DUMPSTATE_BEGIN
| DUMPSTATE_AFTER_HEADER
| DUMPSTATE_AFTER_START_PATH
| DUMPSTATE_AFTER_LINE
| DUMPSTATE_AFTER_CLOSE_PATH
| DUMPSTATE_AFTER_END_PATH
| DUMPSTATE_AFTER_FOOTER.

Definition state_eqb (a b : SVGDUMP_STATE) : bool :=
  match a, b with
  | DUMPSTATE_BEGIN, DUMPSTATE_BEGIN
  | DUMPSTATE_AFTER_HEADER, DUMPSTATE_AFTER_HEADER
  | DUMPSTATE_AFTER_START_PATH, DUMPSTATE_AFTER_START_PATH
  | DUMPSTATE_AFTER_LINE, DUMPSTATE_AFTER_LINE
  | DUMPSTATE_AFTER_CLOSE_PATH, DUMPSTATE_AFTER_CLOSE_PATH
  | DUMPSTATE_AFTER_END_PATH, DUMPSTATE_AFTER_END_PATH
  | DUMPSTATE_AFTER_FOOTER, DUMPSTATE_AFTER_FOOTER => true
  | _, _ => false
  end.

Record emitter := mkEmitter {
  svgdump : bool;
  svgDumpState : SVGDUMP_STATE;
  fout : FILE
}.

Definition emit (text : list byte) (next : SVGDUMP_STATE) (e : emitter) : Z * emitter :=
  (0, mkEmitter (svgdump e) next (fwrite text (fout e))).

Definition header_line : list byte :=
  bytes "<svg viewBox=" ++ [x22] ++ bytes "VIEWBOX_PLACEHOLDER_1234" ++ [x22]
    ++ bytes " version=" ++ [x22] ++ bytes "1.1" ++ [x22]
    ++ bytes " baseProfile=" ++ [x22] ++ bytes "full" ++ [x22]
    ++ bytes " xmlns=" ++ [x22] ++ bytes "http://www.w3.org/2000/svg" ++ [x22]
    ++ bytes ">" ++ [x0a].

Definition dumpSVGSetViewbox (minx miny maxx maxy : Z) (e : emitter)
  : outcome (Z * emitter) :=
  if negb (svgdump e) then Ret (0, e)
  else
    let pos := ftell (fout e) in
    let f := fseek_set 13 (fout e) in
    let text := viewboxText (roundInt minx scaleFactor) (roundInt miny scaleFactor)
                            (roundInt maxx scaleFactor) (roundInt maxy scaleFactor) in
    if (30 <=? length text)%nat then Undefined
    else
      let buf := sprintfBuf text in
      let size1 := length text in
      let buf := rpad buf size1 in
      let f := fwrite (take 26 buf) f in
      let f := fseek_set pos f in
      Ret (0, mkEmitter (svgdump e) (svgDumpState e) f).

Section WithHost.
Context `{Host}.

Definition f6 (v : Z) : list byte := fmt_f6 v scaleFactor.

Definition dumpSVGHeader (header : BIN_HEADER_S) (e : emitter) : Z * emitter :=
  if negb (svgdump e) then (0, e)
  else if negb (state_eqb (svgDumpState e) DUMPSTATE_BEGIN) then (1, e)
  else emit header_line DUMPSTATE_AFTER_HEADER e.

Definition dumpSVGStartPath (p : BIN_POINT) (e : emitter) : Z * emitter :=
  if negb (svgdump e) then (0, e)
  else
    let coords := f6 (x p) ++ bytes " " ++ f6 (y p) ++ bytes " " in
    if state_eqb (svgDumpState e) DUMPSTATE_AFTER_CLOSE_PATH
       || state_eqb (svgDumpState e) DUMPSTATE_AFTER_LINE
    then emit (bytes "M " ++ coords) DUMPSTATE_AFTER_START_PATH e
    else if negb (state_eqb (svgDumpState e) DUMPSTATE_AFTER_HEADER)
            && negb (state_eqb (svgDumpState e) DUMPSTATE_AFTER_END_PATH)
    then (1, e)
    else emit (bytes "<path d=" ++ [x22] ++ bytes "M " ++ coords)
              DUMPSTATE_AFTER_START_PATH e.

Definition cubicText (c : BIN_CUBIC) : list byte :=
  bytes "C " ++ f6 (x (p0 c)) ++ bytes " " ++ f6 (y (p0 c)) ++ bytes ", "
    ++ f6 (x (p1 c)) ++ bytes " " ++ f6 (y (p1 c)) ++ bytes ", "
    ++ f6 (x (p2 c)) ++ bytes " " ++ f6 (y (p2 c)) ++ bytes " ".

Definition dumpSVGCubic (c : BIN_CUBIC) (e : emitter) : Z * emitter :=
  if negb (svgdump e) then (0, e)
  else if negb (state_eqb (svgDumpState e) DUMPSTATE_AFTER_START_PATH)
          && negb (state_eqb (svgDumpState e) DUMPSTATE_AFTER_LINE) then (1, e)
  else emit (cubicText c) DUMPSTATE_AFTER_LINE e.

Definition dumpSVGLine (p : BIN_POINT) (e : emitter) : Z * emitter :=
  if negb (svgdump e) then (0, e)
  else if negb (state_eqb (svgDumpState e) DUMPSTATE_AFTER_START_PATH)
          && negb (state_eqb (svgDumpState e) DUMPSTATE_AFTER_LINE) then (1, e)
  else emit (bytes "L " ++ f6 (x p) ++ bytes " " ++ f6 (y p) ++ bytes " ")
            DUMPSTATE_AFTER_LINE e.

Definition dumpSVGClosePath (e : emitter) : Z * emitter :=
  if negb (svgdump e) then (0, e)
  else if negb (state_eqb (svgDumpState e) DUMPSTATE_AFTER_LINE)
          && negb (state_eqb (svgDumpState e) DUMPSTATE_AFTER_START_PATH) then (1, e)
  else emit (bytes "Z ") DUMPSTATE_AFTER_CLOSE_PATH e.

Definition fillText (hasFill : bool) (fillColor : BIN_COLOR) : list byte :=
  if hasFill
  then bytes "fill=" ++ [x22] ++ bytes "rgb(" ++ fmt_i (r fillColor) ++ bytes ","
         ++ fmt_i (g fillColor) ++ bytes "," ++ fmt_i (b fillColor) ++ bytes ")"
         ++ [x22] ++ bytes " "
  else bytes "fill=" ++ [x22] ++ bytes "none" ++ [x22] ++ bytes " ".

Definition strokeText (hasStroke : bool) (strokeWidth : Z) (strokeColor : BIN_COLOR)
  : list byte :=
  if hasStroke
  then bytes "stroke=" ++ [x22] ++ bytes "rgb(" ++ fmt_i (r strokeColor) ++ bytes ","
         ++ fmt_i (g strokeColor) ++ bytes "," ++ fmt_i (b strokeColor) ++ bytes ")"
         ++ [x22] ++ bytes " stroke-width=" ++ [x22] ++ f6 strokeWidth ++ [x22]
         ++ bytes " stroke-linecap=" ++ [x22] ++ bytes "butt" ++ [x22]
         ++ bytes " stroke-linejoin=" ++ [x22] ++ bytes "miter" ++ [x22]
         ++ bytes " stroke-miterlimit=" ++ [x22] ++ bytes "10" ++ [x22] ++ bytes " "
  else bytes "stroke=" ++ [x22] ++ bytes "none" ++ [x22] ++ bytes " ".

(** [strokeWidth] arrives as an [int32_t] argument. *)
Definition dumpSVGEndPath (hasFill : bool) (fillColor : BIN_COLOR) (hasStroke : bool)
           (strokeWidth : Z) (strokeColor : BIN_COLOR) (e : emitter) : Z * emitter :=
  if negb (svgdump e) then (0, e)
  else if negb (state_eqb (svgDumpState e) DUMPSTATE_AFTER_LINE)
          && negb (state_eqb (svgDumpState e) DUMPSTATE_AFTER_CLOSE_PATH) then (1, e)
  else emit ([x22] ++ bytes " " ++ fillText hasFill fillColor
               ++ strokeText hasStroke (int32 strokeWidth) strokeColor
               ++ bytes "/>" ++ [x0a])
            DUMPSTATE_AFTER_END_PATH e.

Definition dumpSVGFooter (e : emitter) : Z * emitter :=
  if negb (svgdump e) then (0, e)
  else if negb (state_eqb (svgDumpState e) DUMPSTATE_AFTER_END_PATH) then (1, e)
  else emit (bytes "</svg>" ++ [x0a]) DUMPSTATE_AFTER_FOOTER e.

(** The state of [main]: what is left of the command file ([fin1]) and
    of the points file ([fin2]), the emitter, the viewport globals that
    [bo_fread] updates, and the locals of [main]. *)
Record decoder := mkDecoder {
  fin1 : list byte;
  fin2 : list byte;
  em : emitter;
  view : Z * Z * Z * Z; (* viewMinX, viewMinY, viewMaxX, viewMaxY *)
  fillColor : BIN_COLOR;
  strokeColor : BIN_COLOR;
  strokeWidth : Z;
  strokeFlagA : Z;
  strokeFlagB : Z;
  hasStroke : bool;
  hasFill : bool;
  cmdCounter : Z
}.

Definition with_fin1 (f : list byte) (d : decoder) : decoder :=
  mkDecoder f (fin2 d) (em d) (view d) (fillColor d) (strokeColor d) (strokeWidth d)
            (strokeFlagA d) (strokeFlagB d) (hasStroke d) (hasFill d) (cmdCounter d).

Definition with_fin2 (f : list byte) (v : Z * Z * Z * Z) (d : decoder) : decoder :=
  mkDecoder (fin1 d) f (em d) v (fillColor d) (strokeColor d) (strokeWidth d)
            (strokeFlagA d) (strokeFlagB d) (hasStroke d) (hasFill d) (cmdCounter d).

Definition with_em (e : emitter) (d : decoder) : decoder :=
  mkDecoder (fin1 d) (fin2 d) e (view d) (fillColor d) (strokeColor d) (strokeWidth d)
            (strokeFlagA d) (strokeFlagB d) (hasStroke d) (hasFill d) (cmdCounter d).

Definition with_colors (fc sc : BIN_COLOR) (d : decoder) : decoder :=
  mkDecoder (fin1 d) (fin2 d) (em d) (view d) fc sc (strokeWidth d)
            (strokeFlagA d) (strokeFlagB d) (hasStroke d) (hasFill d) (cmdCounter d).

Definition with_stroke (w fa fb : Z) (d : decoder) : decoder :=
  mkDecoder (fin1 d) (fin2 d) (em d) (view d) (fillColor d) (strokeColor d) w
            fa fb (hasStroke d) (hasFill d) (cmdCounter d).

Definition with_flags (hs hf : bool) (d : decoder) : decoder :=
  mkDecoder (fin1 d) (fin2 d) (em d) (view d) (fillColor d) (strokeColor d) (strokeWidth d)
            (strokeFlagA d) (strokeFlagB d) hs hf (cmdCounter d).

Definition with_counter (c : Z) (d : decoder) : decoder :=
  mkDecoder (fin1 d) (fin2 d) (em d) (view d) (fillColor d) (strokeColor d) (strokeWidth d)
            (strokeFlagA d) (strokeFlagB d) (hasStroke d) (hasFill d) c.

(** The analysis of the points at the end of [bo_fread]: item [i] of a
    read is an X value when [i] is even, a Y value otherwise. *)
Definition foldView (i : nat) (v : Z) (vw : Z * Z * Z * Z) : Z * Z * Z * Z :=
  let '(minX, minY, maxX, maxY) := vw in
  if Nat.even i then
    if v >? maxX then (minX, minY, v, maxY)
    else if v <? minX then (v, minY, maxX, maxY)
    else vw
  else
    if v >? maxY then (minX, minY, maxX, v)
    else if v <? minY then (minX, v, maxX, maxY)
    else vw.

Fixpoint foldViews (i : nat) (vs : list Z) (vw : Z * Z * Z * Z) : Z * Z * Z * Z :=
  match vs with
  | [] => vw
  | v :: rest => foldViews (S i) rest (foldView i v vw)
  end.

(** [bo_fread(ptr, 4, count, fin2)]: the items as [int32_t] values. *)
Definition bo_fread_points (count : nat) (d : decoder) : option (list Z * decoder) :=
  match readN read32_mixed count (fin2 d) with
  | Some (ws, rest) =>
      let vs := int32 <$> ws in
      Some (vs, with_fin2 rest (foldViews 0 vs (view d)) d)
  | None => None
  end.

Fixpoint points_of (vs : list Z) : list BIN_POINT :=
  match vs with
  | px :: py :: rest => mkPoint px py :: points_of rest
  | _ => []
  end.

Fixpoint cubics_of (ps : list BIN_POINT) : list BIN_CUBIC :=
  match ps with
  | a :: b' :: c :: rest => mkCubic a b' c :: cubics_of rest
  | _ => []
  end.

(** The loop of POINTS_LINES over the points read. *)
Fixpoint lineLoop (ps : list BIN_POINT) (e : emitter) : emitter :=
  match ps with
  | [] => e
  | p :: rest =>
      let '(rc, e') := dumpSVGLine p e in
      if rc =? 0 then lineLoop rest e' else e'
  end.

(** The loop of POINTS_CUBICS over the [pTotal/3] cubics read. *)
Fixpoint cubicLoop (cs : list BIN_CUBIC) (e : emitter) : emitter :=
  match cs with
  | [] => e
  | c :: rest =>
      let '(rc, e') := dumpSVGCubic c e in
      if rc =? 0 then cubicLoop rest e' else e'
  end.

(** The output after the segments of the cubics [cs] are written to it. *)
Definition writeCubics (cs : list BIN_CUBIC) (fo : FILE) : FILE :=
  foldl (λ fo c, fwrite (cubicText c) fo) fo cs.

Inductive flow :=
| Continue (d : decoder)
| Break (d : decoder)
| Crash.

(** [strokeWidth = (cmdw.words[2] << 16) & cmdw.words[1]]: the words are
    promoted to [int] (the shift of a word from 0x8000 on goes into the sign
    bit: the wrap-around of [int32]), the result is stored in a [uint32_t]. *)
Definition strokeWidthOf (w1 w2 : Z) : Z :=
  uint32 (Z.land (int32 (Z.shiftl w2 16)) w1).

(** One round of the main loop of [main], without the [cmdCounter++] of
    the [for] statement. *)
Definition step (d : decoder) : flow :=
  match readN read16 5 (fin1 d) with
  | Some ([cmd; w1; w2; w3; w4], rest) =>
      let d := with_fin1 rest d in
      if cmd =? 0x01 then
        let e := snd (dumpSVGFooter (em d)) in
        let '(minX, minY, maxX, maxY) := view d in
        match dumpSVGSetViewbox minX minY maxX maxY e with
        | Ret (_, e) => Break (with_counter (uint16 (cmdCounter d + 1)) (with_em e d))
        | _ => Crash
        end
      else if cmd =? 0x02 then
        if negb (w1 =? 1) then Break d
        else
          match bo_fread_points 2 d with
          | Some ([px; py], d) =>
              let '(rc, e) := dumpSVGStartPath (mkPoint px py) (em d) in
              if rc =? 0 then Continue (with_em e d) else Break (with_em e d)
          | _ => Break (with_fin2 [] (view d) d)
          end
      else if cmd =? 0x03 then
        let pTotal := w1 in
        if pTotal =? 0 then Break d
        else
          match bo_fread_points (Z.to_nat (pTotal * 2)) d with
          | Some (vs, d) =>
              Continue (with_em (lineLoop (take (Z.to_nat pTotal) (points_of vs)) (em d)) d)
          | None => Break (with_fin2 [] (view d) d)
          end
      else if cmd =? 0x04 then
        let pTotal := w1 in
        if negb (Z.rem pTotal 3 =? 0) || (pTotal =? 0) then Break d
        else
          match bo_fread_points (Z.to_nat (pTotal * 2)) d with
          | Some (vs, d) =>
              Continue (with_em (cubicLoop (take (Z.to_nat (pTotal / 3))
                                                 (cubics_of (points_of vs))) (em d)) d)
          | None => Break (with_fin2 [] (view d) d)
          end
      else if cmd =? 0x05 then
        Continue (with_colors (fillColor d) (mkColor cmd w1 w2 w3 w4) d)
      else if cmd =? 0x06 then
        Continue (with_colors (mkColor cmd w1 w2 w3 w4) (strokeColor d) d)
      else if cmd =? 0x07 then
        if w1 =? 0x01 then
          Continue (with_flags false true (with_em (snd (dumpSVGClosePath (em d))) d))
        else if w1 =? 0x00 then Continue (with_flags true (hasFill d) d)
        else if w1 =? 0x02 then
          Continue (with_em (snd (dumpSVGEndPath (hasFill d) (fillColor d) (hasStroke d)
                                                 (strokeWidth d) (strokeColor d) (em d))) d)
        else if w1 =? 0x03 then Continue (with_flags (hasStroke d) false d)
        else if w1 =? 0x04 then Continue d
        else if w1 =? 0x05 then Continue d
        else Break d
      else if cmd =? 0x08 then
        Continue (with_stroke (strokeWidth d) w1 (strokeFlagB d) d)
      else if cmd =? 0x09 then
        Continue (with_stroke (strokeWidth d) (strokeFlagA d) w1 d)
      else if cmd =? 0x0A then
        Continue (with_stroke (strokeWidthOf w1 w2) (strokeFlagA d) (strokeFlagB d) d)
      else Continue d
  | _ => Break (with_fin1 [] d)
  end.

(** [for(cmdCounter = 1; cmdCounter < cmdCount; cmdCounter++)]: [n] is
    the number of rounds left, [cmdCount - cmdCounter]. *)
Fixpoint cmdLoop (n : nat) (d : decoder) : option decoder :=
  match n with
  | O => Some d
  | S n' =>
      match step d with
      | Continue d' => cmdLoop n' (with_counter (uint16 (cmdCounter d' + 1)) d')
      | Break d' => Some d'
      | Crash => None
      end
  end.

(** What [main] finds in its uninitialised locals. *)
Record locals := mkLocals {
  fillColor0 : BIN_COLOR;
  strokeColor0 : BIN_COLOR;
  hasStroke0 : bool;
  hasFill0 : bool
}.

(** How [main] ends: [Rejected msg] is [printError(msg); return 1] before
    the command loop; [Finished code d] is the return after the loop. *)
Inductive result :=
| Rejected (msg : string)
| Finished (code : Z) (d : decoder)
| Crashed.

Definition readHeader (f : list byte) : option BIN_HEADER_S :=
  match readN read16 7 f with
  | Some ([a0; a1; a2; a3; a4; a5; a6], _) => Some (mkHeader a0 a1 a2 a3 a4 a5 a6)
  | _ => None
  end.

(** [fseek(fin1,-10,SEEK_END)] and the read of the footer. *)
Definition readFooter (cmdFile : list byte) : option BIN_FOOTER :=
  match readN read16 5 (drop (length cmdFile - 10) cmdFile) with
  | Some ([a0; a1; a2; a3; a4], _) => Some (mkFooter a0 a1 a2 a3 a4)
  | _ => None
  end.

(** The footer check of [main], true when the footer is refused. *)
Definition footerCheckFails (footer : BIN_FOOTER) : bool :=
  negb (fcmd footer =? 0x01) || negb (fz1 footer =? 0) || negb (fz2 footer =? 0)
  || negb (fz3 footer =? 0).

Definition exitStatus (cmdCount : Z) (d : decoder) : Z :=
  let error :=
    if svgdump (em d)
    then if state_eqb (svgDumpState (em d)) DUMPSTATE_AFTER_FOOTER then 0 else 1
    else 0 in
  if negb (cmdCounter d =? cmdCount) then 1 else error.

(** [main] after the command line is parsed: [dump] is [svgdump],
    [cmdFile] the bytes of the command file, [pointsFile n] the bytes of
    the points file [fopen] finds for the footer's file number [n]. *)
Definition main (dump : bool) (cmdFile : list byte)
           (pointsFile : Z → option (list byte)) (l : locals) : result :=
  match readHeader cmdFile with
  | None => Rejected "read failed (header)"
  | Some header =>
      if cmdCount header <=? 0x0A
      then Rejected "not a valid command file (header check failed)"
      else
        match readFooter cmdFile with
        | None => Rejected "read failed (footer)"
        | Some footer =>
            if footerCheckFails footer
            then Rejected "not a valid command file (footer check failed)"
            else
              match pointsFile (pfilenum footer) with
              | None => Rejected "failed to open points input file: "
              | Some pts =>
                  match readN read16 2 pts with
                  | None => Rejected "read failed (pointsFile)"
                  | Some _ =>
                      let e := mkEmitter dump DUMPSTATE_BEGIN fopen_w in
                      let e := snd (dumpSVGHeader header e) in
                      let d := mkDecoder (drop 14 cmdFile) (drop 4 pts) e
                                         (0, 0, 0x10000, 0x10000)
                                         (fillColor0 l) (strokeColor0 l) 0x10000 0 0
                                         (hasStroke0 l) (hasFill0 l) 1 in
                      match cmdLoop (Z.to_nat (cmdCount header - 1)) d with
                      | Some d => Finished (exitStatus (cmdCount header) d) d
                      | None => Crashed
                      end
                  end
              end
        end
  end.

End WithHost.
End Ubvff2.

(** ** The file names the three programs make up

    A file name is the list of the bytes of the C string, without its
    terminator. *)

Module Names.
Import C.

(** [isdigit] in the C locale (a [char] that is not a digit, a negative one
    included, gives 0 in the C libraries at hand). *)
Definition isdigit (b : byte) : bool := (48 <=? byteZ b) && (byteZ b <=? 57).

Definition bytes_eqb (a b : list byte) : bool :=
  (length a =? length b)%nat && forallb (λ p : byte * byte, Byte.eqb p.1 p.2) (zip a b).

(** [memcmp(s,"auto",5)==0] on a string [s]: the terminator is compared
    too. *)
Definition is_auto (s : list byte) : bool := bytes_eqb s (bytes "auto").

(** [for(i=(l-9); i<(l-4); i++) if(!isdigit(filename[i])) break;]: the
    value of [i] after the loop, started at [i] with [n] rounds to go. *)
Fixpoint digitRun (filename : list byte) (i n : nat) : nat :=
  match n with
  | O => i
  | S n' =>
      match filename !! i with
      | Some b => if isdigit b then digitRun filename (S i) n' else i
      | None => i
      end
  end.

(** The test of vecass.c and ubvff2.c for a name that ends in five digits
    and [.bin] (after at least one more character): the value of [done]. *)
Definition numbered (filename : list byte) : bool :=
  let l := length filename in
  (9 <? l)%nat
  && (digitRun filename (l - 9) 5 =? l - 4)%nat
  && bytes_eqb (drop (l - 4) filename) (bytes ".bin").

(** [prefix] as [main] of vecass.c leaves it. *)
Definition prefixOf (filename : list byte) : list byte :=
  if numbered filename then take (length filename - 9) filename else [].

(** [filename2] of ubvff2.c when it comes to [fopen]: [pointsFile] as given,
    or for [auto] the file of the footer's number, with the prefix of the
    command file when that one is numbered. *)
Definition pointsName (filename1 pointsFile : list byte) (pfilenum : Z) : list byte :=
  if is_auto pointsFile then
    if numbered filename1
    then take (length filename1 - 9) filename1 ++ fmt_05u pfilenum ++ bytes ".bin"
    else fmt_05u pfilenum ++ bytes ".bin"
  else pointsFile.

(** The loop of ubvff1.c and ubvff2.c over the last five characters of the
    name, from index [i] on: [dotPos], with [None] for -1. *)
Fixpoint dotScan (chars : list byte) (i : nat) (dotPos : option nat) : option nat :=
  match chars with
  | [] => dotPos
  | c :: rest =>
      if Byte.eqb c x2f || Byte.eqb c x5c then dotScan rest (S i) None
      else if Byte.eqb c x2e then dotScan rest (S i) (Some i)
      else dotScan rest (S i) dotPos
  end.

(** The [auto] name of the SVG file in ubvff1.c and ubvff2.c, for a buffer
    of 300 bytes; [None] is the error return of a name that is too long. *)
Definition autoSvgName (filename : list byte) : option (list byte) :=
  let s := length filename in
  let stem :=
    if (5 <? s)%nat then
      match dotScan (drop (s - 5) filename) (s - 5) None with
      | Some dotPos => take dotPos filename
      | None => filename
      end
    else filename in
  if (length stem + 5 <? 300)%nat then Some (stem ++ bytes ".svg") else None.

(** The global [svgfilename] of vecass.c at the start: 300 bytes. *)
Definition svgfilename0 : list byte := bytes "output.svg" ++ replicate 290 x00.

(** The string an array holds: the bytes before the first zero. *)
Fixpoint cstring (buf : list byte) : list byte :=
  match buf with
  | [] => []
  | b :: rest => if Byte.eqb b x00 then [] else b :: cstring rest
  end.

(** [memcpy(svgfilename,filename,l-4); strcat(svgfilename,".svg")] of
    vecass.c for a name of at most 255 characters: the string in
    [svgfilename] afterwards. *)
Definition swapExtension (filename : list byte) : list byte :=
  let l := length filename in
  let buf := take (l - 4) filename ++ drop (l - 4) svgfilename0 in
  cstring buf ++ bytes ".svg".

End Names.

(** ** vecass.c: [main] *)

Module VecassMain.
Import C Vecass Names.
Section WithFiles.
Context `{Host}.
Variable fs : list byte → option (list byte).

Definition usage : list byte :=
  bytes "vecass: Unknown Binary Vector File Format Type 2, assemble from layers" ++ [x0a; x0a]
    ++ bytes "usage: vecass cmdFile outputFile" ++ [x0a]
    ++ bytes "    cmdFile       File name of input file that contains vector assemble cmds."
    ++ [x0a]
    ++ bytes "    outputFile    File name for SVG output. Can be auto." ++ [x0a].

(** [main] on [argv] (with [argc] its length); the budget of 11 nested calls
    is what [processFile] can use from [depth] 0.  The result is the exit
    status with the globals; [svgname] is the name the output was or would
    have been opened under. *)
Definition svgname (filename outputFile : list byte) : option (list byte) :=
  if is_auto outputFile then
    let l := length filename in
    if (5 <? l)%nat && bytes_eqb (drop (l - 4) filename) (bytes ".bin")
    then Some (swapExtension filename)
    else None
  else Some (bytes "output.svg").

Definition main (argv : list (list byte)) : outcome (Z * state) :=
  match argv with
  | _ :: cmdFile :: outputFile :: _ =>
      if (255 <? length cmdFile)%nat
      then Ret (1, printf (bytes "error : cmdFile name too long" ++ [x0a]) init)
      else if (255 <? length outputFile)%nat
      then Ret (1, printf (bytes "error : outputFile name too long" ++ [x0a]) init)
      else
        match svgname cmdFile outputFile with
        | Some name => processFile fs (prefixOf cmdFile) name 11 cmdFile init
        | None =>
            Ret (1, printf (bytes "error : unable to create auto name for outputFile"
                              ++ [x0a]) init)
        end
  | _ => Ret (0, printf usage init)
  end.

End WithFiles.
End VecassMain.

(** ** Reference formulations used in the proofs *)

Module SortSpec.
Section Bubble.
Context {A : Type} (key : A → Z).

(** One pass of exchanges of neighbours over the first [S cnt] elements of a
    list, by recursion on the list. *)
Fixpoint bubble (cnt : nat) (l : list A) : list A :=
  match cnt, l with
  | S cnt', a :: b :: t =>
      if key a >? key b then b :: bubble cnt' (a :: t) else a :: bubble cnt' (b :: t)
  | _, _ => l
  end.

(** The passes for [reps], [reps - 1], ..., 1. *)
Fixpoint passes (reps : nat) (l : list A) : list A :=
  match reps with
  | O => l
  | S reps' => passes reps' (bubble reps l)
  end.

Definition key_le (a b : A) : Prop := key a ≤ key b.

End Bubble.

(** The key [sortDumpList] compares references by. *)
Definition refKey (dl : list Vecass.DUMPLIST) (r : nat) : Z := Vecass.layernum (dl !!! r).

End SortSpec.

(** What the proofs say about a run of the assembler. *)
Module VecassSpec.
Import Vecass.

(** The viewport of [st'] contains that of [st]. *)
Definition contains (st st' : state) : Prop :=
  viewMinX st' ≤ viewMinX st ∧ viewMinY st' ≤ viewMinY st
  ∧ viewMaxX st ≤ viewMaxX st' ∧ viewMaxY st ≤ viewMaxY st'.

(** The same, with [depth] and the history of [fopen] calls unchanged. *)
Definition widened (st st' : state) : Prop :=
  contains st st' ∧ depth st' = depth st ∧ opened st' = opened st.

(** Every command file was opened at a depth from 0 to 9. *)
Definition opens_below_max (st : state) : Prop :=
  Forall (λ o : list byte * Z, 0 ≤ o.2 < 10) (opened st).

(** How a call of [processFile] entered in [st] at a depth of at most 10
    ends: it does end, with a depth that is at least the one it was entered
    at and at most 10, with no file opened at depth 10 or deeper, and with a
    viewport that contains the one of [st]. *)
Definition ends_well (st : state) (res : outcome (Z * state)) : Prop :=
  match res with
  | Ret (_, st') => depth st ≤ depth st' ≤ 10 ∧ opens_below_max st' ∧ contains st st'
  | Undefined => True
  | OutOfFuel => False
  end.

(** The recursive calls made at a depth above [d0] end well. *)
Definition call_ok (d0 : Z) (call : list byte → state → outcome (Z * state)) : Prop :=
  ∀ name st, d0 < depth st ≤ 10 → opens_below_max st → ends_well st (call name st).

End VecassSpec.

(** ** Concrete inputs for the examples *)

Module Examples.
Import C.

(** A reader of one decimal integer with optional sign and leading blanks,
    standing in for [%i] on the example host. *)
Fixpoint digits (acc : Z) (seen : bool) (s : list byte) : option (Z * list byte) :=
  match s with
  | c :: rest =>
      if (48 <=? byteZ c) && (byteZ c <=? 57)
      then digits (10 * acc + (byteZ c - 48)) true rest
      else if seen then Some (acc, s) else None
  | [] => if seen then Some (acc, s) else None
  end.

Fixpoint scan_int (s : list byte) : option (Z * list byte) :=
  match s with
  | c :: rest =>
      if byteZ c =? 32 then scan_int rest
      else if byteZ c =? 45 then
        match digits 0 false rest with
        | Some (v, rest') => Some (- v, rest')
        | None => None
        end
      else digits 0 false s
  | [] => None
  end.

Definition scan_4i (s : list byte) : option (Z * Z * Z * Z) :=
  match scan_int s with
  | Some (a, s1) =>
      match scan_int s1 with
      | Some (b, s2) =>
          match scan_int s2 with
          | Some (c, s3) =>
              match scan_int s3 with
              | Some (d, _) => Some (a, b, c, d)
              | None => None
              end
          | None => None
          end
      | None => None
      end
  | None => None
  end.

(** A little-endian host with a signed [char]; [%.6f] is stood in for by
    the fraction written out as [x/scale]. *)
Definition host : Host :=
  {| littleEndian := true;
     charSigned := true;
     fmt_f6 := λ v scale, fmt_i v ++ bytes "/" ++ fmt_i scale;
     sscanf_4i := scan_4i |}.

(** The same host with an unsigned [char]. *)
Definition hostUnsignedChar : Host :=
  {| littleEndian := true;
     charSigned := false;
     fmt_f6 := λ v scale, fmt_i v ++ bytes "/" ++ fmt_i scale;
     sscanf_4i := scan_4i |}.

(** A dump list with five entries in use. *)
Definition fiveEntries : Vecass.state :=
  Vecass.set_dump
    ([Vecass.mkDL 1 5; Vecass.mkDL 2 3; Vecass.mkDL 3 5; Vecass.mkDL 4 1; Vecass.mkDL 5 3]
       ++ replicate 95 (Vecass.mkDL 0 0))
    5 Vecass.init.

Module Type1.
Import C Ubvff1.
(** A Type 1 decoder after a move, about to read CMD_08_CUBIC with a point
    count of 4: one cubic, and one more point that belongs to no cubic. *)
Definition cubicBlock : decoder :=
  mkDecoder ([x00; x00; x00; x08; x00; x00; x00; x04] ++ replicate 24 x01 ++ replicate 8 x02)
            (mkEmitter true DUMPSTATE_AFTER_START_PATH fopen_w)
            (mkHeader 0 0 0 0 0) (mkColor 0 0 0 0) (mkColor 0 0 0 0) 0x8000 (replicate 65 0).
Definition oneCubic : BIN_CUBIC :=
  mkCubic (mkPoint 16843009 16843009) (mkPoint 16843009 16843009) (mkPoint 16843009 16843009).
End Type1.

Module Type2.
Import C Ubvff2.
Definition locals0 : locals := mkLocals (mkColor 0 0 0 0 0) (mkColor 0 0 0 0 0) false false.

(** A Type 2 decoder about to read the command in [cmds], after a move. *)
Definition decoding (cmds pts : list byte) : decoder :=
  mkDecoder cmds pts (mkEmitter true DUMPSTATE_AFTER_START_PATH fopen_w)
            (0, 0, 0x10000, 0x10000) (mkColor 0 0 0 0 0) (mkColor 0 0 0 0 0)
            0x10000 0 0 false false 1.

(** POINTS_CUBICS with a point count of 4, and four points to read. *)
Definition cubics4 : decoder :=
  decoding [x00; x04; x00; x04; x00; x00; x00; x00; x00; x00] (replicate 32 x00).

(** POINTS_CUBICS with a point count of 3, and three points to read. *)
Definition cubics3 : decoder :=
  decoding [x00; x04; x00; x03; x00; x00; x00; x00; x00; x00] (replicate 24 x01).

(** STROKE_WIDTH with the parameter words 0x8000 and 1. *)
Definition strokeWidthCmd : decoder :=
  decoding [x00; x0a; x80; x00; x00; x01; x00; x00; x00; x00] [].

(** A command file of 11 commands by its header, with a footer of zeros,
    and one with the footer of END_FILE for the points file 52. *)
Definition header11 : list byte :=
  [x00; x00; x00; x0b; x00; x00; x00; x00; x00; x00; x00; x00; x00; x00].
Definition zeroFooterFile : list byte := header11 ++ replicate 10 x00.
Definition endFooterFile : list byte :=
  header11 ++ [x00; x01; x00; x34; x00; x00; x00; x00; x00; x00].
End Type2.

Module Assembler.
Import C Vecass.

Definition name_is (s : string) (name : list byte) : bool :=
  String.eqb (string_of_list_byte name) s.

(** A group file whose one command includes file 1. *)
Definition selfInclude : list byte :=
  [x00; x00; x00; x04; x00; x00; x00; x00; x00; x00; x00; x00]
    ++ replicate 12 x00 ++ [x00; x03; x00; x01].

(** A directory where this file is 00001.bin: it includes itself. *)
Definition cyclicFiles (name : list byte) : option (list byte) :=
  if name_is "00001.bin" name then Some selfInclude else None.

(** A rendered fragment with the viewbox -5 -3 12 10. *)
Definition fragment7 : list byte :=
  bytes "<svg viewBox=" ++ [x22] ++ bytes "-5 -3 12 10" ++ [x22]
    ++ bytes "              version=" ++ [x22] ++ bytes "1.1" ++ [x22] ++ bytes ">" ++ [x0a]
    ++ bytes "<path/>" ++ [x0a] ++ bytes "</svg>" ++ [x0a].

Definition fragmentFiles (name : list byte) : option (list byte) :=
  if name_is "00007.svg" name then Some fragment7 else None.

(** A fragment with bounds of seven digits. *)
Definition wideFragment : list byte :=
  bytes "<svg viewBox=" ++ [x22] ++ bytes "-1000000 -1000000 1000000 1000000" ++ [x22]
    ++ bytes " version=" ++ [x22] ++ bytes "1.1" ++ [x22] ++ bytes ">" ++ [x0a]
    ++ bytes "<path/>" ++ [x0a] ++ bytes "</svg>" ++ [x0a].

Definition wideFiles (name : list byte) : option (list byte) :=
  if name_is "00007.svg" name then Some wideFragment else None.

(** The state in which [dumpFromList] finds the globals after a scan that
    met one reference, to layer 1 of file 7. *)
Definition oneFragment : state :=
  set_fout (Some (fwrite header_line fopen_w))
           (set_dump (<[0%nat := mkDL 7 1]> (dumpList init)) 1 init).

End Assembler.

End Examples.

(** What the proofs say about the output of the assembler. *)
Module AssemblySpec.
Import C Vecass.

(** The 26 bytes that replace the placeholder of the header line, for the
    viewport of [st]. *)
Definition viewboxField (st : state) : list byte :=
  take 26 (viewboxText (viewMinX st) (viewMinY st) (viewMaxX st) (viewMaxY st)
           ++ replicate 26 x20).

(** The output is under way: the header line and what was appended to it,
    the cursor at the end. *)
Definition open_out (st : state) : Prop :=
  ∃ fo body, fout st = Some fo ∧ fpos fo = length (contents fo)
             ∧ contents fo = header_line ++ body.

(** A call below the top level leaves the output alone and does not come
    back with a smaller [depth]. *)
Definition inner_ok (call : list byte → state → outcome (Z * state)) : Prop :=
  ∀ (name : list byte) (st : state), 1 ≤ depth st →
    match call name st with
    | Ret (_, st') => fout st' = fout st ∧ depth st ≤ depth st'
    | _ => True
    end.

End AssemblySpec.

(** ** What the decoders keep true of their output *)

Module Ubvff1Spec.
Import C Ubvff1.

(** How the header line of the Type 1 output starts. *)
Definition svg_open : list byte := bytes "<svg viewBox=" ++ [x22] ++ bytes "0 0 ".


(** A finished document. *)
Definition closed_doc (e : emitter) : Prop :=
  ∃ body,
    contents (fout e)
    = svg_open ++ body ++ bytes "</g>" ++ [x0a] ++ bytes "</svg>" ++ [x0a].

End Ubvff1Spec.

Module Ubvff2Spec.
Import C Ubvff2.

(** The four bounds of the viewport are [int32_t] values. *)
Definition int32_box (vw : Z * Z * Z * Z) : Prop :=
  let '(a, b, c, d) := vw in
  (-2147483648 ≤ a ≤ 2147483647) ∧ (-2147483648 ≤ b ≤ 2147483647)
  ∧ (-2147483648 ≤ c ≤ 2147483647) ∧ (-2147483648 ≤ d ≤ 2147483647).

(** The 26 bytes that replace the placeholder of the header line. *)
Definition viewboxField (vw : Z * Z * Z * Z) : list byte :=
  let '(a, b, c, d) := vw in
  take 26 (viewboxText (roundInt a scaleFactor) (roundInt b scaleFactor)
                       (roundInt c scaleFactor) (roundInt d scaleFactor)
           ++ replicate 26 x20).

(** An output under way: the header line and what was appended to it, the
    cursor at the end. *)
Definition open_doc (e : emitter) : Prop :=
  svgdump e = true
  ∧ svgDumpState e ≠ DUMPSTATE_BEGIN ∧ svgDumpState e ≠ DUMPSTATE_AFTER_FOOTER
  ∧ fpos (fout e) = length (contents (fout e))
  ∧ ∃ body, contents (fout e) = header_line ++ body.

(** A finished output for the viewport [vw]. *)
Definition closed_doc (vw : Z * Z * Z * Z) (e : emitter) : Prop :=
  ∃ body,
    contents (fout e)
    = bytes "<svg viewBox=" ++ viewboxField vw ++ drop 39 header_line
        ++ body ++ bytes "</svg>" ++ [x0a].

End Ubvff2Spec.

(** ** More concrete inputs *)

Module Samples.
Import C.

Module Type1.
Import Ubvff1.
Definition locals0 : locals :=
  mkLocals (mkHeader 0 0 0 0 0) (mkColor 0 0 0 0) (mkColor 0 0 0 0).


(** A Type 1 file with one empty layer whose name is the one character
    [c]. *)
Definition namedFile (c : byte) : list byte :=
  [x00; x00; x00; x03] ++ replicate 8 x00
    ++ [x00; x08; x00; x00; x00; x04; x00; x00; x00; x00; x00; x00]
    ++ [x00; x00; x00; x01; x00; x00; x00; x01; x00; x00; x00; c]
    ++ [x00; x00; x00; x02]
    ++ [x00; x00; x00; x15].
End Type1.

Module Type2.
Import Ubvff2.
(** A command file of 11 commands by its header: a move, a line to one
    point, close path, end path, five colour commands and END_FILE for the
    points file 52. *)
Definition pathCmds : list byte :=
  Examples.Type2.header11
    ++ [x00; x02; x00; x01; x00; x00; x00; x00; x00; x00]
    ++ [x00; x03; x00; x01; x00; x00; x00; x00; x00; x00]
    ++ [x00; x07; x00; x01; x00; x00; x00; x00; x00; x00]
    ++ [x00; x07; x00; x02; x00; x00; x00; x00; x00; x00]
    ++ concat (replicate 5 [x00; x05; x00; x10; x00; x20; x00; x30; x00; x00])
    ++ [x00; x01; x00; x34; x00; x00; x00; x00; x00; x00].

(** The two points (2, 3) and (-1, 5), each coordinate with its low half
    first. *)
Definition twoPoints : list byte :=
  [x00; x00; x00; x02; x00; x00; x00; x03; x00; x00; xff; xff; x00; x00; x00; x05].

(** Its points file: four bytes of header and the two points. *)
Definition pathPoints (n : Z) : option (list byte) :=
  if n =? 52 then Some ([x00; x00; x00; x00] ++ twoPoints) else None.
End Type2.

Module Assembler.
Import Vecass.

(** A group file of four commands by its header, whose one command includes
    file 2. *)
Definition groupFile : list byte :=
  [x00; x00; x00; x04] ++ replicate 8 x00 ++ replicate 12 x00 ++ [x00; x03; x00; x02] ++ [].

(** A plain include file for layer 1 of the fragment 7. *)
Definition leafFile : list byte :=
  [x00; x00; x00; x01; x00; x00; x00; x00; x00; x07; x00; x01] ++ [].

(** A directory with the group file as 00001.bin, the include file as
    00002.bin and the fragment 00007.svg; and one without the include file. *)
Definition files (name : list byte) : option (list byte) :=
  if Examples.Assembler.name_is "00001.bin" name then Some groupFile
  else if Examples.Assembler.name_is "00002.bin" name then Some leafFile
  else Examples.Assembler.fragmentFiles name.

Definition missingFiles (name : list byte) : option (list byte) :=
  if Examples.Assembler.name_is "00001.bin" name then Some groupFile else None.

(** A group file of thirteen commands by its header, with [n] commands that
    include file 2 and a last one that includes file 1. *)
Definition fanGroup (n : nat) : list byte :=
  [x00; x00; x00; x0d] ++ replicate 8 x00 ++ replicate 12 x00
    ++ concat (replicate n [x00; x03; x00; x02]) ++ [x00; x03; x00; x01].

(** A directory with this file as 00001.bin, so that it includes itself,
    the include file as 00002.bin and the fragment 00007.svg. *)
Definition fanFiles (n : nat) (name : list byte) : option (list byte) :=
  if Examples.Assembler.name_is "00001.bin" name then Some (fanGroup n)
  else if Examples.Assembler.name_is "00002.bin" name then Some leafFile
  else Examples.Assembler.fragmentFiles name.

(** The header line, the body and the closing line of the fragment. *)
Definition fragmentLine : list byte :=
  bytes "<svg viewBox=" ++ [x22] ++ bytes "-5 -3 12 10" ++ [x22]
    ++ bytes "              version=" ++ [x22] ++ bytes "1.1" ++ [x22] ++ bytes ">".
Definition fragmentBody : list byte := bytes "<path/>" ++ [x0a].
Definition fragmentTail : list byte := bytes "</svg>" ++ [x0a].
End Assembler.

End Samples.

(** * Properties *)

(** ** [roundInt] *)

Section RoundInt.
Import C.

(** From the divisor on, the rule of the comment holds: the quotient when
    the remainder is below a quarter of the divisor, one more otherwise. *)
Lemma roundInt_from_divisor (n d : Z) :
  0 < d → d ≤ n →
  roundInt n d = if n mod d <? d / 4 then n / d else n / d + 1.
Proof.
  intros Hd Hn. unfold roundInt.
  rewrite !Z.quot_div_nonneg, Z.rem_mod_nonneg by lia.
  destruct (n mod d <? d / 4); [reflexivity|].
  assert (1 ≤ n / d) by (apply Z.div_le_lower_bound; lia).
  destruct (Z.gtb_spec (n / d) 0); [reflexivity | lia].
Qed.

(** A negative number is truncated towards zero whatever its remainder. *)
Lemma roundInt_negative (n d : Z) :
  n < 0 → 4 ≤ d → roundInt n d = Z.quot n d.
Proof.
  intros Hn Hd. unfold roundInt.
  assert (Z.rem n d ≤ 0) by (apply Z.rem_nonpos; lia).
  assert (1 ≤ Z.quot d 4).
  { rewrite Z.quot_div_nonneg by lia. apply Z.div_le_lower_bound; lia. }
  destruct (Z.ltb_spec (Z.rem n d) (Z.quot d 4)); [reflexivity | lia].
Qed.

(** C1 (code of [roundInt] against its rule).  A positive number below the
    divisor whose remainder is at least a quarter of the divisor is not
    rounded up to 1: the quotient is 0, the test [l>0] fails, and the result
    is -1.  The boundary cases of the claim, remainder [d/4] and remainder
    [d-1], are among them. *)
Theorem roundInt_fraction_gives_minus_one (n d : Z) :
  0 < n → n < d → Z.quot d 4 ≤ n → roundInt n d = -1.
Proof.
  intros Hpos Hlt Hq. unfold roundInt.
  rewrite (Z.quot_small n d), (Z.rem_small n d) by lia.
  destruct (Z.ltb_spec n (Z.quot d 4)); [lia | reflexivity].
Qed.

Lemma roundInt_fraction_gives_minus_one_witness :
  (0 < 0x6000 ∧ 0x6000 < 0x8000 ∧ Z.quot 0x8000 4 ≤ 0x6000) ∧ roundInt 0x6000 0x8000 = -1.
Proof.
  split; [vm_compute; intuition discriminate|].
  apply (roundInt_fraction_gives_minus_one 0x6000 0x8000); vm_compute; congruence.
Defined.

End RoundInt.

(** ** The dump list: [addToDumpList] and [sortDumpList] *)

Section BubbleFacts.
Import SortSpec.
Context {A : Type} (key : A → Z).

Lemma bubble_length cnt (l : list A) : length (bubble key cnt l) = length l.
Proof.
  revert l; induction cnt as [|cnt IH]; intros [|a [|b t]]; simpl; auto.
  destruct (key a >? key b); simpl; rewrite IH; reflexivity.
Qed.

Lemma bubble_perm cnt (l : list A) : bubble key cnt l ≡ₚ l.
Proof.
  revert l; induction cnt as [|cnt IH]; intros [|a [|b t]]; simpl; auto.
  destruct (key a >? key b).
  - rewrite IH. apply Permutation_swap.
  - rewrite IH. reflexivity.
Qed.

Lemma bubble_filter cnt (l : list A) (k : Z) :
  filter (λ e, key e = k) (bubble key cnt l) = filter (λ e, key e = k) l.
Proof.
  revert l; induction cnt as [|cnt IH]; intros [|a [|b t]]; simpl; auto.
  destruct (key a >? key b) eqn:Hgt.
  - rewrite !filter_cons, IH, !filter_cons.
    apply Z.gtb_lt in Hgt.
    repeat case_decide; try reflexivity; lia.
  - rewrite !filter_cons, IH, !filter_cons. reflexivity.
Qed.

(** After a pass the largest key of the first [S cnt] elements is at index
    [cnt]; what comes after is not touched. *)
Lemma bubble_max cnt (l : list A) :
  (cnt < length l)%nat →
  ∃ ini m, bubble key cnt l = ini ++ m :: drop (S cnt) l
           ∧ length ini = cnt
           ∧ Forall (λ e, key e ≤ key m) ini
           ∧ ini ++ [m] ≡ₚ take (S cnt) l.
Proof.
  revert l; induction cnt as [|cnt IH]; intros l Hlen.
  - destruct l as [|a t]; simpl in Hlen; [lia|].
    exists [], a. simpl. rewrite drop_0, take_0. auto.
  - destruct l as [|a [|b t]]; simpl in Hlen; try lia.
    simpl bubble. destruct (key a >? key b) eqn:Hgt.
    + destruct (IH (a :: t)) as (ini & m & Heq & Hl & Hall & Hp); [simpl; lia|].
      exists (b :: ini), m. rewrite Heq. simpl.
      split; [reflexivity|]. split; [lia|]. split.
      * constructor; auto.
        assert (Ha : a ∈ ini ++ [m]) by (rewrite Hp; simpl; left).
        apply Z.gtb_lt in Hgt.
        apply elem_of_app in Ha as [Ha | Ha].
        -- rewrite Forall_forall in Hall. specialize (Hall a Ha). lia.
        -- apply list_elem_of_singleton in Ha as ->. lia.
      * rewrite Hp. simpl. apply Permutation_swap.
    + destruct (IH (b :: t)) as (ini & m & Heq & Hl & Hall & Hp); [simpl; lia|].
      exists (a :: ini), m. rewrite Heq. simpl.
      split; [reflexivity|]. split; [lia|]. split.
      * constructor; auto.
        assert (Hb : b ∈ ini ++ [m]) by (rewrite Hp; simpl; left).
        assert (key a ≤ key b) by (destruct (Z.gtb_spec (key a) (key b)); [discriminate | lia]).
        apply elem_of_app in Hb as [Hb | Hb].
        -- rewrite Forall_forall in Hall. specialize (Hall b Hb). lia.
        -- apply list_elem_of_singleton in Hb as ->. lia.
      * rewrite Hp. reflexivity.
Qed.

Lemma passes_perm reps (l : list A) : passes key reps l ≡ₚ l.
Proof.
  revert l; induction reps as [|reps IH]; intros l; [reflexivity|].
  cbn [passes]. rewrite IH. apply bubble_perm.
Qed.

Lemma passes_filter reps (l : list A) (k : Z) :
  filter (λ e, key e = k) (passes key reps l) = filter (λ e, key e = k) l.
Proof.
  revert l; induction reps as [|reps IH]; intros l; [reflexivity|].
  cbn [passes]. rewrite IH. apply bubble_filter.
Qed.

Lemma passes_sorted reps (pre suf : list A) :
  length pre = S reps →
  StronglySorted (key_le key) suf →
  Forall (λ a, Forall (key_le key a) suf) pre →
  StronglySorted (key_le key) (passes key reps (pre ++ suf)).
Proof.
  revert pre suf; induction reps as [|reps IH]; intros pre suf Hlen Hs Hps.
  - destruct pre as [|a [|? ?]]; simpl in Hlen; try lia.
    simpl. constructor; auto. inversion Hps; auto.
  - cbn [passes].
    destruct (bubble_max (S reps) (pre ++ suf)) as (ini & m & Heq & Hl & Hall & Hp).
    { rewrite length_app. lia. }
    assert (Hd : drop (S (S reps)) (pre ++ suf) = suf).
    { rewrite drop_app_length'; auto. }
    assert (Ht : take (S (S reps)) (pre ++ suf) = pre).
    { rewrite take_app_length'; auto. }
    rewrite Hd in Heq. rewrite Ht in Hp. rewrite Heq.
    change (ini ++ m :: suf) with (ini ++ (m :: suf)).
    assert (Hin : ∀ e, e ∈ ini ++ [m] → Forall (key_le key e) suf).
    { intros e He. rewrite Hp in He. rewrite Forall_forall in Hps. auto. }
    apply IH; auto.
    + constructor; auto. apply Hin. apply elem_of_app. right. constructor.
    + rewrite Forall_forall. intros e He. constructor.
      * rewrite Forall_forall in Hall. apply Hall; auto.
      * apply Hin. apply elem_of_app. left; auto.
Qed.

Lemma passes_all_sorted (l : list A) :
  StronglySorted (key_le key) (passes key (length l - 1) l).
Proof.
  destruct l as [|a t].
  - simpl. constructor.
  - replace (a :: t) with ((a :: t) ++ []) at 2 by apply app_nil_r.
    apply passes_sorted.
    + simpl. lia.
    + constructor.
    + rewrite Forall_forall. intros; constructor.
Qed.

End BubbleFacts.

Section SortDumpList.
Import C Vecass SortSpec.

Lemma swap_at {X} (l1 : list X) (a b : X) (t : list X) :
  <[S (length l1) := a]> (<[length l1 := b]> (l1 ++ a :: b :: t)) = l1 ++ b :: a :: t.
Proof. induction l1 as [|c l1 IH]; simpl; [reflexivity|]. f_equal. exact IH. Qed.

Lemma lookup_total_at `{Inhabited X} (l1 : list X) (a : X) (t : list X) :
  (l1 ++ a :: t) !!! length l1 = a.
Proof. induction l1 as [|c l1 IH]; simpl; auto. Qed.

Lemma lookup_total_next `{Inhabited X} (l1 : list X) (a b : X) (t : list X) :
  (l1 ++ a :: b :: t) !!! S (length l1) = b.
Proof. induction l1 as [|c l1 IH]; simpl; auto. Qed.

Variable dl : list DUMPLIST.

Lemma bubbleInner_bubble cnt : ∀ (l1 l2 : list nat) ch,
  (cnt < length l2)%nat →
  (bubbleInner dl (length l1) cnt (l1 ++ l2) ch).1 = l1 ++ bubble (refKey dl) cnt l2.
Proof.
  induction cnt as [|cnt IH]; intros l1 l2 ch Hlen.
  - destruct l2; reflexivity.
  - destruct l2 as [|a [|b t]]; simpl in Hlen; try lia.
    cbn [bubbleInner bubble].
    rewrite lookup_total_at, lookup_total_next. fold (refKey dl a) (refKey dl b).
    destruct (refKey dl a >? refKey dl b).
    + rewrite swap_at.
      replace (l1 ++ b :: a :: t) with ((l1 ++ [b]) ++ a :: t) by (rewrite <- app_assoc; reflexivity).
      replace (S (length l1)) with (length (l1 ++ [b])) by (rewrite length_app; simpl; lia).
      rewrite IH by (simpl; lia). rewrite <- app_assoc. reflexivity.
    + replace (l1 ++ a :: b :: t) with ((l1 ++ [a]) ++ b :: t) by (rewrite <- app_assoc; reflexivity).
      replace (S (length l1)) with (length (l1 ++ [a])) by (rewrite length_app; simpl; lia).
      rewrite IH by (simpl; lia). rewrite <- app_assoc. reflexivity.
Qed.

Lemma bubbleInner_changed cnt : ∀ i refs, (bubbleInner dl i cnt refs true).2 = true.
Proof.
  induction cnt as [|cnt IH]; intros i refs; [reflexivity|].
  cbn [bubbleInner]. destruct (_ >? _); apply IH.
Qed.

Lemma bubbleInner_unchanged cnt : ∀ i refs ch,
  (bubbleInner dl i cnt refs ch).2 = false → (bubbleInner dl i cnt refs ch).1 = refs.
Proof.
  induction cnt as [|cnt IH]; intros i refs ch; [reflexivity|].
  cbn [bubbleInner]. destruct (_ >? _).
  - rewrite bubbleInner_changed. discriminate.
  - apply IH.
Qed.

Lemma bubbleOuter_passes reps : ∀ refs ch,
  (reps < length refs)%nat →
  (bubbleOuter dl reps refs ch).1 = passes (refKey dl) reps refs.
Proof.
  induction reps as [|reps IH]; intros refs ch Hlen; [reflexivity|].
  cbn [bubbleOuter passes].
  pose proof (bubbleInner_bubble (S reps) [] refs ch Hlen) as Hb.
  simpl length in Hb. rewrite !app_nil_l in Hb.
  destruct (bubbleInner dl 0 (S reps) refs ch) as [refs' ch'].
  simpl in Hb. subst refs'. apply IH. rewrite bubble_length. lia.
Qed.

Lemma bubbleOuter_changed reps : ∀ refs, (bubbleOuter dl reps refs true).2 = true.
Proof.
  induction reps as [|reps IH]; intros refs; [reflexivity|].
  cbn [bubbleOuter].
  pose proof (bubbleInner_changed (S reps) 0 refs) as Hc.
  destruct (bubbleInner dl 0 (S reps) refs true) as [refs' ch']. simpl in Hc. subst. apply IH.
Qed.

Lemma bubbleOuter_unchanged reps : ∀ refs ch,
  (bubbleOuter dl reps refs ch).2 = false → (bubbleOuter dl reps refs ch).1 = refs.
Proof.
  induction reps as [|reps IH]; intros refs ch; [reflexivity|].
  cbn [bubbleOuter].
  pose proof (bubbleInner_unchanged (S reps) 0 refs ch) as Hu.
  pose proof (bubbleInner_changed (S reps) 0 refs) as Hc.
  destruct (bubbleInner dl 0 (S reps) refs ch) as [refs' ch'] eqn:E.
  simpl in Hu. intros Hf. destruct ch'.
  - rewrite bubbleOuter_changed in Hf. discriminate.
  - rewrite IH by exact Hf. auto.
Qed.

Lemma fmap_lookup_seq (n : nat) :
  (n ≤ length dl)%nat → (λ r, dl !!! r) <$> seq 0 n = take n dl.
Proof.
  intros Hn. apply list_eq. intros i.
  rewrite list_lookup_fmap. destruct (decide (i < n)%nat) as [Hi|Hi].
  - rewrite lookup_seq_lt by lia. simpl. rewrite lookup_take_lt by lia.
    symmetry. apply list_lookup_lookup_total_lt. lia.
  - rewrite lookup_seq_ge by lia. simpl. rewrite lookup_take_ge by lia. reflexivity.
Qed.

End SortDumpList.

Section DumpList.
Import C Vecass SortSpec.

Lemma filter_fmap_key {X Y} (f : X → Y) (key : Y → Z) (k : Z) (l : list X) :
  filter (λ e, key e = k) (f <$> l) = f <$> filter (λ r, key (f r) = k) l.
Proof.
  induction l as [|a l IH]; [reflexivity|].
  rewrite fmap_cons, !filter_cons, IH. case_decide; reflexivity.
Qed.

Lemma entries_sortDumpList (st : state) :
  (dumpListPos st ≤ length (dumpList st))%nat →
  dumpListPos (sortDumpList st) = dumpListPos st
  ∧ entries (sortDumpList st)
    = (λ r, dumpList st !!! r)
        <$> passes (refKey (dumpList st)) (dumpListPos st - 1) (seq 0 (dumpListPos st)).
Proof.
  intros Hpos. unfold sortDumpList.
  destruct (dumpListPos st <? 2)%nat eqn:Hlt.
  - split; [reflexivity|]. apply Nat.ltb_lt in Hlt.
    replace (dumpListPos st - 1)%nat with 0%nat by lia. cbn [passes].
    rewrite fmap_lookup_seq by exact Hpos. reflexivity.
  - apply Nat.ltb_ge in Hlt.
    pose proof (bubbleOuter_passes (dumpList st) (dumpListPos st - 1)
                  (seq 0 (dumpListPos st)) false) as Hp.
    pose proof (bubbleOuter_unchanged (dumpList st) (dumpListPos st - 1)
                  (seq 0 (dumpListPos st)) false) as Hu.
    destruct (bubbleOuter (dumpList st) (dumpListPos st - 1) (seq 0 (dumpListPos st)) false)
      as [refs changed].
    simpl in Hp, Hu. rewrite <- Hp by (rewrite length_seq; lia).
    assert (Hlen : length refs = dumpListPos st).
    { rewrite Hp by (rewrite length_seq; lia).
      rewrite (Permutation_length (passes_perm _ _ _)). apply length_seq. }
    destruct changed.
    + split; [reflexivity|]. unfold entries. simpl.
      rewrite take_app_length'; [reflexivity|]. rewrite length_fmap. symmetry; exact Hlen.
    + split; [reflexivity|]. rewrite Hu by reflexivity.
      rewrite fmap_lookup_seq by exact Hpos. reflexivity.
Qed.

(** C8.  [sortDumpList] keeps the number of entries and leaves them in
    nondecreasing order of layer number; for every layer number, the entries
    that carry it are the same and in the same order as before (the sort is
    stable), and the entries are a permutation of what they were. *)
Theorem sortDumpList_stable_sort (st : state) :
  (dumpListPos st ≤ length (dumpList st))%nat →
  dumpListPos (sortDumpList st) = dumpListPos st
  ∧ Sorted (λ a b, layernum a ≤ layernum b) (entries (sortDumpList st))
  ∧ (∀ k, filter (λ e, layernum e = k) (entries (sortDumpList st))
          = filter (λ e, layernum e = k) (entries st))
  ∧ entries (sortDumpList st) ≡ₚ entries st.
Proof.
  intros Hpos. destruct (entries_sortDumpList st Hpos) as [Hp He].
  split; [exact Hp|]. rewrite He. clear He Hp.
  assert (Hseq : (λ r, dumpList st !!! r) <$> seq 0 (dumpListPos st) = entries st)
    by (apply fmap_lookup_seq; exact Hpos).
  split; [|split].
  - apply StronglySorted_Sorted.
    pose proof (passes_all_sorted (refKey (dumpList st)) (seq 0 (dumpListPos st))) as Hs.
    rewrite length_seq in Hs.
    revert Hs. generalize (passes (refKey (dumpList st)) (dumpListPos st - 1)
                                  (seq 0 (dumpListPos st))).
    intros l Hs. induction Hs as [|a l Hs IH Hall]; simpl; constructor; auto.
    rewrite Forall_fmap. eapply Forall_impl; [exact Hall|]. intros b Hb. exact Hb.
  - intros k.
    rewrite (filter_fmap_key (λ r, dumpList st !!! r) layernum).
    change (λ r, layernum (dumpList st !!! r) = k) with (λ r, refKey (dumpList st) r = k).
    rewrite passes_filter.
    change (λ r, refKey (dumpList st) r = k) with (λ r, layernum (dumpList st !!! r) = k).
    rewrite <- (filter_fmap_key (λ r, dumpList st !!! r) layernum). rewrite Hseq. reflexivity.
  - rewrite <- Hseq. apply fmap_Permutation. apply passes_perm.
Qed.

Lemma sortDumpList_stable_sort_witness :
  (dumpListPos Examples.fiveEntries ≤ length (dumpList Examples.fiveEntries))%nat
  ∧ (filenum <$> entries (sortDumpList Examples.fiveEntries)) = [4; 2; 5; 1; 3]
  ∧ Sorted (λ a b, layernum a ≤ layernum b) (entries (sortDumpList Examples.fiveEntries)).
Proof.
  split; [vm_compute; lia|]. split; [vm_compute; reflexivity|].
  apply (sortDumpList_stable_sort Examples.fiveEntries). vm_compute; lia.
Defined.

(** C2 as it is claimed fails: a reference to a file that is already in the
    list is stored again.  File 1 is in the list of the example; after
    [addToDumpList 1 7] it is there twice. *)
Lemma addToDumpList_keeps_duplicates :
  (filenum <$> entries Examples.fiveEntries) = [1; 2; 3; 4; 5]
  ∧ match addToDumpList 1 7 Examples.fiveEntries with
    | Ret (_, st') => (filenum <$> entries st') = [1; 2; 3; 4; 5; 1]
    | _ => False
    end.
Proof. split; vm_compute; reflexivity. Qed.

(** C2, amended.  While the list has room, [addToDumpList] stores the pair
    as a new last entry, whatever the list holds: the entries in use grow by
    exactly this one and what was there is kept. *)
Theorem addToDumpList_appends (fnum lnum : Z) (st : state) :
  (dumpListPos st < MAX_DUMPLIST)%nat →
  length (dumpList st) = MAX_DUMPLIST →
  ∃ st', addToDumpList fnum lnum st = Ret (1, st')
         ∧ entries st' = entries st ++ [mkDL fnum lnum]
         ∧ dumpListPos st' = S (dumpListPos st)
         ∧ length (dumpList st') = MAX_DUMPLIST.
Proof.
  intros Hpos Hlen. unfold addToDumpList.
  apply Nat.ltb_lt in Hpos as Hb. rewrite Hb.
  set (st1 := set_dump _ _ st).
  assert (He : entries st1 = entries st ++ [mkDL fnum lnum]).
  { unfold entries, st1. simpl.
    rewrite (take_S_r _ _ (mkDL fnum lnum)).
    - rewrite take_insert_ge by lia. reflexivity.
    - apply list_lookup_insert_eq. lia. }
  assert (Hl : length (dumpList st1) = MAX_DUMPLIST).
  { unfold st1. simpl. rewrite length_insert. exact Hlen. }
  destruct (MAX_DUMPLIST <=? dumpListPos st1)%nat.
  - eexists. split; [reflexivity|]. auto.
  - eexists. split; [reflexivity|]. auto.
Qed.

Lemma addToDumpList_appends_witness :
  ((dumpListPos Examples.fiveEntries < MAX_DUMPLIST)%nat
   ∧ length (dumpList Examples.fiveEntries) = MAX_DUMPLIST)
  ∧ ∃ st', addToDumpList 1 7 Examples.fiveEntries = Ret (1, st')
           ∧ entries st' = entries Examples.fiveEntries ++ [mkDL 1 7]
           ∧ dumpListPos st' = S (dumpListPos Examples.fiveEntries)
           ∧ length (dumpList st') = MAX_DUMPLIST.
Proof.
  split; [vm_compute; split; [lia | reflexivity]|].
  apply (addToDumpList_appends 1 7 Examples.fiveEntries); vm_compute; [lia | reflexivity].
Defined.

(** Past the capacity the store is outside the array. *)
Lemma addToDumpList_full (fnum lnum : Z) (st : state) :
  (MAX_DUMPLIST ≤ dumpListPos st)%nat → addToDumpList fnum lnum st = Undefined.
Proof.
  intros Hpos. unfold addToDumpList.
  destruct (Nat.ltb_spec (dumpListPos st) MAX_DUMPLIST); [lia | reflexivity].
Qed.

End DumpList.

(** ** The decoders: words, emitter states, commands *)


Section Words.
Import C Reader.
Context `{Host}.

Lemma byteZ_range (b : byte) : 0 ≤ byteZ b < 256.
Proof. unfold byteZ. pose proof (Byte.to_N_bounded b). lia. Qed.

Lemma lor_range (n a b : Z) :
  0 ≤ a < 2 ^ n → 0 ≤ b < 2 ^ n → 0 ≤ Z.lor a b < 2 ^ n.
Proof.
  intros Ha Hb. split; [apply Z.lor_nonneg; lia|].
  destruct (Z.eq_dec a 0) as [->|Hna]; [rewrite Z.lor_0_l; lia|].
  destruct (Z.eq_dec b 0) as [->|Hnb]; [rewrite Z.lor_0_r; lia|].
  assert (0 < Z.lor a b).
  { pose proof (proj2 (Z.lor_nonneg a b)) as Hn.
    destruct (Z.eq_dec (Z.lor a b) 0) as [E|E]; [|lia].
    apply Z.lor_eq_0_iff in E. lia. }
  apply Z.log2_lt_pow2; [lia|].
  rewrite Z.log2_lor by lia.
  apply Z.max_lub_lt; apply Z.log2_lt_pow2; lia.
Qed.

Lemma bo_read16_range (b0 b1 : byte) : 0 ≤ bo_read16 b0 b1 < 65536.
Proof.
  pose proof (byteZ_range b0). pose proof (byteZ_range b1).
  unfold bo_read16, load16. destruct littleEndian; [|lia].
  unfold reverseByteOrder2, uint16, wrapu.
  apply (lor_range 16).
  - apply Z.mod_pos_bound. lia.
  - rewrite Z.shiftr_land. change (Z.shiftr 0xFF00 8) with (Z.ones 8).
    rewrite Z.land_ones by lia.
    pose proof (Z.mod_pos_bound (Z.shiftr (byteZ b0 + 256 * byteZ b1) 8) (2 ^ 8)).
    lia.
Qed.

Lemma readN_read16_range (n : nat) : ∀ f ws rest,
  readN read16 n f = Some (ws, rest) → Forall (λ w, 0 ≤ w < 65536) ws.
Proof.
  induction n as [|n IH]; intros f ws rest; simpl.
  - intros [= <- <-]. constructor.
  - destruct f as [|b0 [|b1 f']]; simpl; try discriminate.
    destruct (readN read16 n f') as [[ws' rest']|] eqn:E; [|discriminate].
    intros [= <- <-]. constructor; [apply bo_read16_range | eapply IH; eauto].
Qed.

Lemma land_low_zero (a w : Z) : a mod 65536 = 0 → 0 ≤ w < 65536 → Z.land a w = 0.
Proof.
  intros Ha Hw. apply Z.bits_inj'. intros n Hn.
  rewrite Z.land_spec, Z.bits_0.
  destruct (Z.lt_ge_cases n 16) as [Hlt|Hge].
  - replace (Z.testbit a n) with (Z.testbit (a mod 2 ^ 16) n)
      by (apply Z.mod_pow2_bits_low; lia).
    change (2 ^ 16) with 65536. rewrite Ha, Z.bits_0. reflexivity.
  - replace (Z.testbit w n) with (Z.testbit (w mod 2 ^ 16) n)
      by (f_equal; apply Z.mod_small; change (2 ^ 16) with 65536; lia).
    rewrite Z.mod_pow2_bits_high by lia. apply andb_false_r.
Qed.

End Words.

Section StrokeWidth.
Import C Reader Ubvff2.
Context `{Host}.

(** The two operands have no bit in common, so the value is always 0. *)
Lemma strokeWidthOf_and (w1 w2 : Z) :
  0 ≤ w1 < 65536 →
  strokeWidthOf w1 w2 = Z.land (Z.shiftl w2 16) w1 ∧ strokeWidthOf w1 w2 = 0.
Proof.
  intros Hw1. unfold strokeWidthOf.
  assert (H1 : Z.land (Z.shiftl w2 16) w1 = 0).
  { apply land_low_zero; [|exact Hw1]. rewrite Z.shiftl_mul_pow2 by lia.
    change (2 ^ 16) with 65536. apply Z.mod_mul. lia. }
  assert (H2 : Z.land (int32 (Z.shiftl w2 16)) w1 = 0).
  { apply land_low_zero; [|exact Hw1]. rewrite Z.shiftl_mul_pow2 by lia.
    unfold int32, wraps. change (2 ^ 16) with 65536. change (2 ^ 32) with 4294967296.
    change (2 ^ (32 - 1)) with 2147483648.
    pose proof (Z.div_mod (w2 * 65536) 4294967296 ltac:(lia)) as Hdm.
    set (q := w2 * 65536 / 4294967296) in *.
    set (u := (w2 * 65536) mod 4294967296) in *.
    destruct (u <? 2147483648).
    - replace u with ((w2 - 65536 * q) * 65536) by lia. apply Z.mod_mul. lia.
    - replace (u - 4294967296) with ((w2 - 65536 * q - 65536) * 65536) by lia.
      apply Z.mod_mul. lia. }
  rewrite H1, H2. split; reflexivity.
Qed.

(** C5.  A STROKE_WIDTH command (opcode 0x0A) with the parameter words
    [w1], [w2] sets the stroke width to [(w2 << 16) & w1]. *)
Theorem stroke_width_is_bitwise_and (d : decoder) (w1 w2 w3 w4 : Z) (rest : list byte) :
  readN read16 5 (fin1 d) = Some ([0x0A; w1; w2; w3; w4], rest) →
  ∃ d', step d = Continue d'
        ∧ strokeWidth d' = Z.land (Z.shiftl w2 16) w1
        ∧ fin1 d' = rest.
Proof.
  intros Hread. pose proof (readN_read16_range _ _ _ _ Hread) as Hr.
  inversion Hr as [|? ? _ Hr1]; subst. inversion Hr1 as [|? ? Hw1 _]; subst.
  unfold step. rewrite Hread. cbn -[strokeWidthOf].
  eexists. split; [reflexivity|]. simpl. split; [|reflexivity].
  apply strokeWidthOf_and. exact Hw1.
Qed.

End StrokeWidth.


Section Type1Loop.
Import C Reader Ubvff1.
Context `{Host}.

Lemma read32_consumes (f : list byte) (v : Z) (rest : list byte) :
  read32 f = Some (v, rest) → length f = (4 + length rest)%nat.
Proof.
  destruct f as [|b0 [|b1 [|b2 [|b3 f']]]]; simpl; try discriminate.
  intros [= _ <-]. reflexivity.
Qed.

Lemma readN_read32_consumes (n : nat) : ∀ f ws rest,
  readN read32 n f = Some (ws, rest) → (length rest ≤ length f)%nat.
Proof.
  induction n as [|n IH]; intros f ws rest; simpl.
  - intros [= _ <-]. lia.
  - destruct (read32 f) as [[w f1]|] eqn:E1; [|discriminate].
    destruct (readN read32 n f1) as [[ws1 r1]|] eqn:E2; [|discriminate].
    intros [= _ <-]. apply read32_consumes in E1. apply IH in E2. lia.
Qed.

Lemma readPoint_consumes (f : list byte) (p : BIN_POINT) (rest : list byte) :
  readPoint f = Some (p, rest) → (length rest ≤ length f)%nat.
Proof.
  unfold readPoint. destruct (readN read32 2 f) as [[ws r]|] eqn:E; [|discriminate].
  apply readN_read32_consumes in E.
  destruct ws as [|? [|? [|? ?]]]; try discriminate. intros [= _ <-]. exact E.
Qed.

Lemma readCubic_consumes (f : list byte) (c : BIN_CUBIC) (rest : list byte) :
  readCubic f = Some (c, rest) → (length rest ≤ length f)%nat.
Proof.
  unfold readCubic. destruct (readN read32 6 f) as [[ws r]|] eqn:E; [|discriminate].
  apply readN_read32_consumes in E.
  destruct ws as [|? [|? [|? [|? [|? [|? [|? ?]]]]]]]; try discriminate.
  intros [= _ <-]. exact E.
Qed.

Lemma readColor_consumes (f : list byte) (c : BIN_COLOR) (rest : list byte) :
  readColor f = Some (c, rest) → (length rest ≤ length f)%nat.
Proof.
  unfold readColor. destruct (read32 f) as [[v r]|] eqn:E; [|discriminate].
  apply read32_consumes in E. intros [= _ <-]. lia.
Qed.

Lemma titleLoop_consumes (n : nat) : ∀ y f t,
  (length (titleLoop n y f t).1 ≤ length f)%nat.
Proof.
  induction n as [|n IH]; intros y f t; simpl; [lia|].
  destruct (read32 f) as [[v r]|] eqn:E; [|simpl; lia].
  apply read32_consumes in E. specialize (IH (S y) r (<[y := to_char v]> t)). lia.
Qed.

Lemma lineLoop_consumes (n : nat) : ∀ f e, (length (lineLoop n f e).1 ≤ length f)%nat.
Proof.
  induction n as [|n IH]; intros f e; simpl; [lia|].
  destruct (readPoint f) as [[p r]|] eqn:E; [|simpl; lia].
  apply readPoint_consumes in E.
  destruct (dumpSVGLine p e) as [rc e']. destruct (rc =? 0); [|simpl; lia].
  specialize (IH r e'). lia.
Qed.

Lemma cubicLoop_consumes (n : nat) : ∀ f e, (length (cubicLoop n f e).1 ≤ length f)%nat.
Proof.
  induction n as [|n IH]; intros f e; simpl; [lia|].
  destruct (readCubic f) as [[c r]|] eqn:E; [|simpl; lia].
  apply readCubic_consumes in E.
  destruct (dumpSVGCubic c e) as [rc e']. destruct (rc =? 0); [|simpl; lia].
  specialize (IH r e'). lia.
Qed.

Lemma guarded_fin (res : Z * emitter) (d : decoder) :
  match guarded res d with
  | Continue d' | Break d' | Return _ d' => fin d' = fin d
  | Fault => False
  end.
Proof. unfold guarded. destruct res as [rc e]. destruct (rc =? 0); reflexivity. Qed.

Ltac fin_done := cbn [fin with_fin with_em with_title fst] in *; lia.

Ltac guard_done :=
  match goal with
  | |- context [guarded ?r ?dd] =>
      let Hg := fresh "Hg" in
      pose proof (guarded_fin r dd) as Hg; destruct (guarded r dd);
      try exact I; rewrite Hg; fin_done
  end.

(** A round that goes on has read at least the four bytes of its opcode. *)
Lemma step_consumes (d : decoder) :
  match step d with
  | Continue d' => (length (fin d') < length (fin d))%nat
  | _ => True
  end.
Proof.
  unfold step. destruct (read32 (fin d)) as [[cmd f]|] eqn:E; [|exact I].
  apply read32_consumes in E.
  destruct (cmd =? 0); [fin_done|].
  destruct (cmd =? 1).
  { destruct (read32 f) as [[strLength f0]|] eqn:E1; [|exact I].
    apply read32_consumes in E1. destruct (strLength >? 64); [exact I|].
    match goal with
    | |- context [titleLoop ?n ?y ?g ?t] =>
        pose proof (titleLoop_consumes n y g t) as Ht; destruct (titleLoop n y g t) as [f1 t1]
    end.
    destruct (Escape.escapeStringA _ _ _) as [r| |]; try exact I.
    destruct (if state_eqb _ _ then _ else _) as [rc e].
    destruct (negb _); [exact I | guard_done]. }
  destruct (cmd =? 2).
  { destruct (if state_eqb _ _ then _ else _) as [rc e].
    destruct (negb _); [exact I | guard_done]. }
  destruct (cmd =? 3).
  { destruct (readN read32 5 f) as [[ws f0]|] eqn:E1; [|exact I].
    apply readN_read32_consumes in E1.
    destruct ws as [|? [|? [|? [|? [|? [|? ?]]]]]]; try exact I. fin_done. }
  destruct (cmd =? 4).
  { destruct (readColor f) as [[c f0]|] eqn:E1; [|exact I].
    apply readColor_consumes in E1. fin_done. }
  destruct (cmd =? 5).
  { destruct (readColor f) as [[c f0]|] eqn:E1; [|exact I].
    apply readColor_consumes in E1. fin_done. }
  destruct (cmd =? 6).
  { destruct (readPoint f) as [[p f0]|] eqn:E1; [|exact I].
    apply readPoint_consumes in E1. guard_done. }
  destruct (cmd =? 7).
  { destruct (read32 f) as [[pcount f0]|] eqn:E1; [|exact I].
    apply read32_consumes in E1.
    pose proof (lineLoop_consumes (Z.to_nat pcount) f0 (em (with_fin f d))) as Hl.
    destruct (lineLoop _ _ _) as [f1 e]. fin_done. }
  destruct (cmd =? 8).
  { destruct (read32 f) as [[pcount f0]|] eqn:E1; [|exact I].
    apply read32_consumes in E1.
    pose proof (cubicLoop_consumes (Z.to_nat (pcount / 3)) f0 (em (with_fin f d))) as Hl.
    destruct (cubicLoop _ _ _) as [f1 e]. fin_done. }
  destruct (cmd =? 9); [guard_done|].
  destruct (_ || _); [guard_done|].
  destruct (cmd =? 12); [fin_done|].
  destruct (cmd =? 13); [guard_done|].
  destruct (_ || _).
  { destruct (read32 f) as [[v f0]|] eqn:E1; [|exact I].
    apply read32_consumes in E1. fin_done. }
  destruct (cmd =? 16).
  { destruct (read32 f) as [[v f0]|] eqn:E1; [|exact I].
    apply read32_consumes in E1. fin_done. }
  destruct (cmd =? 21); [exact I | fin_done].
Qed.

(** The loop of [main] is over within as many rounds as the file has
    bytes: it ends, or a layer name takes it out of what C defines. *)
Lemma mainLoop_ends (fuel : nat) : ∀ d : decoder,
  (length (fin d) < fuel)%nat →
  (∃ r, mainLoop fuel d = Ret r) ∨ mainLoop fuel d = Undefined.
Proof.
  induction fuel as [|fuel IH]; intros d Hlen; [lia|].
  cbn [mainLoop]. pose proof (step_consumes d) as Hs.
  destruct (step d) as [d'|d'|code d'|]; eauto.
  apply IH. lia.
Qed.

(** [main] returns, whatever the bytes of the file are, unless a layer name
    takes it out of what C defines; the rounds allowed are always enough. *)
Lemma main_returns (dump : bool) (file : list byte) (l : locals) :
  (∃ code d, main dump file l = Ret (code, d)) ∨ main dump file l = Undefined.
Proof.
  unfold main.
  destruct (mainLoop_ends (S (length file))
              (mkDecoder file (mkEmitter dump DUMPSTATE_BEGIN fopen_w)
                         (header0 l) (color0 l) (strokeColor0 l) 0x8000
                         (replicate 65 0))) as [[r Hr]|Hr];
    [simpl; lia| |]; rewrite Hr; eauto.
Qed.

End Type1Loop.

Section ClosePath.
Import C.

(** C4, amended.  With SVG output on, the close-path operation fails
    ([return 1]) and leaves the emitter as it is (state and output) in every
    state other than: after a line or cubic (Type 1); after a line or cubic
    or after a move (Type 2). *)
Theorem closePath_state_error (e1 : Ubvff1.emitter) (e2 : Ubvff2.emitter) :
  Ubvff1.svgdump e1 = true →
  Ubvff1.svgDumpState e1 ≠ Ubvff1.DUMPSTATE_AFTER_LINE →
  Ubvff2.svgdump e2 = true →
  Ubvff2.svgDumpState e2 ≠ Ubvff2.DUMPSTATE_AFTER_LINE →
  Ubvff2.svgDumpState e2 ≠ Ubvff2.DUMPSTATE_AFTER_START_PATH →
  Ubvff1.dumpSVGClosePath e1 = (1, e1) ∧ Ubvff2.dumpSVGClosePath e2 = (1, e2).
Proof.
  intros Hd1 Hs1 Hd2 Hs2 Hs2'. split.
  - unfold Ubvff1.dumpSVGClosePath. rewrite Hd1. simpl.
    destruct (Ubvff1.svgDumpState e1); try reflexivity. congruence.
  - unfold Ubvff2.dumpSVGClosePath. rewrite Hd2. simpl.
    destruct (Ubvff2.svgDumpState e2); try reflexivity; congruence.
Qed.

(** With SVG output off the operation does nothing and reports success. *)
Lemma closePath_disabled (e1 : Ubvff1.emitter) (e2 : Ubvff2.emitter) :
  Ubvff1.svgdump e1 = false → Ubvff2.svgdump e2 = false →
  Ubvff1.dumpSVGClosePath e1 = (0, e1) ∧ Ubvff2.dumpSVGClosePath e2 = (0, e2).
Proof.
  intros Hd1 Hd2. unfold Ubvff1.dumpSVGClosePath, Ubvff2.dumpSVGClosePath.
  rewrite Hd1, Hd2. split; reflexivity.
Qed.

(** C4 as it is claimed fails for Type 2: right after a move, which is not
    after a line or cubic, the close succeeds, writes ["Z "] and changes the
    state. *)
Lemma closePath_after_move_accepted :
  Ubvff2.dumpSVGClosePath
    (Ubvff2.mkEmitter true Ubvff2.DUMPSTATE_AFTER_START_PATH fopen_w)
  = (0, Ubvff2.mkEmitter true Ubvff2.DUMPSTATE_AFTER_CLOSE_PATH (mkFILE (bytes "Z ") 2)).
Proof. reflexivity. Qed.

End ClosePath.

Section Cubics1.
Import C Reader Ubvff1.
Context `{Host}.

Lemma cubicLoop_emits (n : nat) : ∀ f e cs rest,
  readCubics n f = Some (cs, rest) →
  svgdump e = true →
  svgDumpState e = DUMPSTATE_AFTER_START_PATH ∨ svgDumpState e = DUMPSTATE_AFTER_LINE →
  cubicLoop n f e
  = (rest, mkEmitter true (if n is O then svgDumpState e else DUMPSTATE_AFTER_LINE)
                     (writeCubics cs (fout e)))
  ∧ length cs = n.
Proof.
  induction n as [|n IH]; intros f e cs rest Hread Hdump Hst.
  - simpl in Hread. injection Hread as <- <-. simpl. split; [|reflexivity].
    destruct e; simpl in *; subst; reflexivity.
  - simpl in Hread. cbn [cubicLoop].
    destruct (readCubic f) as [[c f1]|]; [|discriminate].
    destruct (readCubics n f1) as [[cs1 rest1]|] eqn:E; [|discriminate].
    injection Hread as <- <-.
    assert (Hc : dumpSVGCubic c e = (0, mkEmitter true DUMPSTATE_AFTER_LINE
                                                 (fwrite (cubicText c) (fout e)))).
    { unfold dumpSVGCubic, emit. rewrite Hdump. destruct Hst as [-> | ->]; reflexivity. }
    rewrite Hc. simpl (0 =? 0). cbv iota.
    destruct (IH f1 (mkEmitter true DUMPSTATE_AFTER_LINE (fwrite (cubicText c) (fout e)))
                 cs1 rest1 E eq_refl (or_intror eq_refl)) as [Hl Hlen].
    rewrite Hl. simpl. split; [|congruence].
    destruct n; reflexivity.
Qed.

End Cubics1.




Section Cubics2.
Import C Reader Ubvff2.
Context `{Host}.

Lemma readN_length (rd : list byte → option (Z * list byte)) (n : nat) : ∀ f ws rest,
  readN rd n f = Some (ws, rest) → length ws = n.
Proof.
  induction n as [|n IH]; intros f ws rest; simpl.
  - intros [= <- <-]. reflexivity.
  - destruct (rd f) as [[w f1]|]; [|discriminate].
    destruct (readN rd n f1) as [[ws1 r1]|] eqn:E; [|discriminate].
    intros [= <- <-]. simpl. f_equal. eapply IH; eauto.
Qed.

Lemma points_of_length (n : nat) : ∀ vs : list Z,
  length vs = (2 * n)%nat → length (points_of vs) = n.
Proof.
  induction n as [|n IH]; intros vs Hl.
  - destruct vs; [reflexivity | discriminate].
  - destruct vs as [|a [|b' t]]; simpl in Hl; try lia.
    simpl. f_equal. apply IH. lia.
Qed.

Lemma cubics_of_length (n : nat) : ∀ ps : list BIN_POINT,
  length ps = (3 * n)%nat → length (cubics_of ps) = n.
Proof.
  induction n as [|n IH]; intros ps Hl.
  - destruct ps; [reflexivity | discriminate].
  - destruct ps as [|a [|b' [|c t]]]; simpl in Hl; try lia.
    simpl. f_equal. apply IH. lia.
Qed.

Lemma cubicLoop_emits2 (cs : list BIN_CUBIC) : ∀ e,
  svgdump e = true →
  svgDumpState e = DUMPSTATE_AFTER_START_PATH ∨ svgDumpState e = DUMPSTATE_AFTER_LINE →
  cubicLoop cs e
  = mkEmitter true (if cs is [] then svgDumpState e else DUMPSTATE_AFTER_LINE)
              (writeCubics cs (fout e)).
Proof.
  induction cs as [|c cs IH]; intros e Hdump Hst.
  - destruct e; simpl in *; subst; reflexivity.
  - cbn [cubicLoop].
    assert (Hc : dumpSVGCubic c e = (0, mkEmitter true DUMPSTATE_AFTER_LINE
                                                 (fwrite (cubicText c) (fout e)))).
    { unfold dumpSVGCubic, emit. rewrite Hdump. destruct Hst as [-> | ->]; reflexivity. }
    rewrite Hc. simpl (0 =? 0). cbv iota.
    rewrite IH by (simpl; auto). simpl. destruct cs; reflexivity.
Qed.

End Cubics2.

Section Cubics.
Import C Reader.
Context `{Host}.

(** C6, amended.  Type 1: a cubic block of [pcount] points whose
    [pcount/3] cubics are in the input gives, after a move, line or cubic,
    exactly these [pcount/3] segments on the output, and the input is left
    right behind them: the [pcount mod 3] points that remain are not read.
    Type 2: a POINTS_CUBICS command whose point count is not a multiple of
    three leaves the command loop with nothing read from the points file and
    nothing written; with a positive multiple of three, the [pTotal/3]
    cubics of the points read are written. *)
Theorem cubic_segments_per_decoder :
  (∀ (d : Ubvff1.decoder) pcount f0 f cs rest,
      read32 (Ubvff1.fin d) = Some (0x08, f0) →
      read32 f0 = Some (pcount, f) →
      Ubvff1.readCubics (Z.to_nat (pcount / 3)) f = Some (cs, rest) →
      Ubvff1.svgdump (Ubvff1.em d) = true →
      Ubvff1.svgDumpState (Ubvff1.em d) = Ubvff1.DUMPSTATE_AFTER_START_PATH
      ∨ Ubvff1.svgDumpState (Ubvff1.em d) = Ubvff1.DUMPSTATE_AFTER_LINE →
      ∃ d', Ubvff1.step d = Ubvff1.Continue d'
            ∧ Ubvff1.fin d' = rest
            ∧ Ubvff1.fout (Ubvff1.em d') = Ubvff1.writeCubics cs (Ubvff1.fout (Ubvff1.em d))
            ∧ length cs = Z.to_nat (pcount / 3))
  ∧ (∀ (d : Ubvff2.decoder) pTotal w2 w3 w4 rest,
      readN read16 5 (Ubvff2.fin1 d) = Some ([0x04; pTotal; w2; w3; w4], rest) →
      Z.rem pTotal 3 ≠ 0 →
      Ubvff2.step d = Ubvff2.Break (Ubvff2.with_fin1 rest d))
  ∧ (∀ (d : Ubvff2.decoder) pTotal w2 w3 w4 rest vs d1,
      readN read16 5 (Ubvff2.fin1 d) = Some ([0x04; pTotal; w2; w3; w4], rest) →
      Z.rem pTotal 3 = 0 → pTotal ≠ 0 →
      Ubvff2.bo_fread_points (Z.to_nat (pTotal * 2)) (Ubvff2.with_fin1 rest d) = Some (vs, d1) →
      Ubvff2.svgdump (Ubvff2.em d) = true →
      Ubvff2.svgDumpState (Ubvff2.em d) = Ubvff2.DUMPSTATE_AFTER_START_PATH
      ∨ Ubvff2.svgDumpState (Ubvff2.em d) = Ubvff2.DUMPSTATE_AFTER_LINE →
      ∃ d', Ubvff2.step d = Ubvff2.Continue d'
            ∧ Ubvff2.fout (Ubvff2.em d')
              = Ubvff2.writeCubics (Ubvff2.cubics_of (Ubvff2.points_of vs))
                                   (Ubvff2.fout (Ubvff2.em d))
            ∧ length (Ubvff2.cubics_of (Ubvff2.points_of vs)) = Z.to_nat (pTotal / 3)).
Proof.
  split; [|split].
  - intros d pcount f0 f cs rest Hcmd Hcount Hcs Hdump Hst.
    unfold Ubvff1.step. rewrite Hcmd. cbn -[Ubvff1.cubicLoop Ubvff1.readCubics Z.div].
    rewrite Hcount.
    destruct (cubicLoop_emits _ _ _ _ _ Hcs Hdump Hst) as [Hl Hlen].
    rewrite Hl. eexists. split; [reflexivity|]. simpl. auto.
  - intros d pTotal w2 w3 w4 rest Hcmd Hrem.
    unfold Ubvff2.step. rewrite Hcmd. cbn -[Z.rem].
    destruct (Z.eqb_spec (Z.rem pTotal 3) 0); [contradiction|]. reflexivity.
  - intros d pTotal w2 w3 w4 rest vs d1 Hcmd Hrem Hnz Hpts Hdump Hst.
    pose proof (readN_read16_range _ _ _ _ Hcmd) as Hr.
    inversion Hr as [|? ? _ Hr1]; subst. inversion Hr1 as [|? ? Hp _]; subst.
    assert (Hk : pTotal = 3 * (pTotal / 3)).
    { pose proof (Z.div_mod pTotal 3 ltac:(lia)) as Hdm.
      rewrite <- (Z.rem_mod_nonneg pTotal 3) in Hdm by lia. lia. }
    assert (Hlen : length (Ubvff2.cubics_of (Ubvff2.points_of vs)) = Z.to_nat (pTotal / 3)).
    { unfold Ubvff2.bo_fread_points in Hpts.
      destruct (readN read32_mixed _ _) as [[ws r]|] eqn:E; [|discriminate].
      injection Hpts as <- _. apply readN_length in E.
      apply cubics_of_length. apply points_of_length. rewrite length_fmap, E. lia. }
    assert (Hem : Ubvff2.em d1 = Ubvff2.em d).
    { unfold Ubvff2.bo_fread_points in Hpts.
      destruct (readN read32_mixed _ _) as [[ws r]|]; [|discriminate].
      injection Hpts as _ <-. reflexivity. }
    unfold Ubvff2.step. rewrite Hcmd. cbn -[Z.rem Z.div Z.mul Ubvff2.bo_fread_points].
    rewrite Hrem. simpl (negb _).
    destruct (Z.eqb_spec pTotal 0); [contradiction|]. simpl (false || false).
    cbv iota. rewrite Hpts.
    rewrite <- Hlen, firstn_all, Hem.
    rewrite cubicLoop_emits2 by assumption.
    eexists. split; [reflexivity|]. simpl. auto.
Qed.

End Cubics.


Section Footer.
Import C Reader Ubvff2.
Context `{Host}.

Lemma footerCheckFails_false (footer : BIN_FOOTER) :
  footerCheckFails footer = false
  ↔ fcmd footer = 0x01 ∧ fz1 footer = 0 ∧ fz2 footer = 0 ∧ fz3 footer = 0.
Proof.
  unfold footerCheckFails.
  destruct (Z.eqb_spec (fcmd footer) 1), (Z.eqb_spec (fz1 footer) 0),
    (Z.eqb_spec (fz2 footer) 0), (Z.eqb_spec (fz3 footer) 0); simpl;
    split; intros Hx; try discriminate; try tauto.
Qed.

(** C3, amended.  For a command file whose header passes, [main] returns
    at the footer check (before the points file is opened and before the
    command loop) exactly when the footer is not: terminator opcode 0x01
    and the three reserved words zero. *)
Theorem footer_accepted_iff (dump : bool) (cmdFile : list byte)
        (pointsFile : Z → option (list byte)) (l : locals)
        (header : BIN_HEADER_S) (footer : BIN_FOOTER) :
  readHeader cmdFile = Some header →
  0x0A < cmdCount header →
  readFooter cmdFile = Some footer →
  (main dump cmdFile pointsFile l = Rejected "not a valid command file (footer check failed)"
   ↔ ¬ (fcmd footer = 0x01 ∧ fz1 footer = 0 ∧ fz2 footer = 0 ∧ fz3 footer = 0)).
Proof.
  intros Hh Hc Hf. unfold main. rewrite Hh, Hf.
  destruct (Z.leb_spec (cmdCount header) 0x0A); [lia|].
  rewrite <- footerCheckFails_false.
  destruct (footerCheckFails footer).
  - split; [discriminate | reflexivity].
  - split; [|congruence]. intros Hm. exfalso.
    destruct (pointsFile (pfilenum footer)); [|discriminate].
    destruct (readN read16 2 l0); [|discriminate].
    destruct (cmdLoop _ _); discriminate.
Qed.

End Footer.

Section Instances.
Import C Reader Ubvff2.

Lemma footer_accepted_iff_witness :
  (@readHeader Examples.host Examples.Type2.endFooterFile = Some (mkHeader 0 11 0 0 0 0 0)
   ∧ 0x0A < cmdCount (mkHeader 0 11 0 0 0 0 0)
   ∧ @readFooter Examples.host Examples.Type2.endFooterFile = Some (mkFooter 1 52 0 0 0))
  ∧ (@main Examples.host true Examples.Type2.endFooterFile (λ _, None) Examples.Type2.locals0
     = Rejected "not a valid command file (footer check failed)"
     ↔ ¬ (fcmd (mkFooter 1 52 0 0 0) = 0x01 ∧ fz1 (mkFooter 1 52 0 0 0) = 0
          ∧ fz2 (mkFooter 1 52 0 0 0) = 0 ∧ fz3 (mkFooter 1 52 0 0 0) = 0)).
Proof.
  split; [vm_compute; intuition congruence|].
  apply (@footer_accepted_iff Examples.host true Examples.Type2.endFooterFile (λ _, None) Examples.Type2.locals0
           (mkHeader 0 11 0 0 0 0 0) (mkFooter 1 52 0 0 0));
    vm_compute; congruence.
Defined.

(** C3 as it is claimed fails: a footer whose terminator opcode and
    reserved words are all zero is refused. *)
Lemma zero_footer_rejected :
  @readFooter Examples.host Examples.Type2.zeroFooterFile = Some (mkFooter 0 0 0 0 0)
  ∧ @main Examples.host true Examples.Type2.zeroFooterFile (λ _, Some (replicate 4 x00)) Examples.Type2.locals0
    = Rejected "not a valid command file (footer check failed)".
Proof. split; vm_compute; reflexivity. Qed.

Lemma stroke_width_is_bitwise_and_witness :
  @readN (@read16 Examples.host) 5 (fin1 Examples.Type2.strokeWidthCmd) = Some ([0x0A; 0x8000; 1; 0; 0], [])
  ∧ ∃ d', @step Examples.host Examples.Type2.strokeWidthCmd = Continue d'
          ∧ strokeWidth d' = Z.land (Z.shiftl 1 16) 0x8000
          ∧ fin1 d' = [].
Proof.
  split; [vm_compute; reflexivity|].
  apply (@stroke_width_is_bitwise_and Examples.host Examples.Type2.strokeWidthCmd 0x8000 1 0 0 []).
  vm_compute; reflexivity.
Defined.

(** C6 as it is claimed fails for Type 2: with a point count of 4 (and four
    points in the points file) no segment is written, where the claim has
    [4/3 = 1] of them; the command loop is left. *)
Lemma cubics_remainder_rejected :
  @step Examples.host Examples.Type2.cubics4 = Break (with_fin1 [] Examples.Type2.cubics4)
  ∧ 4 / 3 = 1.
Proof. split; vm_compute; reflexivity. Qed.

End Instances.




Section Instances2.
Import C Reader.

Lemma closePath_state_error_witness :
  Ubvff1.dumpSVGClosePath (Ubvff1.mkEmitter true Ubvff1.DUMPSTATE_AFTER_START_PATH fopen_w)
  = (1, Ubvff1.mkEmitter true Ubvff1.DUMPSTATE_AFTER_START_PATH fopen_w)
  ∧ Ubvff2.dumpSVGClosePath (Ubvff2.mkEmitter true Ubvff2.DUMPSTATE_AFTER_HEADER fopen_w)
    = (1, Ubvff2.mkEmitter true Ubvff2.DUMPSTATE_AFTER_HEADER fopen_w).
Proof.
  apply (closePath_state_error
           (Ubvff1.mkEmitter true Ubvff1.DUMPSTATE_AFTER_START_PATH fopen_w)
           (Ubvff2.mkEmitter true Ubvff2.DUMPSTATE_AFTER_HEADER fopen_w));
    simpl; congruence.
Defined.

Lemma cubic_segments_per_decoder_witness :
  (∃ d', @Ubvff1.step Examples.host Examples.Type1.cubicBlock = Ubvff1.Continue d'
         ∧ Ubvff1.fin d' = replicate 8 x02
         ∧ Ubvff1.fout (Ubvff1.em d')
           = @Ubvff1.writeCubics Examples.host [Examples.Type1.oneCubic]
               (Ubvff1.fout (Ubvff1.em Examples.Type1.cubicBlock))
         ∧ length [Examples.Type1.oneCubic] = Z.to_nat (4 / 3))
  ∧ @Ubvff2.step Examples.host Examples.Type2.cubics4 = Ubvff2.Break (Ubvff2.with_fin1 [] Examples.Type2.cubics4)
  ∧ (∃ d', @Ubvff2.step Examples.host Examples.Type2.cubics3 = Ubvff2.Continue d'
           ∧ length (Ubvff2.cubics_of (Ubvff2.points_of (replicate 6 16843009)))
             = Z.to_nat (3 / 3)).
Proof.
  destruct (@cubic_segments_per_decoder Examples.host) as (T1 & T2 & T3).
  split; [|split].
  - apply (T1 Examples.Type1.cubicBlock 4 (drop 4 (Ubvff1.fin Examples.Type1.cubicBlock))
              (drop 8 (Ubvff1.fin Examples.Type1.cubicBlock)) [Examples.Type1.oneCubic] (replicate 8 x02));
      vm_compute; auto.
  - apply (T2 Examples.Type2.cubics4 4 0 0 0 []); vm_compute; congruence.
  - destruct (T3 Examples.Type2.cubics3 3 0 0 0 [] (replicate 6 16843009)
                 (Ubvff2.with_fin2 [] (0, 0, 16843009, 16843009)
                                   (Ubvff2.with_fin1 [] Examples.Type2.cubics3)))
      as (d' & Hs & _ & Hl); try (vm_compute; auto; congruence).
    exists d'. split; assumption.
Defined.

End Instances2.

(** ** The assembler: viewport patch, fragments, recursion *)


Section Viewbox.
Import C Vecass.

Lemma foldl_insert_seq {X} (x : X) (n : nat) : ∀ (s : nat) (buf : list X),
  (s + n ≤ length buf)%nat →
  foldl (λ b i, <[i := x]> b) buf (seq s n) = take s buf ++ replicate n x ++ drop (s + n) buf.
Proof.
  induction n as [|n IH]; intros s buf Hlen.
  - simpl. rewrite Nat.add_0_r, take_drop. reflexivity.
  - simpl seq. simpl foldl. rewrite IH by (rewrite length_insert; lia).
    rewrite (take_S_r _ s x) by (apply list_lookup_insert_eq; lia).
    rewrite take_insert_ge by lia. rewrite drop_insert_lt by lia.
    rewrite <- app_assoc. simpl. replace (S (s + n)) with (s + S n)%nat by lia. reflexivity.
Qed.

(** The 26 bytes the patch writes: the text, cut after 26 characters or
    filled up with spaces. *)
Lemma rpad_field (text : list byte) :
  (length text < 30)%nat →
  take 26 (rpad (sprintfBuf text) (length text)) = take 26 (text ++ replicate 26 x20).
Proof.
  intros Hlen. unfold rpad, sprintfBuf.
  destruct (Nat.ltb_spec (length text) 26) as [Hlt|Hge].
  - rewrite take_insert_ge by lia.
    rewrite foldl_insert_seq
      by (rewrite !length_app, length_replicate; simpl; lia).
    rewrite take_app_length.
    replace (length text + (26 - length text))%nat with 26%nat by lia.
    rewrite !take_app. rewrite !length_replicate.
    rewrite (take_ge text) by lia. f_equal.
    rewrite !take_replicate.
    replace ((26 - length text) `min` (26 - length text))%nat with (26 - length text)%nat by lia.
    replace ((26 - length text) `min` 26)%nat with (26 - length text)%nat by lia.
    replace (26 - length text - (26 - length text))%nat with 0%nat by lia.
    rewrite take_0, app_nil_r. reflexivity.
  - rewrite !take_app_le by lia. reflexivity.
Qed.

(** A text that fits the buffer: 26 bytes go to offset 13 and the cursor is
    back where it was. *)
Lemma setViewbox_in_range (f : FILE) (minx miny maxx maxy : Z) :
  (length (viewboxText minx miny maxx maxy) < 30)%nat →
  let field := take 26 (viewboxText minx miny maxx maxy ++ replicate 26 x20) in
  length field = 26%nat
  ∧ setViewbox f minx miny maxx maxy
    = Ret (0, fseek_set (fpos f) (fwrite field (fseek_set 13 f))).
Proof.
  intros Hlen field. split.
  - unfold field. rewrite length_take, length_app, length_replicate. lia.
  - unfold setViewbox.
    destruct (Nat.leb_spec 30 (length (viewboxText minx miny maxx maxy))); [lia|].
    rewrite rpad_field by exact Hlen. reflexivity.
Qed.

(** The same for [dumpSVGSetViewbox] of the Type 2 decoder, on the rounded
    bounds. *)
Lemma dumpSVGSetViewbox_in_range (e : Ubvff2.emitter) (minx miny maxx maxy : Z) :
  Ubvff2.svgdump e = true →
  let text := viewboxText (roundInt minx Ubvff2.scaleFactor) (roundInt miny Ubvff2.scaleFactor)
                          (roundInt maxx Ubvff2.scaleFactor) (roundInt maxy Ubvff2.scaleFactor) in
  (length text < 30)%nat →
  Ubvff2.dumpSVGSetViewbox minx miny maxx maxy e
  = Ret (0, Ubvff2.mkEmitter true (Ubvff2.svgDumpState e)
              (fseek_set (fpos (Ubvff2.fout e))
                 (fwrite (take 26 (text ++ replicate 26 x20)) (fseek_set 13 (Ubvff2.fout e))))).
Proof.
  intros Hdump text Hlen. unfold Ubvff2.dumpSVGSetViewbox. rewrite Hdump. simpl negb. cbv iota.
  fold text. destruct (Nat.leb_spec 30 (length text)); [lia|].
  rewrite rpad_field by exact Hlen. reflexivity.
Qed.

End Viewbox.


Section Assembly.
Import C Vecass VecassSpec.
Context `{Host}.
Variable fs : list byte → option (list byte).
Variable prefix : list byte.

Lemma widened_refl (st : state) : widened st st.
Proof. unfold widened, contains. repeat split; lia. Qed.

Lemma widened_trans (a b c : state) : widened a b → widened b c → widened a c.
Proof.
  unfold widened, contains. intros ((?&?&?&?)&?&?) ((?&?&?&?)&?&?).
  repeat split; try lia; congruence.
Qed.

Lemma copyBlocks_fuel (fuel : nat) : ∀ bytesLeft fin fo,
  (length fin < fuel)%nat → copyBlocks fuel bytesLeft fin fo ≠ OutOfFuel.
Proof.
  induction fuel as [|fuel IH]; intros bytesLeft fin fo Hlen; [lia|].
  cbn [copyBlocks]. destruct (Z.gtb_spec bytesLeft 0) as [Hpos|]; [|discriminate].
  set (count := if bytesLeft <? BLOCKSIZE then bytesLeft else BLOCKSIZE).
  assert (1 ≤ count).
  { unfold count, BLOCKSIZE. destruct (bytesLeft <? 4096); lia. }
  destruct (Z.ltb_spec (Z.of_nat (length fin)) count); [discriminate|].
  apply IH. rewrite length_drop. lia.
Qed.

Lemma copyBlocks_returns (fin : list byte) (bytesLeft : Z) (fo : FILE) :
  ∃ rc fo', copyBlocks (S (length fin)) bytesLeft fin fo = Ret (rc, fo').
Proof.
  pose proof (copyBlocks_fuel (S (length fin)) bytesLeft fin fo ltac:(lia)) as Hne.
  assert (Hu : ∀ fuel b f o, copyBlocks fuel b f o ≠ Undefined).
  { induction fuel as [|fuel IH]; intros b f o; cbn [copyBlocks]; [discriminate|].
    destruct (b >? 0); [|discriminate].
    destruct (_ <? _); [discriminate | apply IH]. }
  specialize (Hu (S (length fin)) bytesLeft fin fo).
  destruct (copyBlocks (S (length fin)) bytesLeft fin fo) as [[rc fo']| |]; try congruence.
  eauto.
Qed.

Lemma widened_printf (s : list byte) (a b : state) : widened a b → widened a (printf s b).
Proof. unfold widened. simpl. tauto. Qed.

Lemma widened_set_fout (f : option FILE) (a b : state) : widened a b → widened a (set_fout f b).
Proof. unfold widened. simpl. tauto. Qed.

(** One fragment: the viewport only grows, nothing else of interest moves. *)
Lemma dumpOne_widens (e : DUMPLIST) (st : state) :
  match dumpOne fs prefix e st with
  | Ret (inl (rc, st')) => rc = 1 ∧ widened st st'
  | Ret (inr st') => widened st st'
  | Undefined => True
  | OutOfFuel => False
  end.
Proof.
  unfold dumpOne.
  destruct (fs _) as [data|]; [|apply widened_printf, widened_refl].
  destruct (sscanf_4i _) as [[[[x1 y1] x2] y2]|];
    [|split; [reflexivity | apply widened_printf, widened_refl]].
  set (st4 := set_view _ _ _ _ (set_view _ _ _ _ (set_view _ _ _ _ (set_view _ _ _ _ st)))).
  assert (Hw : widened st st4).
  { unfold widened, contains, st4. simpl.
    destruct (Z.ltb_spec x1 (viewMinX st)), (Z.ltb_spec y1 (viewMinY st)),
      (Z.gtb_spec x2 (viewMaxX st)), (Z.gtb_spec y2 (viewMaxY st));
      repeat split; lia. }
  destruct (strchr_nl _ 0) as [[nl|]|];
    [| split; [reflexivity | apply widened_printf; exact Hw] | exact I].
  change (fout st4) with (fout st).
  destruct (fout st) as [fo|]; [|exact I].
  match goal with |- context [copyBlocks (S (length ?f)) ?b ?f ?o] =>
    destruct (copyBlocks_returns f b o) as (rc & fo' & ->) end.
  destruct rc; [apply widened_set_fout; exact Hw | |];
    (split; [reflexivity | apply widened_printf, widened_set_fout; exact Hw]).
Qed.

Lemma dumpLoop_widens (todo : list DUMPLIST) : ∀ st,
  match dumpLoop fs prefix todo st with
  | Ret (inl (rc, st')) => rc = 1 ∧ widened st st'
  | Ret (inr st') => widened st st'
  | Undefined => True
  | OutOfFuel => False
  end.
Proof.
  induction todo as [|e todo IH]; intros st; cbn [dumpLoop]; [apply widened_refl|].
  pose proof (dumpOne_widens e st) as H1.
  destruct (dumpOne fs prefix e st) as [[[rc st1]|st1]| |]; try exact H1.
  specialize (IH st1).
  destruct (dumpLoop fs prefix todo st1) as [[[rc st2]|st2]| |]; try exact IH.
  - destruct IH. split; [assumption | eapply widened_trans; eauto].
  - eapply widened_trans; eauto.
Qed.

Lemma sortDumpList_widens (st : state) : widened st (sortDumpList st).
Proof.
  unfold sortDumpList. destruct (_ <? _)%nat; [apply widened_refl|].
  destruct (bubbleOuter _ _ _ _) as [refs [|]]; [|apply widened_refl].
  unfold widened, contains. simpl. repeat split; lia.
Qed.

Lemma setViewbox_returns (fo : FILE) (a b c d : Z) :
  setViewbox fo a b c d = Undefined ∨ ∃ fo', setViewbox fo a b c d = Ret (0, fo').
Proof. unfold setViewbox. destruct (_ <=? _)%nat; eauto. Qed.

(** [dumpFromList]: the viewport only grows, and the viewbox that is
    written on success is the one of the final viewport. *)
Lemma dumpFromList_widens (st : state) :
  match dumpFromList fs prefix st with
  | Ret (rc, st') =>
      widened st st'
      ∧ (rc = 0 → ∃ fo fo',
            setViewbox fo (viewMinX st') (viewMinY st') (viewMaxX st') (viewMaxY st')
            = Ret (0, fo') ∧ fout st' = Some fo')
  | Undefined => True
  | OutOfFuel => False
  end.
Proof.
  unfold dumpFromList.
  pose proof (sortDumpList_widens st) as Hs.
  pose proof (dumpLoop_widens (entries (sortDumpList st)) (sortDumpList st)) as Hl.
  destruct (dumpLoop _ _ _ _) as [[[rc st1]|st1]| |]; try exact Hl.
  - destruct Hl as [-> Hl]. split; [eapply widened_trans; eauto | discriminate].
  - destruct (fout st1) as [fo|]; [|exact I].
    destruct (setViewbox_returns fo (viewMinX st1) (viewMinY st1) (viewMaxX st1) (viewMaxY st1))
      as [-> | (fo' & Hv)]; [exact I|].
    rewrite Hv. split.
    + apply widened_set_fout. eapply widened_trans; eauto.
    + intros _. exists fo, fo'. simpl. split; [exact Hv | reflexivity].
Qed.

(** C10.  The viewport accumulator of the assembler starts as (0, 0, 1, 1)
    and [dumpFromList], the only code that changes it, only widens it: when
    it is entered with the accumulator as initialised, the viewport it ends
    with has [minX ≤ 0], [minY ≤ 0], [maxX ≥ 1] and [maxY ≥ 1], whatever the
    viewboxes of the fragments are, and on success this viewport is the one
    [setViewbox] has written into the output. *)
Theorem composite_viewbox_contains_initial (st : state) (rc : Z) (st' : state) :
  viewMinX st = viewMinX init → viewMinY st = viewMinY init →
  viewMaxX st = viewMaxX init → viewMaxY st = viewMaxY init →
  dumpFromList fs prefix st = Ret (rc, st') →
  (viewMinX init, viewMinY init, viewMaxX init, viewMaxY init) = (0, 0, 1, 1)
  ∧ viewMinX st' ≤ 0 ∧ viewMinY st' ≤ 0 ∧ 1 ≤ viewMaxX st' ∧ 1 ≤ viewMaxY st'
  ∧ (rc = 0 → ∃ fo fo',
        setViewbox fo (viewMinX st') (viewMinY st') (viewMaxX st') (viewMaxY st')
        = Ret (0, fo') ∧ fout st' = Some fo').
Proof.
  intros H1 H2 H3 H4 Hrun. pose proof (dumpFromList_widens st) as Hw.
  rewrite Hrun in Hw. destruct Hw as [((?&?&?&?)&_) Hp].
  simpl in H1, H2, H3, H4.
  split; [reflexivity|]. repeat split; try lia. exact Hp.
Qed.

End Assembly.


Section Recursion.
Import C Vecass VecassSpec.
Context `{Host}.
Variable fs : list byte → option (list byte).
Variable prefix svgfilename : list byte.

Lemma contains_refl (st : state) : contains st st.
Proof. unfold contains. lia. Qed.

Lemma contains_trans (a b c : state) : contains a b → contains b c → contains a c.
Proof. unfold contains. lia. Qed.

(** The loop over the commands of a file entered at depth [d0]: between two
    recursive calls the depth is from [d0] to 9. *)
Lemma scanLoop_ends (call : list byte → state → outcome (Z * state)) (spacer : list byte)
      (d0 : Z) :
  call_ok d0 call →
  ∀ (n : nat) (fin1 : list byte) (st : state),
    (length fin1 ≤ n)%nat →
    d0 ≤ depth st ≤ 9 → opens_below_max st →
    match scanLoop prefix call spacer fin1 st with
    | Ret st' => d0 ≤ depth st' ≤ 10 ∧ opens_below_max st' ∧ contains st st'
    | Undefined => True
    | OutOfFuel => False
    end.
Proof.
  intros Hcall. induction n as [|n IH]; intros fin1 st Hlen Hd Ho.
  - destruct fin1; [|simpl in Hlen; lia]. simpl.
    split; [lia|]. split; [exact Ho | apply contains_refl].
  - destruct fin1 as [|b0 [|b1 rest]]; cbn [scanLoop];
      try (split; [lia|]; split; [exact Ho | apply contains_refl]).
    simpl in Hlen.
    destruct (_ =? 0); [apply IH; [lia | exact Hd | exact Ho]|].
    destruct (_ || _); [|apply IH; [lia | exact Hd | exact Ho]].
    destruct rest as [|c0 [|c1 rest']];
      try (split; [simpl; lia|]; split; [exact Ho | unfold contains; simpl; lia]).
    simpl in Hlen.
    set (st1 := set_depth _ (printf _ st)).
    assert (Hd1 : d0 < depth st1 ≤ 10) by (unfold st1; simpl; lia).
    assert (Ho1 : opens_below_max st1) by exact Ho.
    pose proof (Hcall (prefix ++ fmt_05u (bo_read16 c0 c1) ++ bytes ".bin") st1 Hd1 Ho1) as Hc.
    destruct (call _ st1) as [[r st2]| |]; try exact Hc.
    destruct Hc as (Hd2 & Ho2 & Hc2).
    assert (Hc12 : contains st st2) by exact Hc2.
    destruct (r =? 0).
    + set (st3 := set_depth (depth st2 - 1) st2).
      assert (Hd3 : d0 ≤ depth st3 ≤ 9) by (unfold st3, st1 in *; simpl in *; lia).
      pose proof (IH rest' st3 ltac:(lia) Hd3 Ho2) as Hr.
      destruct (scanLoop prefix call spacer rest' st3) as [st4| |]; try exact Hr.
      destruct Hr as (? & ? & ?). split; [assumption|]. split; [assumption|].
      eapply contains_trans; [exact Hc12 | assumption].
    + split; [unfold st1 in *; simpl in *; lia|]. split; [exact Ho2 | exact Hc12].
Qed.

Lemma addToDumpList_ends (fnum lnum : Z) (st : state) :
  match addToDumpList fnum lnum st with
  | Ret (_, st') => widened st st'
  | Undefined => True
  | OutOfFuel => False
  end.
Proof.
  unfold addToDumpList. destruct (_ <? _)%nat; [|exact I].
  destruct (_ <=? _)%nat; unfold widened, contains; simpl; repeat split; lia.
Qed.

Lemma opens_below_max_log (name : list byte) (st : state) :
  0 ≤ depth st ≤ 9 → opens_below_max st → opens_below_max (log_open name st).
Proof.
  intros Hd Ho. unfold opens_below_max, log_open. simpl.
  apply Forall_app. split; [exact Ho|]. constructor; [simpl; lia | constructor].
Qed.

(** The body of [processFile] ends well when its recursive calls do. *)
Lemma processBody_ends (call : list byte → state → outcome (Z * state))
      (name : list byte) (st : state) :
  call_ok (depth st) call →
  0 ≤ depth st ≤ 10 → opens_below_max st →
  ends_well st (processBody fs prefix svgfilename call name st).
Proof.
  intros Hcall Hd Ho. unfold processBody, ends_well.
  destruct (Z.eqb_spec (depth st) 10) as [E|E].
  { simpl. split; [lia|]. split; [exact Ho | unfold contains; simpl; lia]. }
  destruct (Z.leb_spec 80 (4 * depth st)); [lia|].
  set (spacer := replicate _ x20).
  set (st1 := log_open name st).
  assert (Ho1 : opens_below_max st1) by (apply opens_below_max_log; [lia | exact Ho]).
  assert (Hfail : ∀ s, depth st ≤ depth (printf s st1) ≤ 10 ∧ opens_below_max (printf s st1)
                       ∧ contains st (printf s st1)).
  { intros s. simpl. split; [lia|]. split; [exact Ho1 | unfold contains; simpl; lia]. }
  destruct (fs name) as [data|]; [|apply Hfail].
  destruct data as [|a0 [|a1 [|a2 [|a3 [|b0 [|b1 [|b2 [|b3 [|c0 [|c1 [|c2 [|c3 rest]]]]]]]]]]]];
    try apply Hfail.
  destruct (_ =? 1).
  { destruct (negb _); [apply Hfail|].
    destruct (depth st1 =? 0); [apply Hfail|].
    match goal with |- context [addToDumpList ?f ?l ?s] =>
      pose proof (addToDumpList_ends f l s) as Ha; destruct (addToDumpList f l s) as [[r st2]| |]
    end; try exact Ha.
    destruct Ha as (Hc & Hdp & Hop).
    cbn [depth opened printf] in Hdp, Hop.
    split; [rewrite Hdp; cbn [depth log_open st1]; lia|].
    split; [unfold opens_below_max; rewrite Hop; exact Ho1 | exact Hc]. }
  destruct (_ || _); [apply Hfail|].
  destruct (_ && _); [apply Hfail|].
  destruct (_ =? 72); [apply Hfail|].
  destruct (_ || _); [apply Hfail|].
  destruct rest as [|d0 [|d1 [|d2 [|d3 [|d4 [|d5 [|d6 [|d7 [|d8 [|d9 [|d10 [|d11 cmds]]]]]]]]]]]];
    try apply Hfail.
  set (st2 := if depth st1 =? 0 then _ else st1).
  assert (Hst2 : depth st2 = depth st ∧ opened st2 = opened st1 ∧ contains st st2).
  { unfold st2. destruct (depth st1 =? 0); simpl; repeat split;
      unfold contains; simpl; lia. }
  destruct Hst2 as (Hd2 & Hop2 & Hc2).
  pose proof (scanLoop_ends call spacer (depth st) Hcall (length cmds) cmds st2 (le_n _)
                ltac:(lia) ltac:(unfold opens_below_max; rewrite Hop2; exact Ho1)) as Hs.
  destruct (scanLoop prefix call spacer cmds st2) as [st3| |]; try exact Hs.
  destruct Hs as (Hd3 & Ho3 & Hc3).
  assert (Hc03 : contains st st3) by (eapply contains_trans; eauto).
  change (depth (printf (spacer ++ bytes "end file" ++ ["010"%byte]) st3)) with (depth st3).
  destruct (depth st3 =? 0); [|split; [exact Hd3 | split; [exact Ho3 | exact Hc03]]].
  set (st4 := printf _ st3).
  pose proof (dumpFromList_widens fs prefix st4) as Hdump.
  destruct (dumpFromList fs prefix st4) as [[r st5]| |]; try exact Hdump.
  destruct Hdump as [(Hc5 & Hd5 & Hop5) _].
  assert (Hres : ∀ s, depth st ≤ depth (printf s st5) ≤ 10 ∧ opens_below_max (printf s st5)
                      ∧ contains st (printf s st5)).
  { intros s. simpl. rewrite Hd5. simpl. split; [exact Hd3|].
    split; [unfold opens_below_max; simpl; rewrite Hop5; exact Ho3|].
    eapply contains_trans; [exact Hc03 | exact Hc5]. }
  destruct (negb _); [apply Hres|].
  destruct (fout st5); [|exact I].
  specialize (Hres (bytes "done" ++ [x0a])). exact Hres.
Qed.

(** [processFile] with a budget of [11 - depth] levels ends well. *)
Lemma processFile_ends (fuel : nat) : ∀ (name : list byte) (st : state),
  0 ≤ depth st ≤ 10 → opens_below_max st →
  (11 - Z.to_nat (depth st) ≤ fuel)%nat →
  ends_well st (processFile fs prefix svgfilename fuel name st).
Proof.
  induction fuel as [|fuel IH]; intros name st Hd Ho Hf; [lia|].
  cbn [processFile]. apply processBody_ends; [|exact Hd | exact Ho].
  intros name' st' Hd' Ho'. apply IH; [lia | exact Ho' | lia].
Qed.


(** The depth guard.  A call of [processFile] at a depth from 0 to 10 never
    nests more than [11 - depth] calls, whatever the files are and whatever
    they include; a call at depth 10 returns 0 at once, with the warning as
    its only effect (no file is opened or read); and when a call returns,
    the depth is at most 10 and every file was opened at a depth from 0 to
    9.  A call need not return: the references met on the way may overrun
    the dump list. *)
Theorem processFile_depth_bounded (fuel : nat) (name : list byte) (st : state) :
  0 ≤ depth st ≤ 10 → opens_below_max st →
  (11 - Z.to_nat (depth st) ≤ fuel)%nat →
  processFile fs prefix svgfilename fuel name st ≠ OutOfFuel
  ∧ (depth st = 10 →
     processFile fs prefix svgfilename fuel name st
     = Ret (0, printf (bytes "warning : MAX DEPTH reached, not going deeper" ++ [x0a]) st))
  ∧ (∀ r st', processFile fs prefix svgfilename fuel name st = Ret (r, st') →
              depth st ≤ depth st' ≤ 10 ∧ opens_below_max st').
Proof.
  intros Hd Ho Hf. pose proof (processFile_ends fuel name st Hd Ho Hf) as He.
  split; [|split].
  - intros E. rewrite E in He. exact He.
  - intros E. destruct fuel as [|fuel]; [lia|].
    cbn [processFile]. unfold processBody. rewrite E. reflexivity.
  - intros r st' E. rewrite E in He. destruct He as (? & ? & _). split; assumption.
Qed.

(** From the initial globals, as [main] calls it: the viewport that is left
    contains the square from (0, 0) to (1, 1). *)
Lemma processFile_viewport (fuel : nat) (name : list byte) (r : Z) (st' : state) :
  (11 ≤ fuel)%nat →
  processFile fs prefix svgfilename fuel name init = Ret (r, st') →
  viewMinX st' ≤ 0 ∧ viewMinY st' ≤ 0 ∧ 1 ≤ viewMaxX st' ∧ 1 ≤ viewMaxY st'.
Proof.
  intros Hf E.
  assert (Ho : opens_below_max init) by constructor.
  pose proof (processFile_ends fuel name init ltac:(simpl; lia) Ho ltac:(simpl; lia)) as He.
  rewrite E in He. destruct He as (_ & _ & Hc). unfold contains in Hc. simpl in Hc. lia.
Qed.

End Recursion.

Section AssemblerInstances.
Import C Vecass VecassSpec.

(** C9 (code of the viewport patch against the claim).  The text of four
    bounds of seven digits has 35 characters; [sprintf] puts it, with its
    terminator, into the 30 bytes of [buf], which is behaviour the C standard
    does not define: no patch of 26 bytes is there to speak of.  The
    assembler gets there on a fragment with such a viewbox.  And a text of 27
    characters is cut after 26, in the assembler and in the Type 2 decoder
    (here for points at the ends of the 32-bit range): the patch ends without
    the closing quote. *)
Theorem viewbox_text_exceeds_buffer :
  length (viewboxText (-1000000) (-1000000) 1000000 1000000) = 35%nat
  ∧ setViewbox (fwrite header_line fopen_w) (-1000000) (-1000000) 1000000 1000000 = Undefined
  ∧ @dumpFromList Examples.host Examples.Assembler.wideFiles []
      Examples.Assembler.oneFragment = Undefined
  ∧ setViewbox (fwrite header_line fopen_w) (-32768) (-32768) 32768 32768
    = Ret (0, mkFILE (bytes "<svg viewBox=" ++ [x22] ++ bytes "-32768 -32768 32768 32768"
                        ++ drop 39 header_line) 109)
  ∧ Ubvff2.dumpSVGSetViewbox (-2147483648) (-2147483648) 2147483647 2147483647
      (Ubvff2.mkEmitter true Ubvff2.DUMPSTATE_AFTER_FOOTER (fwrite Ubvff2.header_line fopen_w))
    = Ret (0, Ubvff2.mkEmitter true Ubvff2.DUMPSTATE_AFTER_FOOTER
                (mkFILE (bytes "<svg viewBox=" ++ [x22] ++ bytes "-32768 -32768 32768 32768"
                           ++ drop 39 Ubvff2.header_line) 109)).
Proof. split; [|split; [|split; [|split]]]; vm_compute; reflexivity. Qed.

Lemma composite_viewbox_contains_initial_witness :
  (viewMinX Examples.Assembler.oneFragment = viewMinX init
   ∧ viewMinY Examples.Assembler.oneFragment = viewMinY init
   ∧ viewMaxX Examples.Assembler.oneFragment = viewMaxX init
   ∧ viewMaxY Examples.Assembler.oneFragment = viewMaxY init)
  ∧ match @dumpFromList Examples.host Examples.Assembler.fragmentFiles []
            Examples.Assembler.oneFragment with
    | Ret (rc, st') =>
        rc = 0
        ∧ (viewMinX st', viewMinY st', viewMaxX st', viewMaxY st') = (-5, -3, 12, 10)
        ∧ viewMinX st' ≤ 0 ∧ viewMinY st' ≤ 0 ∧ 1 ≤ viewMaxX st' ∧ 1 ≤ viewMaxY st'
    | _ => False
    end.
Proof.
  split; [vm_compute; auto|].
  destruct (@dumpFromList Examples.host Examples.Assembler.fragmentFiles []
              Examples.Assembler.oneFragment) as [[rc st']| |] eqn:E;
    try (vm_compute in E; discriminate).
  destruct (@composite_viewbox_contains_initial Examples.host
              Examples.Assembler.fragmentFiles [] Examples.Assembler.oneFragment rc st')
    as (_ & H1 & H2 & H3 & H4 & _); try reflexivity; [exact E|].
  vm_compute in E. injection E as <- <-.
  split; [reflexivity|]. split; [reflexivity|]. auto.
Defined.

Lemma processFile_depth_bounded_witness :
  (0 ≤ depth init ≤ 10 ∧ opens_below_max init ∧ (11 - Z.to_nat (depth init) ≤ 11)%nat)
  ∧ @processFile Examples.host Examples.Assembler.cyclicFiles [] (bytes "out.svg") 11
      (bytes "00001.bin") init ≠ OutOfFuel.
Proof.
  assert (Hd : 0 ≤ depth init ≤ 10) by (vm_compute; split; congruence).
  assert (Ho : opens_below_max init) by constructor.
  assert (Hf : (11 - Z.to_nat (depth init) ≤ 11)%nat) by (vm_compute; lia).
  split; [auto|].
  apply (@processFile_depth_bounded Examples.host Examples.Assembler.cyclicFiles []
           (bytes "out.svg") 11 (bytes "00001.bin") init Hd Ho Hf).
Defined.

(** The run on the file that includes itself: ten files are opened, at the
    depths 0 to 9, the call at depth 10 returns, and every level returns 0. *)
Lemma cyclic_include_run :
  match @processFile Examples.host Examples.Assembler.cyclicFiles [] (bytes "out.svg") 11
          (bytes "00001.bin") init with
  | Ret (r, st') =>
      r = 0 ∧ depth st' = 0 ∧ (snd <$> opened st') = [0; 1; 2; 3; 4; 5; 6; 7; 8; 9]
  | _ => False
  end.
Proof. vm_compute. auto. Qed.

(** C7 (code of the recursion against the claim).  The depth guard bounds
    the nesting of the includes, not the number of references they hand to
    [addToDumpList], whose test of [dumpListPos] comes after the store and
    stops nothing.  A group file that includes a reference file twelve times
    and then itself is scanned at the depths 0 to 8 and meets 108
    references: the 101st is stored at [dumpList[100]], past the end of the
    array, which is behaviour the C standard does not define, and of the
    recursion from there on no end can be stated, for [processFile] as for
    [main].  With eleven includes of the reference file the same cycle
    meets 99 references and the call returns 0 at depth 0, with no file
    opened below depth 9. *)
Theorem include_cycle_overruns_dump_list :
  addToDumpList 7 1 (set_dump (dumpList init) 100 init) = Undefined
  ∧ @processFile Examples.host (Samples.Assembler.fanFiles 12) [] (bytes "output.svg") 11
      (bytes "00001.bin") init = Undefined
  ∧ @VecassMain.main Examples.host (Samples.Assembler.fanFiles 12)
      [bytes "vecass"; bytes "00001.bin"; bytes "out.svg"] = Undefined
  ∧ match @processFile Examples.host (Samples.Assembler.fanFiles 11) []
            (bytes "output.svg") 11 (bytes "00001.bin") init with
    | Ret (r, st') =>
        r = 0 ∧ depth st' = 0 ∧ dumpListPos st' = 99%nat
        ∧ list_max (Z.to_nat ∘ snd <$> opened st') = 9%nat
    | _ => False
    end.
Proof.
  split; [reflexivity|]. split; [vm_compute; reflexivity|].
  split; [vm_compute; reflexivity|]. vm_compute. auto.
Qed.

End AssemblerInstances.

(** ** Byte order *)

Section ByteOrder.
Import C Reader.

(** Bits below [k] of [a] are all zero, [w] has no bit from [k] on. *)
Lemma land_disjoint (k a w : Z) :
  0 ≤ k → a mod 2 ^ k = 0 → 0 ≤ w < 2 ^ k → Z.land a w = 0.
Proof.
  intros Hk Ha Hw. apply Z.bits_inj'. intros n Hn.
  rewrite Z.land_spec, Z.bits_0.
  destruct (Z.lt_ge_cases n k) as [Hlt|Hge].
  - replace (Z.testbit a n) with (Z.testbit (a mod 2 ^ k) n)
      by (apply Z.mod_pow2_bits_low; lia).
    rewrite Ha, Z.bits_0. reflexivity.
  - replace (Z.testbit w n) with (Z.testbit (w mod 2 ^ k) n)
      by (f_equal; apply Z.mod_small; lia).
    rewrite Z.mod_pow2_bits_high by lia. apply andb_false_r.
Qed.

Lemma lor_disjoint (k hi lo : Z) :
  0 ≤ k → 0 ≤ lo < 2 ^ k → Z.lor (hi * 2 ^ k) lo = hi * 2 ^ k + lo.
Proof.
  intros Hk Hlo. rewrite <- Z.add_lor_land.
  rewrite (land_disjoint k) by (try apply Z.mod_mul; lia). lia.
Qed.

(** A mask of [m] ones at bit [k] takes the [m] bits from bit [k] on. *)
Lemma land_mask (x k m : Z) :
  0 ≤ k → 0 ≤ m →
  Z.land x (Z.shiftl (Z.ones m) k) = ((x / 2 ^ k) mod 2 ^ m) * 2 ^ k.
Proof.
  intros Hk Hm.
  rewrite <- Z.shiftl_mul_pow2, <- Z.land_ones, <- Z.shiftr_div_pow2 by lia.
  apply Z.bits_inj'. intros n Hn.
  rewrite Z.land_spec.
  destruct (Z.lt_ge_cases n k) as [Hlt|Hge].
  - rewrite !Z.shiftl_spec_low by lia. apply andb_false_r.
  - rewrite !Z.shiftl_spec by lia. rewrite Z.land_spec, Z.shiftr_spec by lia.
    replace (n - k + k) with n by lia. reflexivity.
Qed.

Lemma bytes_split (lo hi : Z) :
  0 ≤ lo < 256 → (lo + 256 * hi) mod 256 = lo ∧ (lo + 256 * hi) / 256 = hi.
Proof.
  intros Hlo. split.
  - symmetry. apply (Z.mod_unique_pos _ _ hi); lia.
  - symmetry. apply (Z.div_unique_pos _ _ hi lo); lia.
Qed.

(** The four bytes of a 32-bit value given by its bytes, low one first. *)
Lemma byte_of_word (c0 c1 c2 c3 : Z) :
  0 ≤ c0 < 256 → 0 ≤ c1 < 256 → 0 ≤ c2 < 256 → 0 ≤ c3 < 256 →
  let x := c0 + 256 * c1 + 65536 * c2 + 16777216 * c3 in
  (x / 2 ^ 0) mod 2 ^ 8 = c0 ∧ (x / 2 ^ 8) mod 2 ^ 8 = c1
  ∧ (x / 2 ^ 16) mod 2 ^ 8 = c2 ∧ (x / 2 ^ 24) mod 2 ^ 8 = c3
  ∧ (x / 2 ^ 0) mod 2 ^ 16 = c0 + 256 * c1 ∧ (x / 2 ^ 16) mod 2 ^ 16 = c2 + 256 * c3.
Proof.
  intros H0 H1 H2 H3 x. unfold x.
  change (2 ^ 0) with 1. change (2 ^ 8) with 256. change (2 ^ 16) with 65536.
  change (2 ^ 24) with 16777216. rewrite !Z.div_1_r.
  repeat split.
  - symmetry. apply (Z.mod_unique_pos _ _ (c1 + 256 * c2 + 65536 * c3)); lia.
  - assert (E : (c0 + 256 * c1 + 65536 * c2 + 16777216 * c3) / 256 = c1 + 256 * c2 + 65536 * c3)
      by (symmetry; apply (Z.div_unique_pos _ _ _ c0); lia).
    rewrite E. symmetry. apply (Z.mod_unique_pos _ _ (c2 + 256 * c3)); lia.
  - assert (E : (c0 + 256 * c1 + 65536 * c2 + 16777216 * c3) / 65536 = c2 + 256 * c3)
      by (symmetry; apply (Z.div_unique_pos _ _ _ (c0 + 256 * c1)); lia).
    rewrite E. symmetry. apply (Z.mod_unique_pos _ _ c3); lia.
  - assert (E : (c0 + 256 * c1 + 65536 * c2 + 16777216 * c3) / 16777216 = c3)
      by (symmetry; apply (Z.div_unique_pos _ _ _ (c0 + 256 * c1 + 65536 * c2)); lia).
    rewrite E. apply Z.mod_small. lia.
  - symmetry. apply (Z.mod_unique_pos _ _ (c2 + 256 * c3)); lia.
  - assert (E : (c0 + 256 * c1 + 65536 * c2 + 16777216 * c3) / 65536 = c2 + 256 * c3)
      by (symmetry; apply (Z.div_unique_pos _ _ _ (c0 + 256 * c1)); lia).
    rewrite E. apply Z.mod_small. lia.
Qed.

Lemma shiftr_mask (x k m : Z) :
  0 ≤ k → 0 ≤ m →
  Z.shiftr (Z.land x (Z.shiftl (Z.ones m) k)) k = (x / 2 ^ k) mod 2 ^ m.
Proof.
  intros Hk Hm. rewrite land_mask by lia. rewrite Z.shiftr_div_pow2 by lia.
  apply Z.div_mul. lia.
Qed.

Lemma lor_sum (k q lo p : Z) :
  p = 2 ^ k → 0 ≤ k → 0 ≤ lo < p → Z.lor (q * p) lo = q * p + lo.
Proof. intros -> Hk Hlo. apply lor_disjoint; assumption. Qed.

(** The swaps on a value given by its bytes, low one first. *)
Lemma reverseByteOrder2_bytes (c0 c1 : Z) :
  0 ≤ c0 < 256 → 0 ≤ c1 < 256 →
  reverseByteOrder2 (c0 + 256 * c1) = c1 + 256 * c0.
Proof.
  intros H0 H1. unfold reverseByteOrder2, uint16, wrapu.
  change 0xFF with (Z.shiftl (Z.ones 8) 0). change 0xFF00 with (Z.shiftl (Z.ones 8) 8).
  rewrite shiftr_mask, land_mask by lia.
  destruct (byte_of_word c0 c1 0 0 H0 H1 ltac:(lia) ltac:(lia)) as (E0 & E1 & _).
  replace (c0 + 256 * c1 + 65536 * 0 + 16777216 * 0) with (c0 + 256 * c1) in * by lia.
  rewrite E0, E1. change (2 ^ 0) with 1. rewrite Z.mul_1_r.
  rewrite Z.shiftl_mul_pow2 by lia. change (2 ^ 8) with 256. change (2 ^ 16) with 65536.
  rewrite Z.mod_small by lia.
  rewrite (lor_sum 8 c0 c1 256) by (try reflexivity; lia). lia.
Qed.

Lemma reverseByteOrder4_bytes (c0 c1 c2 c3 : Z) :
  0 ≤ c0 < 256 → 0 ≤ c1 < 256 → 0 ≤ c2 < 256 → 0 ≤ c3 < 256 →
  reverseByteOrder4 (c0 + 256 * c1 + 65536 * c2 + 16777216 * c3)
  = c3 + 256 * c2 + 65536 * c1 + 16777216 * c0.
Proof.
  intros H0 H1 H2 H3. unfold reverseByteOrder4, uint32, wrapu.
  destruct (byte_of_word _ _ _ _ H0 H1 H2 H3) as (E0 & E1 & E2 & E3 & _).
  set (x := c0 + 256 * c1 + 65536 * c2 + 16777216 * c3) in *.
  change 0x000000FF with (Z.shiftl (Z.ones 8) 0).
  change 0x0000FF00 with (Z.shiftl (Z.ones 8) 8).
  change 0x00FF0000 with (Z.shiftl (Z.ones 8) 16).
  change 0xFF000000 with (Z.shiftl (Z.ones 8) 24).
  rewrite (shiftr_mask x 24 8) by lia.
  rewrite !land_mask by lia. rewrite E0, E1, E2, E3.
  rewrite !Z.shiftl_mul_pow2, Z.shiftr_div_pow2 by lia.
  change (2 ^ 0) with 1. change (2 ^ 8) with 256. change (2 ^ 16) with 65536.
  change (2 ^ 24) with 16777216. change (2 ^ 32) with 4294967296.
  rewrite Z.mul_1_r. rewrite Z.mod_small by lia. rewrite Z.lor_0_l.
  replace (c2 * 65536 / 256) with (c2 * 256)
    by (apply (Z.div_unique_pos _ _ _ 0); lia).
  replace (c1 * 256 * 256) with (c1 * 65536) by lia.
  rewrite (lor_sum 24 c0 (c1 * 65536) 16777216) by (try reflexivity; lia).
  replace (c0 * 16777216 + c1 * 65536) with ((c0 * 256 + c1) * 65536) by lia.
  rewrite (lor_sum 16 _ (c2 * 256) 65536) by (try reflexivity; lia).
  replace ((c0 * 256 + c1) * 65536 + c2 * 256)
    with ((c0 * 65536 + c1 * 256 + c2) * 256) by lia.
  rewrite (lor_sum 8 _ c3 256) by (try reflexivity; lia).
  lia.
Qed.

Lemma reverseByteMixed_bytes (c0 c1 c2 c3 : Z) :
  0 ≤ c0 < 256 → 0 ≤ c1 < 256 → 0 ≤ c2 < 256 → 0 ≤ c3 < 256 →
  reverseByteMixed (c0 + 256 * c1 + 65536 * c2 + 16777216 * c3)
  = c1 + 256 * c0 + 65536 * c3 + 16777216 * c2.
Proof.
  intros H0 H1 H2 H3. unfold reverseByteMixed, uint32, wrapu.
  destruct (byte_of_word _ _ _ _ H0 H1 H2 H3) as (E0 & E1 & E2 & E3 & _).
  set (x := c0 + 256 * c1 + 65536 * c2 + 16777216 * c3) in *.
  change 0x000000FF with (Z.shiftl (Z.ones 8) 0).
  change 0x0000FF00 with (Z.shiftl (Z.ones 8) 8).
  change 0x00FF0000 with (Z.shiftl (Z.ones 8) 16).
  change 0xFF000000 with (Z.shiftl (Z.ones 8) 24).
  rewrite !land_mask by lia. rewrite E0, E1, E2, E3.
  rewrite !Z.shiftl_mul_pow2, !Z.shiftr_div_pow2 by lia.
  change (2 ^ 0) with 1. change (2 ^ 8) with 256. change (2 ^ 16) with 65536.
  change (2 ^ 24) with 16777216. change (2 ^ 32) with 4294967296.
  rewrite Z.mul_1_r. rewrite Z.mod_small by lia. rewrite Z.lor_0_l.
  replace (c1 * 256 / 256) with c1 by (apply (Z.div_unique_pos _ _ _ 0); lia).
  replace (c3 * 16777216 / 256) with (c3 * 65536)
    by (apply (Z.div_unique_pos _ _ _ 0); lia).
  rewrite (lor_sum 8 c0 c1 256) by (try reflexivity; lia).
  rewrite <- Z.lor_assoc.
  replace (c2 * 65536 * 256) with (c2 * 16777216) by lia.
  rewrite (lor_sum 24 c2 (c3 * 65536) 16777216) by (try reflexivity; lia).
  rewrite Z.lor_comm.
  replace (c2 * 16777216 + c3 * 65536) with ((c2 * 256 + c3) * 65536) by lia.
  rewrite (lor_sum 16 _ (c0 * 256 + c1) 65536) by (try reflexivity; lia).
  lia.
Qed.

Lemma reverseByteMixedForBigEndian_halves (lo hi : Z) :
  0 ≤ lo < 65536 → 0 ≤ hi < 65536 →
  reverseByteMixedForBigEndian (lo + 65536 * hi) = hi + 65536 * lo.
Proof.
  intros Hlo Hhi. unfold reverseByteMixedForBigEndian, uint32, wrapu.
  set (x := lo + 65536 * hi).
  assert (E0 : (x / 2 ^ 0) mod 2 ^ 16 = lo).
  { change (2 ^ 0) with 1. rewrite Z.div_1_r. symmetry.
    apply (Z.mod_unique_pos _ _ hi); unfold x; change (2 ^ 16) with 65536; lia. }
  assert (E1 : (x / 2 ^ 16) mod 2 ^ 16 = hi).
  { change (2 ^ 16) with 65536.
    replace (x / 65536) with hi by (apply (Z.div_unique_pos _ _ _ lo); unfold x; lia).
    apply Z.mod_small. lia. }
  change 0x0000FFFF with (Z.shiftl (Z.ones 16) 0).
  change 0xFFFF0000 with (Z.shiftl (Z.ones 16) 16).
  rewrite (shiftr_mask x 16 16) by lia. rewrite land_mask by lia. rewrite E0, E1.
  rewrite Z.shiftl_mul_pow2 by lia.
  change (2 ^ 0) with 1. change (2 ^ 16) with 65536. change (2 ^ 32) with 4294967296.
  rewrite Z.mul_1_r. rewrite Z.mod_small by lia. rewrite Z.lor_0_l.
  rewrite (lor_sum 16 _ hi 65536) by (try reflexivity; lia). lia.
Qed.

(** X4.  The byte swaps undo themselves: swapping a 16-bit value twice with
    [reverseByteOrder2], or a 32-bit value twice with [reverseByteOrder4] or
    with [reverseByteMixed], gives the value back. *)
Theorem byte_swaps_are_involutions (v w : Z) :
  0 ≤ v < 65536 → 0 ≤ w < 4294967296 →
  reverseByteOrder2 (reverseByteOrder2 v) = v
  ∧ reverseByteOrder4 (reverseByteOrder4 w) = w
  ∧ reverseByteMixed (reverseByteMixed w) = w.
Proof.
  intros Hv Hw.
  pose proof (Z.div_mod v 256 ltac:(lia)) as Dv.
  pose proof (Z.mod_pos_bound v 256 ltac:(lia)) as Bv.
  assert (Bv1 : 0 ≤ v / 256 < 256)
    by (split; [apply Z.div_pos; lia | apply Z.div_lt_upper_bound; lia]).
  set (c0 := w mod 256). set (c1 := (w / 256) mod 256).
  set (c2 := (w / 65536) mod 256). set (c3 := w / 16777216).
  assert (B0 : 0 ≤ c0 < 256) by (apply Z.mod_pos_bound; lia).
  assert (B1 : 0 ≤ c1 < 256) by (apply Z.mod_pos_bound; lia).
  assert (B2 : 0 ≤ c2 < 256) by (apply Z.mod_pos_bound; lia).
  assert (B3 : 0 ≤ c3 < 256)
    by (split; [apply Z.div_pos; lia | apply Z.div_lt_upper_bound; lia]).
  assert (Ew : w = c0 + 256 * c1 + 65536 * c2 + 16777216 * c3).
  { unfold c0, c1, c2, c3.
    replace (w / 65536) with (w / 256 / 256) by (rewrite Z.div_div by lia; reflexivity).
    replace (w / 16777216) with (w / 256 / 256 / 256) by (rewrite !Z.div_div by lia; reflexivity).
    pose proof (Z.div_mod w 256 ltac:(lia)).
    pose proof (Z.div_mod (w / 256) 256 ltac:(lia)).
    pose proof (Z.div_mod (w / 256 / 256) 256 ltac:(lia)).
    lia. }
  split; [|split].
  - rewrite Dv at 1. rewrite (Z.add_comm _ (v mod 256)).
    rewrite reverseByteOrder2_bytes by lia. rewrite reverseByteOrder2_bytes by lia. lia.
  - rewrite Ew. rewrite !reverseByteOrder4_bytes by lia. reflexivity.
  - rewrite Ew. rewrite reverseByteMixed_bytes by lia.
    rewrite reverseByteMixed_bytes by lia. reflexivity.
Qed.

Lemma byte_swaps_are_involutions_witness :
  (0 ≤ 0x1234 < 65536 ∧ 0 ≤ 0x01234567 < 4294967296)
  ∧ reverseByteOrder2 0x1234 = 0x3412
  ∧ reverseByteOrder4 0x01234567 = 0x67452301
  ∧ reverseByteMixed 0x01234567 = 0x23016745
  ∧ reverseByteOrder4 (reverseByteOrder4 0x01234567) = 0x01234567.
Proof.
  split; [lia|]. split; [reflexivity|]. split; [reflexivity|]. split; [reflexivity|].
  apply (byte_swaps_are_involutions 0x1234 0x01234567); lia.
Defined.

Section Readers.
Context `{Host}.

(** X1.  [bo_fread] of a 16-bit item gives the big-endian value of the two
    bytes of the file, whatever the byte order of the host. *)
Theorem bo_read16_big_endian (b0 b1 : byte) :
  bo_read16 b0 b1 = 256 * byteZ b0 + byteZ b1.
Proof.
  pose proof (byteZ_range b0) as H0. pose proof (byteZ_range b1) as H1.
  unfold bo_read16, load16. destruct littleEndian; [|reflexivity].
  rewrite reverseByteOrder2_bytes by lia. lia.
Qed.

(** X2.  [bo_fread] of a 32-bit item in ubvff1.c and vecass.c gives the
    big-endian value of the four bytes of the file, whatever the byte order
    of the host. *)
Theorem bo_read32_big_endian (b0 b1 b2 b3 : byte) :
  bo_read32 b0 b1 b2 b3
  = 16777216 * byteZ b0 + 65536 * byteZ b1 + 256 * byteZ b2 + byteZ b3.
Proof.
  pose proof (byteZ_range b0) as H0. pose proof (byteZ_range b1) as H1.
  pose proof (byteZ_range b2) as H2. pose proof (byteZ_range b3) as H3.
  unfold bo_read32, load32. destruct littleEndian; [|reflexivity].
  rewrite reverseByteOrder4_bytes by lia. lia.
Qed.

(** X3.  [bo_fread] of a 32-bit item in ubvff2.c: the first two bytes of the
    file are the low half of the value and the last two its high half, each
    half big-endian, whatever the byte order of the host. *)
Theorem bo_read32_mixed_halves (b0 b1 b2 b3 : byte) :
  bo_read32_mixed b0 b1 b2 b3
  = 65536 * (256 * byteZ b2 + byteZ b3) + (256 * byteZ b0 + byteZ b1).
Proof.
  pose proof (byteZ_range b0) as H0. pose proof (byteZ_range b1) as H1.
  pose proof (byteZ_range b2) as H2. pose proof (byteZ_range b3) as H3.
  unfold bo_read32_mixed, load32. destruct littleEndian.
  - rewrite reverseByteMixed_bytes by lia. lia.
  - replace (16777216 * byteZ b0 + 65536 * byteZ b1 + 256 * byteZ b2 + byteZ b3)
      with ((256 * byteZ b2 + byteZ b3) + 65536 * (256 * byteZ b0 + byteZ b1)) by lia.
    rewrite reverseByteMixedForBigEndian_halves by lia. lia.
Qed.

End Readers.
End ByteOrder.

(** ** The viewport of the Type 2 decoder *)

Section Viewport2.
Import C Reader Ubvff2.
Context `{Host}.

(** The box [b] lies within the box [a]. *)
Lemma foldView_widens (i : nat) (v : Z) (a0 a1 a2 a3 : Z) :
  a0 ≤ a2 → a1 ≤ a3 →
  match foldView i v (a0, a1, a2, a3) with
  | (b0, b1, b2, b3) =>
      b0 ≤ a0 ∧ b1 ≤ a1 ∧ a2 ≤ b2 ∧ a3 ≤ b3
      ∧ (if Nat.even i then b0 ≤ v ≤ b2 else b1 ≤ v ≤ b3)
  end.
Proof.
  intros Hx Hy. unfold foldView. destruct (Nat.even i).
  - destruct (Z.gtb_spec v a2); [lia|]. destruct (Z.ltb_spec v a0); lia.
  - destruct (Z.gtb_spec v a3); [lia|]. destruct (Z.ltb_spec v a1); lia.
Qed.

Lemma foldViews_widens (vs : list Z) : ∀ (i : nat) (a0 a1 a2 a3 : Z),
  a0 ≤ a2 → a1 ≤ a3 →
  match foldViews i vs (a0, a1, a2, a3) with
  | (b0, b1, b2, b3) =>
      b0 ≤ a0 ∧ b1 ≤ a1 ∧ a2 ≤ b2 ∧ a3 ≤ b3
      ∧ ∀ (k : nat) (v : Z), vs !! k = Some v →
          if Nat.even (i + k) then b0 ≤ v ≤ b2 else b1 ≤ v ≤ b3
  end.
Proof.
  induction vs as [|v vs IH]; intros i a0 a1 a2 a3 Hx Hy; cbn [foldViews].
  - repeat split; try lia. intros k w Hk. discriminate.
  - pose proof (foldView_widens i v a0 a1 a2 a3 Hx Hy) as Hf.
    destruct (foldView i v (a0, a1, a2, a3)) as [[[c0 c1] c2] c3].
    destruct Hf as (F0 & F1 & F2 & F3 & Fv).
    specialize (IH (S i) c0 c1 c2 c3 ltac:(lia) ltac:(lia)).
    destruct (foldViews (S i) vs (c0, c1, c2, c3)) as [[[b0 b1] b2] b3].
    destruct IH as (I0 & I1 & I2 & I3 & Iv).
    repeat split; try lia.
    intros [|k] w Hk.
    + injection Hk as <-. rewrite Nat.add_0_r. destruct (Nat.even i); lia.
    + replace (i + S k)%nat with (S i + k)%nat by lia. apply Iv. exact Hk.
Qed.

Lemma points_of_lookup (vs : list Z) : ∀ (k : nat) (p : BIN_POINT),
  points_of vs !! k = Some p →
  vs !! (2 * k)%nat = Some (x p) ∧ vs !! (2 * k + 1)%nat = Some (y p).
Proof.
  assert (G : ∀ (n : nat) (vs : list Z), (length vs ≤ n)%nat →
            ∀ (k : nat) (p : BIN_POINT), points_of vs !! k = Some p →
            vs !! (2 * k)%nat = Some (x p) ∧ vs !! (2 * k + 1)%nat = Some (y p)).
  { induction n as [|n IH]; intros [|px [|py rest]] Hn k p Hk; try discriminate.
    - simpl in Hn. lia.
    - cbn [points_of] in Hk. destruct k as [|k].
      + injection Hk as <-. split; reflexivity.
      + cbn in Hk. apply IH in Hk; [|simpl in Hn; lia].
        replace (2 * S k)%nat with (S (S (2 * k))) by lia.
        replace (S (S (2 * k)) + 1)%nat with (S (S (2 * k + 1))) by lia.
        exact Hk. }
  exact (G (length vs) vs (le_n _)).
Qed.

(** X5.  The viewport accumulated by [bo_fread] encloses what it had and
    every point of the read: starting from bounds in order, the new bounds
    are in order, contain the old ones, and hold each point read. *)
Theorem viewport_encloses_points (count : nat) (d d' : decoder) (vs : list Z)
        (a0 a1 a2 a3 b0 b1 b2 b3 : Z) :
  view d = (a0, a1, a2, a3) → a0 ≤ a2 → a1 ≤ a3 →
  bo_fread_points count d = Some (vs, d') →
  view d' = (b0, b1, b2, b3) →
  (b0 ≤ a0 ∧ b1 ≤ a1 ∧ a2 ≤ b2 ∧ a3 ≤ b3)
  ∧ ∀ p, p ∈ points_of vs → b0 ≤ x p ≤ b2 ∧ b1 ≤ y p ≤ b3.
Proof.
  intros Hv Hx Hy Hr Hv'. unfold bo_fread_points in Hr.
  destruct (readN read32_mixed count (fin2 d)) as [[ws rest]|]; [|discriminate].
  injection Hr as <- <-. cbn [view with_fin2] in Hv'. rewrite Hv in Hv'.
  pose proof (foldViews_widens (int32 <$> ws) 0 a0 a1 a2 a3 Hx Hy) as Hf.
  rewrite Hv' in Hf. destruct Hf as (F0 & F1 & F2 & F3 & Fv).
  split; [lia|]. intros p Hp.
  apply list_elem_of_lookup in Hp as [k Hk].
  apply points_of_lookup in Hk as [Hkx Hky].
  pose proof (Fv _ _ Hkx) as Gx. pose proof (Fv _ _ Hky) as Gy.
  cbn [Nat.add] in Gx, Gy.
  rewrite Nat.even_mul in Gx. cbn in Gx.
  replace (2 * k + 1)%nat with (S (2 * k)) in Gy by lia.
  rewrite Nat.even_succ, <- Nat.negb_even, Nat.even_mul in Gy. cbn in Gy.
  lia.
Qed.

End Viewport2.

Section NoCrash2.
Import C Reader Ubvff2.

Lemma int32_range (v : Z) : -2147483648 ≤ int32 v ≤ 2147483647.
Proof.
  unfold int32, wraps. change (2 ^ 32) with 4294967296.
  change (2 ^ (32 - 1)) with 2147483648.
  pose proof (Z.mod_pos_bound v 4294967296 ltac:(lia)).
  destruct (Z.ltb_spec (v mod 4294967296) 2147483648); lia.
Qed.

Lemma roundInt_range (v : Z) :
  -2147483648 ≤ v ≤ 2147483647 → -32768 ≤ roundInt v scaleFactor ≤ 32768.
Proof.
  intros Hv. unfold roundInt, scaleFactor. cbv zeta.
  change (Z.quot 65536 4) with 16384.
  pose proof (Z.quot_rem' v 65536) as E.
  destruct (Z.le_gt_cases 0 v) as [Hp|Hn].
  - pose proof (Z.rem_bound_pos v 65536 Hp ltac:(lia)) as R.
    revert E R. generalize (Z.quot v 65536) (Z.rem v 65536). intros q r E R.
    destruct (Z.ltb_spec r 16384); [lia|]. destruct (Z.gtb_spec q 0); lia.
  - pose proof (Z.rem_bound_pos_neg v 65536 ltac:(lia) ltac:(lia)) as R.
    revert E R. generalize (Z.quot v 65536) (Z.rem v 65536). intros q r E R.
    destruct (Z.ltb_spec r 16384); lia.
Qed.

(** A check of [p] on the [n] integers from [start] on, by iteration. *)
Lemma iter_check (p : Z → bool) (n : nat) (start : Z) :
  (Nat.iter n (λ s : Z * bool, (s.1 + 1, s.2 && p s.1)) (start, true)).2 = true →
  ∀ k, start ≤ k < start + Z.of_nat n → p k = true.
Proof.
  set (f := λ s : Z * bool, (s.1 + 1, s.2 && p s.1)).
  assert (G : ∀ m : nat, (Nat.iter m f (start, true)).1 = start + Z.of_nat m
              ∧ ((Nat.iter m f (start, true)).2 = true →
                 ∀ k, start ≤ k < start + Z.of_nat m → p k = true)).
  { induction m as [|m [IH1 IH2]].
    - split; [simpl; lia|]. intros _ k Hk. lia.
    - change (Nat.iter (S m) f (start, true)) with (f (Nat.iter m f (start, true))).
      set (s := Nat.iter m f (start, true)) in *.
      unfold f. cbn [fst snd]. rewrite IH1. split; [lia|].
      intros Hb k Hk. apply andb_true_iff in Hb as [Hb1 Hb2].
      destruct (Z.eq_dec k (start + Z.of_nat m)) as [->|Hne]; [exact Hb2|].
      apply IH2; [exact Hb1|]. lia. }
  intros Hb. apply (G n). exact Hb.
Qed.

Lemma fmt_i_short (v : Z) : -32768 ≤ v ≤ 32768 → (length (fmt_i v) ≤ 6)%nat.
Proof.
  intros Hv.
  apply Nat.leb_le.
  apply (iter_check (λ k, (length (fmt_i k) <=? 6)%nat) (Z.to_nat 65537) (-32768)).
  - vm_compute. reflexivity.
  - rewrite Z2Nat.id by lia. lia.
Qed.

Lemma viewboxText_fits (a b c d : Z) :
  -2147483648 ≤ a ≤ 2147483647 → -2147483648 ≤ b ≤ 2147483647 →
  -2147483648 ≤ c ≤ 2147483647 → -2147483648 ≤ d ≤ 2147483647 →
  (length (viewboxText (roundInt a scaleFactor) (roundInt b scaleFactor)
                       (roundInt c scaleFactor) (roundInt d scaleFactor)) < 30)%nat.
Proof.
  intros Ha Hb Hc Hd. unfold viewboxText. rewrite !length_app. cbn [length].
  pose proof (fmt_i_short _ (roundInt_range a Ha)).
  pose proof (fmt_i_short _ (roundInt_range b Hb)).
  pose proof (fmt_i_short _ (roundInt_range c Hc)).
  pose proof (fmt_i_short _ (roundInt_range d Hd)). lia.
Qed.

End NoCrash2.

Section Type2Run.
Import C Reader Ubvff2 Ubvff2Spec.
Context `{Host}.

Lemma foldView_range (i : nat) (v : Z) (vw : Z * Z * Z * Z) :
  -2147483648 ≤ v ≤ 2147483647 → int32_box vw → int32_box (foldView i v vw).
Proof.
  intros Hv. destruct vw as [[[a b] c] d]. unfold int32_box, foldView.
  intros (Ha & Hb & Hc & Hd).
  destruct (Nat.even i).
  - destruct (v >? c); [tauto|]. destruct (v <? a); tauto.
  - destruct (v >? d); [tauto|]. destruct (v <? b); tauto.
Qed.

Lemma foldViews_range (vs : list Z) : ∀ (i : nat) (vw : Z * Z * Z * Z),
  Forall (λ v, -2147483648 ≤ v ≤ 2147483647) vs → int32_box vw →
  int32_box (foldViews i vs vw).
Proof.
  induction vs as [|v vs IH]; intros i vw Hvs Hvw; [exact Hvw|].
  inversion Hvs; subst. cbn [foldViews]. apply IH; [assumption|].
  apply foldView_range; assumption.
Qed.

Lemma bo_fread_points_range (count : nat) (d d' : decoder) (vs : list Z) :
  bo_fread_points count d = Some (vs, d') → int32_box (view d) →
  int32_box (view d') ∧ em d' = em d.
Proof.
  unfold bo_fread_points. intros Hr Hv.
  destruct (readN read32_mixed count (fin2 d)) as [[ws rest]|]; [|discriminate].
  injection Hr as <- <-. cbn [view with_fin2 em]. split; [|reflexivity].
  apply foldViews_range; [|exact Hv].
  apply Forall_fmap, Forall_forall. intros w _. apply int32_range.
Qed.

Lemma dumpSVGSetViewbox_returns (a b c d : Z) (e : emitter) :
  int32_box (a, b, c, d) →
  ∃ e', dumpSVGSetViewbox a b c d e = Ret (0, e').
Proof.
  intros (Ha & Hb & Hc & Hd). destruct (svgdump e) eqn:Hdump.
  - eexists. apply dumpSVGSetViewbox_in_range; [exact Hdump|].
    apply viewboxText_fits; assumption.
  - unfold dumpSVGSetViewbox. rewrite Hdump. eexists. reflexivity.
Qed.

(** The cases of [step] on the opcode, for goals about [step d]. *)
Ltac step_cases d :=
  unfold step;
  destruct (readN read16 5 (fin1 d)) as [[[|cmd [|w1 [|w2 [|w3 [|w4 [|? ?]]]]]] rest]|];
  cbn [view em with_fin1 with_fin2 with_em with_colors with_stroke with_flags with_counter];
  repeat match goal with
         | |- context [if ?c =? ?k then _ else _] => destruct (c =? k) eqn:?
         end.

Lemma step_view_range (d : decoder) :
  int32_box (view d) →
  match step d with
  | Continue d' | Break d' => int32_box (view d')
  | Crash => False
  end.
Proof.
  intros Hv. step_cases d; try exact Hv.
  - remember (view d) as vw eqn:Ev. destruct vw as [[[a b] c] e].
    destruct (dumpSVGSetViewbox_returns a b c e (dumpSVGFooter (em d)).2 Hv) as [e' ->].
    cbn [view with_em with_counter with_fin1]. rewrite <- Ev. exact Hv.
  - destruct (negb (w1 =? 1)); [exact Hv|].
    destruct (bo_fread_points 2 (with_fin1 rest d)) as [[vs d0]|] eqn:Er; [|exact Hv].
    apply bo_fread_points_range in Er as [Hv' He]; [|exact Hv].
    destruct vs as [|px [|py [|? ?]]]; try exact Hv.
    destruct (dumpSVGStartPath _ (em d0)) as [rc e]. destruct (rc =? 0); exact Hv'.
  - destruct (bo_fread_points _ (with_fin1 rest d)) as [[vs d0]|] eqn:Er; [|exact Hv].
    apply bo_fread_points_range in Er as [Hv' He]; [|exact Hv]. exact Hv'.
  - destruct (negb (Z.rem w1 3 =? 0) || (w1 =? 0)); [exact Hv|].
    destruct (bo_fread_points _ (with_fin1 rest d)) as [[vs d0]|] eqn:Er; [|exact Hv].
    apply bo_fread_points_range in Er as [Hv' He]; [|exact Hv]. exact Hv'.
Qed.

Lemma cmdLoop_view_range (n : nat) : ∀ d : decoder,
  int32_box (view d) → ∃ d', cmdLoop n d = Some d' ∧ int32_box (view d').
Proof.
  induction n as [|n IH]; intros d Hv; cbn [cmdLoop]; [eauto|].
  pose proof (step_view_range d Hv) as Hs.
  destruct (step d) as [d'|d'|]; [|eauto|contradiction].
  apply IH. exact Hs.
Qed.

(** X6.  The Type 2 decoder never writes past the buffer of the viewBox
    patch: the bounds it accumulates are 32-bit values, their rounded text has
    at most 27 characters, so on every input [main] either rejects the files
    or finishes with an exit status. *)
Theorem ubvff2_main_never_crashes (dump : bool) (cmdFile : list byte)
        (pointsFile : Z → option (list byte)) (l : locals) :
  (∃ msg, main dump cmdFile pointsFile l = Rejected msg)
  ∨ (∃ code d, main dump cmdFile pointsFile l = Finished code d).
Proof.
  unfold main.
  destruct (readHeader cmdFile) as [header|]; [|eauto].
  destruct (cmdCount header <=? 10); [eauto|].
  destruct (readFooter cmdFile) as [footer|]; [|eauto].
  destruct (footerCheckFails footer); [eauto|].
  destruct (pointsFile (pfilenum footer)) as [pts|]; [|eauto].
  destruct (readN read16 2 pts); [|eauto].
  match goal with
  | |- context [cmdLoop ?n ?d] =>
      destruct (cmdLoop_view_range n d) as (d' & -> & _)
  end; [|eauto].
  cbn [view int32_box]. lia.
Qed.

Lemma fwrite_at_end (data : list byte) (f : FILE) :
  fpos f = length (contents f) →
  fwrite data f = mkFILE (contents f ++ data) (length (contents f) + length data).
Proof.
  intros Hp. unfold fwrite. rewrite Hp.
  rewrite take_ge, Nat.sub_diag, drop_ge by lia.
  cbn [replicate]. rewrite app_nil_r. reflexivity.
Qed.

Lemma emit_open (text : list byte) (next : SVGDUMP_STATE) (e : emitter) :
  open_doc e → next ≠ DUMPSTATE_BEGIN → next ≠ DUMPSTATE_AFTER_FOOTER →
  open_doc (emit text next e).2.
Proof.
  intros (Hd & _ & _ & Hp & body & Hc) Hn1 Hn2. unfold emit, open_doc.
  cbn [snd svgdump svgDumpState fout]. rewrite fwrite_at_end by exact Hp.
  cbn [fpos contents]. repeat split; try assumption.
  - rewrite length_app. reflexivity.
  - exists (body ++ text). rewrite Hc, <- app_assoc. reflexivity.
Qed.

Ltac open_op :=
  match goal with
  | |- open_doc (if ?c then _ else _).2 => destruct c; open_op
  | |- open_doc (emit _ _ _).2 => apply emit_open; [assumption|discriminate|discriminate]
  | |- open_doc (_, ?e).2 => assumption
  end.

Lemma dumpSVGStartPath_open (p : BIN_POINT) (e : emitter) :
  open_doc e → open_doc (dumpSVGStartPath p e).2.
Proof. intros He. unfold dumpSVGStartPath. cbv zeta. open_op. Qed.

Lemma dumpSVGLine_open (p : BIN_POINT) (e : emitter) :
  open_doc e → open_doc (dumpSVGLine p e).2.
Proof. intros He. unfold dumpSVGLine. open_op. Qed.

Lemma dumpSVGCubic_open (c : BIN_CUBIC) (e : emitter) :
  open_doc e → open_doc (dumpSVGCubic c e).2.
Proof. intros He. unfold dumpSVGCubic. open_op. Qed.

Lemma dumpSVGClosePath_open (e : emitter) :
  open_doc e → open_doc (dumpSVGClosePath e).2.
Proof. intros He. unfold dumpSVGClosePath. open_op. Qed.

Lemma dumpSVGEndPath_open (hf : bool) (fc : BIN_COLOR) (hs : bool) (w : Z) (sc : BIN_COLOR)
      (e : emitter) :
  open_doc e → open_doc (dumpSVGEndPath hf fc hs w sc e).2.
Proof. intros He. unfold dumpSVGEndPath. open_op. Qed.

Lemma lineLoop_open (ps : list BIN_POINT) : ∀ e, open_doc e → open_doc (lineLoop ps e).
Proof.
  induction ps as [|p ps IH]; intros e He; [exact He|]. cbn [lineLoop].
  pose proof (dumpSVGLine_open p e He) as Hl.
  destruct (dumpSVGLine p e) as [rc e']. cbn [snd] in Hl.
  destruct (rc =? 0); [apply IH|]; exact Hl.
Qed.

Lemma cubicLoop_open (cs : list BIN_CUBIC) : ∀ e, open_doc e → open_doc (cubicLoop cs e).
Proof.
  induction cs as [|c cs IH]; intros e He; [exact He|]. cbn [cubicLoop].
  pose proof (dumpSVGCubic_open c e He) as Hl.
  destruct (dumpSVGCubic c e) as [rc e']. cbn [snd] in Hl.
  destruct (rc =? 0); [apply IH|]; exact Hl.
Qed.


(** What a finished run of the loop leaves: [finished_ok vw e]. *)
Lemma open_finished (vw : Z * Z * Z * Z) (e : emitter) :
  open_doc e →
  svgdump e = true ∧ (svgDumpState e = DUMPSTATE_AFTER_FOOTER → closed_doc vw e).
Proof. intros (Hd & _ & Hn & _). split; [exact Hd|]. intros Hs. contradiction. Qed.

Lemma footer_patch (a b c d : Z) (e : emitter) :
  open_doc e → int32_box (a, b, c, d) →
  ∃ e', dumpSVGSetViewbox a b c d (dumpSVGFooter e).2 = Ret (0, e')
        ∧ svgdump e' = true
        ∧ (svgDumpState e' = DUMPSTATE_AFTER_FOOTER → closed_doc (a, b, c, d) e').
Proof.
  intros He (Ha & Hb & Hc & Hd).
  pose proof He as (Hdump & Hn1 & Hn2 & Hp & body & Hbody).
  assert (Hdump' : svgdump (dumpSVGFooter e).2 = true).
  { unfold dumpSVGFooter. rewrite Hdump. cbn [negb].
    destruct (negb (state_eqb (svgDumpState e) DUMPSTATE_AFTER_END_PATH)); exact Hdump. }
  eexists. split; [|split].
  - apply dumpSVGSetViewbox_in_range; [exact Hdump'|].
    apply viewboxText_fits; assumption.
  - reflexivity.
  - cbn [svgDumpState]. unfold dumpSVGFooter. rewrite Hdump. cbn [negb].
    destruct (negb (state_eqb (svgDumpState e) DUMPSTATE_AFTER_END_PATH));
      cbn [snd]; [intros Hs; contradiction|intros _].
    unfold closed_doc, emit. cbn [snd fout contents viewboxField].
    rewrite (fwrite_at_end _ (fout e)) by exact Hp.
    unfold fseek_set, fwrite. cbn [contents fpos]. rewrite Hbody.
    exists body.
    set (field := take 26 _).
    assert (Hf : length field = 26%nat).
    { unfold field. rewrite length_take, length_app, length_replicate. lia. }
    rewrite Hf.
    assert (Hh : (length header_line = 109)%nat) by reflexivity.
    rewrite <- !app_assoc.
    rewrite take_app_le by lia.
    replace (13 - length (header_line ++ body ++ bytes "</svg>" ++ [x0a]))%nat with 0%nat
      by (rewrite length_app; lia).
    cbn [replicate app]. rewrite drop_app_le by lia. reflexivity.
Qed.

Lemma step_open (d : decoder) :
  open_doc (em d) → int32_box (view d) →
  match step d with
  | Continue d' => open_doc (em d') ∧ int32_box (view d')
  | Break d' =>
      svgdump (em d') = true
      ∧ (svgDumpState (em d') = DUMPSTATE_AFTER_FOOTER → closed_doc (view d') (em d'))
  | Crash => False
  end.
Proof.
  intros He Hv. step_cases d;
    try (split; [exact He|exact Hv]); try (apply open_finished; exact He).
  - remember (view d) as vw eqn:Ev. destruct vw as [[[a b] c] e].
    destruct (footer_patch a b c e (em d) He Hv) as (e' & -> & Hd' & Hc').
    cbn [view em with_em with_counter with_fin1]. rewrite <- Ev. split; assumption.
  - destruct (negb (w1 =? 1)); [apply open_finished; exact He|].
    destruct (bo_fread_points 2 (with_fin1 rest d)) as [[vs d0]|] eqn:Er;
      [|apply open_finished; exact He].
    apply bo_fread_points_range in Er as [Hv' Hem]; [|exact Hv].
    cbn [em with_fin1] in Hem.
    destruct vs as [|px [|py [|? ?]]]; try (apply open_finished; exact He).
    pose proof (dumpSVGStartPath_open (mkPoint px py) (em d0)) as Ho.
    rewrite Hem in Ho. specialize (Ho He). rewrite <- Hem in Ho.
    destruct (dumpSVGStartPath _ (em d0)) as [rc e]. cbn [snd] in Ho.
    destruct (rc =? 0); cbn [em view with_em]; [split; assumption|].
    apply open_finished; exact Ho.
  - destruct (bo_fread_points _ (with_fin1 rest d)) as [[vs d0]|] eqn:Er;
      [|apply open_finished; exact He].
    apply bo_fread_points_range in Er as [Hv' Hem]; [|exact Hv].
    cbn [em with_fin1] in Hem. cbn [em view with_em]. split; [|exact Hv'].
    apply lineLoop_open. rewrite Hem. exact He.
  - destruct (negb (Z.rem w1 3 =? 0) || (w1 =? 0)); [apply open_finished; exact He|].
    destruct (bo_fread_points _ (with_fin1 rest d)) as [[vs d0]|] eqn:Er;
      [|apply open_finished; exact He].
    apply bo_fread_points_range in Er as [Hv' Hem]; [|exact Hv].
    cbn [em with_fin1] in Hem. cbn [em view with_em]. split; [|exact Hv'].
    apply cubicLoop_open. rewrite Hem. exact He.
  - split; [|exact Hv]. apply dumpSVGClosePath_open. exact He.
  - split; [|exact Hv]. apply dumpSVGEndPath_open. exact He.
Qed.

Lemma cmdLoop_open (n : nat) : ∀ d : decoder,
  open_doc (em d) → int32_box (view d) →
  ∃ d', cmdLoop n d = Some d'
        ∧ svgdump (em d') = true
        ∧ (svgDumpState (em d') = DUMPSTATE_AFTER_FOOTER → closed_doc (view d') (em d')).
Proof.
  induction n as [|n IH]; intros d He Hv; cbn [cmdLoop].
  - exists d. split; [reflexivity|]. apply open_finished. exact He.
  - pose proof (step_open d He Hv) as Hs.
    destruct (step d) as [d'|d'|]; [|eauto|contradiction].
    destruct Hs as [He' Hv']. apply IH; assumption.
Qed.

(** X7.  A run of the Type 2 decoder with the SVG dump on that ends with
    exit status 0 leaves a framed document: the start of the header line, the
    26 bytes of the viewBox field made of the rounded final viewport, the rest
    of the header line, the body, and the closing [</svg>] line. *)
Theorem ubvff2_success_output_framed (cmdFile : list byte)
        (pointsFile : Z → option (list byte)) (l : locals) (d : decoder) :
  main true cmdFile pointsFile l = Finished 0 d →
  ∃ body,
    contents (fout (em d))
    = bytes "<svg viewBox=" ++ viewboxField (view d) ++ drop 39 header_line
        ++ body ++ bytes "</svg>" ++ [x0a].
Proof.
  unfold main.
  destruct (readHeader cmdFile) as [header|]; [|discriminate].
  destruct (cmdCount header <=? 10); [discriminate|].
  destruct (readFooter cmdFile) as [footer|]; [|discriminate].
  destruct (footerCheckFails footer); [discriminate|].
  destruct (pointsFile (pfilenum footer)) as [pts|]; [|discriminate].
  destruct (readN read16 2 pts); [|discriminate].
  match goal with
  | |- context [cmdLoop ?n ?d0] =>
      destruct (cmdLoop_open n d0) as (d' & -> & Hd & Hc)
  end.
  - unfold dumpSVGHeader, emit, open_doc.
    cbn [em svgdump negb svgDumpState state_eqb snd fout].
    rewrite fwrite_at_end by reflexivity. cbn [contents fopen_w fpos app length].
    split; [reflexivity|]. split; [discriminate|]. split; [discriminate|].
    split; [reflexivity|]. exists []. rewrite app_nil_r. reflexivity.
  - cbn [view int32_box]. lia.
  - intros Hm. injection Hm as Hcode <-. apply Hc.
    unfold exitStatus in Hcode. rewrite Hd in Hcode.
    destruct (negb (cmdCounter d' =? cmdCount header)); [discriminate|].
    destruct (svgDumpState (em d')); try discriminate. reflexivity.
Qed.


Lemma lineLoop_off (ps : list BIN_POINT) (e : emitter) :
  svgdump e = false → lineLoop ps e = e.
Proof.
  intros Hd. induction ps as [|p ps IH]; [reflexivity|].
  cbn [lineLoop]. unfold dumpSVGLine. rewrite Hd. cbn. exact IH.
Qed.

Lemma cubicLoop_off (cs : list BIN_CUBIC) (e : emitter) :
  svgdump e = false → cubicLoop cs e = e.
Proof.
  intros Hd. induction cs as [|c cs IH]; [reflexivity|].
  cbn [cubicLoop]. unfold dumpSVGCubic. rewrite Hd. cbn. exact IH.
Qed.

Lemma step_off (d : decoder) :
  svgdump (em d) = false →
  match step d with
  | Continue d' | Break d' => em d' = em d
  | Crash => False
  end.
Proof.
  intros Hd. step_cases d; try reflexivity.
  - destruct (view d) as [[[a b] c] e].
    unfold dumpSVGFooter. rewrite Hd. cbn [negb snd].
    unfold dumpSVGSetViewbox. rewrite Hd. cbn [negb]. reflexivity.
  - destruct (negb (w1 =? 1)); [reflexivity|].
    unfold bo_fread_points. cbn [fin2 with_fin1].
    destruct (readN read32_mixed 2 (fin2 d)) as [[ws rest']|]; [|reflexivity].
    destruct (int32 <$> ws) as [|px [|py [|? ?]]]; try reflexivity.
    cbn [em with_fin2 with_fin1]. unfold dumpSVGStartPath. rewrite Hd. cbn. reflexivity.
  - unfold bo_fread_points. cbn [fin2 with_fin1].
    destruct (readN read32_mixed _ (fin2 d)) as [[ws rest']|]; [|reflexivity].
    cbn [em with_em with_fin2 with_fin1]. apply lineLoop_off. exact Hd.
  - destruct (negb (Z.rem w1 3 =? 0) || (w1 =? 0)); [reflexivity|].
    unfold bo_fread_points. cbn [fin2 with_fin1].
    destruct (readN read32_mixed _ (fin2 d)) as [[ws rest']|]; [|reflexivity].
    cbn [em with_em with_fin2 with_fin1]. apply cubicLoop_off. exact Hd.
  - unfold dumpSVGClosePath. rewrite Hd. reflexivity.
  - unfold dumpSVGEndPath. rewrite Hd. reflexivity.
Qed.

Lemma cmdLoop_off (n : nat) : ∀ d : decoder,
  svgdump (em d) = false → ∃ d', cmdLoop n d = Some d' ∧ em d' = em d.
Proof.
  induction n as [|n IH]; intros d Hd; cbn [cmdLoop]; [eauto|].
  pose proof (step_off d Hd) as Hs.
  destruct (step d) as [d'|d'|]; [|eauto|contradiction].
  destruct (IH (with_counter (uint16 (cmdCounter d' + 1)) d')) as (d2 & -> & E).
  - cbn [em with_counter]. rewrite Hs. exact Hd.
  - exists d2. split; [reflexivity|]. rewrite E. exact Hs.
Qed.

(** X8.  Without the SVG dump the Type 2 decoder writes nothing: when [main]
    gets through the checks of the files, the output is untouched and the
    exit status is 0 exactly when the loop took the number of commands the
    header gives. *)
Theorem ubvff2_no_dump_no_output (cmdFile : list byte)
        (pointsFile : Z → option (list byte)) (l : locals) (code : Z) (d : decoder) :
  main false cmdFile pointsFile l = Finished code d →
  em d = mkEmitter false DUMPSTATE_BEGIN fopen_w
  ∧ ∃ header, readHeader cmdFile = Some header
      ∧ code = (if cmdCounter d =? cmdCount header then 0 else 1).
Proof.
  unfold main.
  destruct (readHeader cmdFile) as [header|]; [|discriminate].
  destruct (cmdCount header <=? 10); [discriminate|].
  destruct (readFooter cmdFile) as [footer|]; [|discriminate].
  destruct (footerCheckFails footer); [discriminate|].
  destruct (pointsFile (pfilenum footer)) as [pts|]; [|discriminate].
  destruct (readN read16 2 pts); [|discriminate].
  match goal with
  | |- context [cmdLoop ?n ?d0] =>
      destruct (cmdLoop_off n d0) as (d' & -> & E); [reflexivity|]
  end.
  intros Hm. injection Hm as <- <-. cbn in E. split; [exact E|].
  exists header. split; [reflexivity|]. unfold exitStatus. rewrite E. cbn [svgdump].
  destruct (cmdCounter d' =? cmdCount header); reflexivity.
Qed.

End Type2Run.

Section Type2Instances.
Import C Reader Ubvff2 Ubvff2Spec.

Lemma viewport_encloses_points_witness :
  let d := Examples.Type2.decoding [] Samples.Type2.twoPoints in
  let vs := [131072; 196608; -65536; 327680] in
  let d' := with_fin2 [] (-65536, 0, 131072, 327680) d in
  (view d = (0, 0, 65536, 65536) ∧ 0 ≤ 65536
   ∧ @bo_fread_points Examples.host 4 d = Some (vs, d')
   ∧ view d' = (-65536, 0, 131072, 327680))
  ∧ (-65536 ≤ 0 ∧ 0 ≤ 0 ∧ 65536 ≤ 131072 ∧ 65536 ≤ 327680)
  ∧ ∀ p, p ∈ points_of vs → -65536 ≤ x p ≤ 131072 ∧ 0 ≤ y p ≤ 327680.
Proof.
  intros d vs d'.
  split; [repeat split; try reflexivity; lia|].
  apply (@viewport_encloses_points Examples.host 4 d d' vs 0 0 65536 65536);
    try reflexivity; lia.
Defined.

Lemma ubvff2_success_output_framed_witness :
  ∃ d, @main Examples.host true Samples.Type2.pathCmds Samples.Type2.pathPoints
         Examples.Type2.locals0 = Finished 0 d
       ∧ view d = (-65536, 0, 131072, 327680)
       ∧ viewboxField (view d) = [x22] ++ bytes "-1 0 2 5" ++ [x22] ++ replicate 16 x20
       ∧ ∃ body,
           contents (fout (em d))
           = bytes "<svg viewBox=" ++ viewboxField (view d) ++ drop 39 header_line
               ++ body ++ bytes "</svg>" ++ [x0a].
Proof.
  eexists. split; [vm_compute; reflexivity|].
  split; [reflexivity|]. split; [vm_compute; reflexivity|].
  apply (@ubvff2_success_output_framed Examples.host Samples.Type2.pathCmds
           Samples.Type2.pathPoints Examples.Type2.locals0).
  vm_compute. reflexivity.
Defined.

Lemma ubvff2_no_dump_no_output_witness :
  ∃ d, @main Examples.host false Samples.Type2.pathCmds Samples.Type2.pathPoints
         Examples.Type2.locals0 = Finished 0 d
       ∧ em d = mkEmitter false DUMPSTATE_BEGIN fopen_w
       ∧ ∃ header, @readHeader Examples.host Samples.Type2.pathCmds = Some header
           ∧ 0 = (if cmdCounter d =? cmdCount header then 0 else 1).
Proof.
  eexists. split; [vm_compute; reflexivity|].
  apply (@ubvff2_no_dump_no_output Examples.host Samples.Type2.pathCmds
           Samples.Type2.pathPoints Examples.Type2.locals0).
  vm_compute. reflexivity.
Defined.

End Type2Instances.

(** ** The output of the Type 1 decoder *)

Section Type1Run.
Import C Reader Ubvff1 Ubvff1Spec.
Context `{Host}.



























End Type1Run.

Section Type1Instances.
Import C Reader Ubvff1 Ubvff1Spec.



End Type1Instances.

(** ** [escapeStringA] *)

Section EscapeString.
Import C Escape.

Lemma csbuf4_length (c : Z) : length (csbuf4 c) = 4%nat.
Proof. reflexivity. Qed.

(** The loop keeps the size of [dest] and ends with [destPos] within it. *)
Lemma escapeLoop_bounds (source : list Z) : ∀ (dest : list byte) (destPos destSize : nat),
  length dest = destSize → (destPos ≤ destSize)%nat →
  Forall (λ c, 0 ≤ c) source →
  ∃ dest' destPos' ov,
    escapeLoop source dest destPos destSize = Ret (dest', destPos', ov)
    ∧ length dest' = destSize ∧ (destPos ≤ destPos' ≤ destSize)%nat
    ∧ (ov = 0 ∨ ov = 1).
Proof.
  induction source as [|c rest IH]; intros dest destPos destSize Hl Hp Hs; cbn [escapeLoop].
  - destruct (Nat.leb_spec destSize destPos).
    + exists dest, destPos, 0. repeat split; auto; lia.
    + exists (<[destPos := x00]> dest), destPos, 0.
      rewrite length_insert. repeat split; auto; lia.
  - inversion Hs as [|? ? Hc Hrest]; subst.
    destruct (Nat.leb_spec (length dest) destPos).
    { exists dest, destPos, 0. repeat split; auto; lia. }
    destruct (c =? 0).
    { exists (<[destPos := x00]> dest), destPos, 0.
      rewrite length_insert. repeat split; auto; lia. }
    destruct (escaped_char c).
    + destruct (Nat.leb_spec (length dest) (destPos + 4)).
      { exists dest, destPos, 1. repeat split; auto; lia. }
      destruct (Z.ltb_spec c 0); [lia|].
      destruct (IH (take destPos dest ++ csbuf4 c ++ drop (destPos + 4) dest)
                   (destPos + 4)%nat (length dest)) as (d' & p' & ov & E & Hl' & Hp' & Hov).
      * rewrite !length_app, length_take, length_drop, csbuf4_length. lia.
      * lia.
      * exact Hrest.
      * exists d', p', ov. repeat split; auto; lia.
    + destruct (IH (<[destPos := char_byte c]> dest) (S destPos) (length dest))
        as (d' & p' & ov & E & Hl' & Hp' & Hov).
      * apply length_insert.
      * lia.
      * exact Hrest.
      * exists d', p', ov. repeat split; auto; lia.
Qed.

Lemma escapeOne_length (c : Z) : (1 ≤ length (escapeOne c) ≤ 4)%nat.
Proof. unfold escapeOne. destruct (escaped_char c); cbn [length csbuf4]; lia. Qed.

Lemma escapeAll_length (source : list Z) :
  (length (escapeAll source) ≤ 4 * length source)%nat.
Proof.
  induction source as [|c rest IH]; [simpl; lia|].
  unfold escapeAll in *. cbn [fmap list_fmap concat length]. rewrite length_app.
  pose proof (escapeOne_length c). lia.
Qed.

(** The loop over a stretch [pre] of the string that holds no terminator
    and no negative [char], with room for four bytes a [char]: what it makes
    of [pre] goes to [dest] from [destPos] on. *)
Lemma escapeLoop_app (pre : list Z) : ∀ (rest : list Z) (dest : list byte) (destPos : nat),
  (destPos + 4 * length pre < length dest)%nat →
  Forall (λ c, 0 < c) pre →
  escapeLoop (pre ++ rest) dest destPos (length dest)
  = escapeLoop rest
      (take destPos dest ++ escapeAll pre ++ drop (destPos + length (escapeAll pre)) dest)
      (destPos + length (escapeAll pre)) (length dest).
Proof.
  induction pre as [|c pre IH]; intros rest dest destPos Hroom Hpre.
  - unfold escapeAll. cbn [fmap list_fmap concat length app].
    rewrite Nat.add_0_r, take_drop. reflexivity.
  - inversion Hpre as [|? ? Hc Hrest]; subst.
    cbn [app escapeLoop length] in *.
    destruct (Nat.leb_spec (length dest) destPos); [lia|].
    destruct (Z.eqb_spec c 0); [lia|].
    unfold escapeAll. cbn [fmap list_fmap concat]. fold (escapeAll pre).
    unfold escapeOne. destruct (escaped_char c).
    + destruct (Nat.leb_spec (length dest) (destPos + 4)); [lia|].
      destruct (Z.ltb_spec c 0); [lia|].
      set (dest1 := take destPos dest ++ csbuf4 c ++ drop (destPos + 4) dest).
      assert (Hl1 : length dest1 = length dest).
      { unfold dest1. rewrite !length_app, length_take, length_drop, csbuf4_length. lia. }
      rewrite <- Hl1 at 1. rewrite IH; [|rewrite Hl1; lia|exact Hrest].
      rewrite Hl1. rewrite length_app, csbuf4_length.
      f_equal; [|lia].
      assert (Ht : take (destPos + 4) dest1 = take destPos dest ++ csbuf4 c).
      { unfold dest1. rewrite app_assoc. apply take_app_length'.
        rewrite length_app, length_take, csbuf4_length. lia. }
      assert (Hd : drop (destPos + 4 + length (escapeAll pre)) dest1
                   = drop (destPos + (4 + length (escapeAll pre))) dest).
      { unfold dest1. rewrite app_assoc.
        rewrite drop_app_ge by (rewrite length_app, length_take, csbuf4_length; lia).
        rewrite length_app, length_take, csbuf4_length, drop_drop. f_equal. lia. }
      rewrite Ht, Hd, <- !app_assoc. reflexivity.
    + set (dest1 := <[destPos := char_byte c]> dest).
      assert (Hl1 : length dest1 = length dest) by apply length_insert.
      rewrite <- Hl1 at 1. rewrite IH; [|rewrite Hl1; lia|exact Hrest].
      rewrite Hl1. cbn [length app]. f_equal; [|lia].
      assert (Ht : take (S destPos) dest1 = take destPos dest ++ [char_byte c]).
      { unfold dest1. destruct (lookup_lt_is_Some_2 dest destPos ltac:(lia)) as [b0 Hb0].
        rewrite (take_S_r _ _ (char_byte c)) by (apply list_lookup_insert_eq; lia).
        rewrite take_insert_ge by lia. reflexivity. }
      assert (Hd : drop (S destPos + length (escapeAll pre)) dest1
                   = drop (destPos + S (length (escapeAll pre))) dest).
      { unfold dest1. rewrite drop_insert_lt by lia. f_equal. lia. }
      rewrite Ht, Hd, <- !app_assoc. reflexivity.
Qed.

Lemma byteZ_char_byte (c : Z) : 0 ≤ c < 256 → byteZ (char_byte c) = c.
Proof.
  intros Hc. unfold char_byte, byteZ.
  destruct (Byte.of_N (Z.to_N c)) as [b|] eqn:E.
  - apply Byte.to_of_N in E. rewrite E. lia.
  - apply Byte.of_N_None_iff in E. lia.
Qed.

Lemma hexdigit_display (n : Z) : 0 ≤ n < 16 → display_byte (hexdigit n) = true.
Proof.
  intros Hn.
  assert (G : forallb (λ k, display_byte (hexdigit (Z.of_nat k))) (seq 0 16) = true)
    by reflexivity.
  rewrite forallb_forall in G. specialize (G (Z.to_nat n)).
  rewrite Z2Nat.id in G by lia. apply G, in_seq. lia.
Qed.

Lemma escapeOne_display (c : Z) : 0 ≤ c < 256 → forallb display_byte (escapeOne c) = true.
Proof.
  intros Hc. unfold escapeOne. destruct (escaped_char c) eqn:E.
  - cbn [forallb csbuf4].
    rewrite !hexdigit_display.
    + reflexivity.
    + apply Z.mod_pos_bound. lia.
    + split; [apply Z.div_pos; lia|apply Z.div_lt_upper_bound; lia].
  - cbn [forallb]. rewrite andb_true_r. unfold display_byte.
    rewrite byteZ_char_byte by exact Hc. unfold escaped_char in E.
    apply orb_false_iff in E as [E E5]. apply orb_false_iff in E as [E E4].
    apply orb_false_iff in E as [E E3]. apply orb_false_iff in E as [E1 E2].
    rewrite E4, E5. cbn [negb andb]. rewrite andb_true_r.
    apply andb_true_iff. split; lia.
Qed.

(** X11.  [escapeStringA] stays within [dest] and leaves a terminated
    string there: for a [dest] of [destSize] bytes and a string without
    negative [char]s the call returns 0 or 1, [dest] keeps its size and holds
    a zero byte. *)
Theorem escapeStringA_terminated (dest : list byte) (destSize : Z) (source : list Z) :
  1 ≤ destSize → length dest = Z.to_nat destSize →
  Forall (λ c, 0 ≤ c < 256) source →
  ∃ overflow dest',
    escapeStringA dest destSize source = Ret (overflow, dest')
    ∧ (overflow = 0 ∨ overflow = 1)
    ∧ length dest' = length dest
    ∧ x00 ∈ dest'.
Proof.
  intros Hs Hl Hsrc. unfold escapeStringA.
  destruct (Z.ltb_spec destSize 1); [lia|].
  assert (Hpos : Forall (λ c, 0 ≤ c) source)
    by (eapply Forall_impl; [exact Hsrc|]; cbn; intros; lia).
  destruct (escapeLoop_bounds source dest 0 (Z.to_nat destSize) Hl ltac:(lia) Hpos)
    as (d' & p' & ov & -> & Hl' & Hp' & Hov).
  destruct (Z.eqb_spec (Z.of_nat p') destSize).
  - exists 1, (<[(p' - 1)%nat := x00]> d'). split; [reflexivity|].
    split; [right; reflexivity|]. rewrite length_insert. split; [lia|].
    apply list_elem_of_lookup. exists (p' - 1)%nat. apply list_lookup_insert_eq. lia.
  - exists ov, (<[p' := x00]> d'). split; [reflexivity|]. split; [exact Hov|].
    rewrite length_insert. split; [lia|].
    apply list_elem_of_lookup. exists p'. apply list_lookup_insert_eq. lia.
Qed.

(** X12.  With room for four bytes a character ([main] passes 257 bytes for
    a name of at most 64) nothing is cut: the call returns 0 and [dest] holds
    the text of every character in turn, plain or as a backslash, an x and two
    hexadecimal digits, then the terminator; every byte of that text is
    printable and none is a quote or an apostrophe. *)
Theorem escapeStringA_exact (dest : list byte) (destSize : Z) (source : list Z) :
  length dest = Z.to_nat destSize →
  4 * Z.of_nat (length source) < destSize →
  Forall (λ c, 0 < c < 256) source →
  escapeStringA dest destSize source
  = Ret (0, escapeAll source ++ [x00] ++ drop (S (length (escapeAll source))) dest)
  ∧ forallb display_byte (escapeAll source) = true.
Proof.
  intros Hl Hroom Hsrc. pose proof (escapeAll_length source) as Hout. split.
  - unfold escapeStringA. destruct (Z.ltb_spec destSize 1); [lia|].
    rewrite <- Hl. rewrite <- (app_nil_r source) at 1.
    rewrite escapeLoop_app;
      [|lia|eapply Forall_impl; [exact Hsrc|]; cbn; intros; lia].
    cbn [Nat.add escapeLoop]. rewrite take_0. cbn [app].
    set (out := escapeAll source) in *.
    destruct (Nat.leb_spec (length dest) (length out)); [lia|].
    destruct (Z.eqb_spec (Z.of_nat (length out)) destSize); [lia|].
    rewrite list_insert_insert_eq.
    replace (length out) with (length out + 0)%nat at 1 by lia.
    rewrite insert_app_r.
    destruct (drop (length out) dest) as [|b0 tl] eqn:Ed.
    { apply (f_equal length) in Ed. rewrite length_drop in Ed. simpl in Ed. lia. }
    cbn [insert list_insert app].
    replace tl with (drop 1 (drop (length out) dest)) by (rewrite Ed; reflexivity).
    rewrite drop_drop. replace (length out + 1)%nat with (S (length out)) by lia.
    reflexivity.
  - unfold escapeAll. clear Hout Hroom. induction Hsrc as [|c rest Hc Hrest IH].
    + reflexivity.
    + cbn [fmap list_fmap concat]. rewrite forallb_app.
      rewrite escapeOne_display by lia. exact IH.
Qed.

(** X13.  A negative [char] (a byte from 0x80 on where [char] is signed)
    that the loop reaches with room left is printed by [%02X] with eight
    digits into the six bytes of [csbuf]: behaviour the C standard does not
    define. *)
Theorem escapeStringA_negative_char (dest : list byte) (destSize : Z)
        (pre : list Z) (c : Z) (post : list Z) :
  length dest = Z.to_nat destSize →
  4 * Z.of_nat (length pre) + 4 < destSize →
  Forall (λ c, 0 < c < 256) pre → c < 0 →
  escapeStringA dest destSize (pre ++ c :: post) = Undefined.
Proof.
  intros Hl Hroom Hpre Hc. pose proof (escapeAll_length pre) as Hout.
  unfold escapeStringA. destruct (Z.ltb_spec destSize 1); [lia|].
  rewrite <- Hl.
  rewrite escapeLoop_app;
    [|lia|eapply Forall_impl; [exact Hpre|]; cbn; intros; lia].
  cbn [Nat.add escapeLoop].
  destruct (Nat.leb_spec (length dest) (length (escapeAll pre))); [lia|].
  destruct (Z.eqb_spec c 0); [lia|].
  assert (He : escaped_char c = true).
  { unfold escaped_char. destruct (Z.ltb_spec c 32); [reflexivity|lia]. }
  rewrite He.
  destruct (Nat.leb_spec (length dest) (length (escapeAll pre) + 4)); [lia|].
  destruct (Z.ltb_spec c 0); [reflexivity|lia].
Qed.

End EscapeString.

Section EscapeInstances.
Import C Escape.

Lemma escapeStringA_terminated_witness :
  (1 ≤ 4 ∧ length (replicate 4 x01) = Z.to_nat 4)
  ∧ escapeStringA (replicate 4 x01) 4 [97; 98; 99; 100; 101]
    = Ret (1, bytes "abc" ++ [x00])
  ∧ ∃ overflow dest',
      escapeStringA (replicate 4 x01) 4 [97; 98; 99; 100; 101] = Ret (overflow, dest')
      ∧ (overflow = 0 ∨ overflow = 1)
      ∧ length dest' = length (replicate 4 x01)
      ∧ x00 ∈ dest'.
Proof.
  split; [split; [lia|reflexivity]|]. split; [reflexivity|].
  apply (escapeStringA_terminated (replicate 4 x01) 4 [97; 98; 99; 100; 101]).
  - lia.
  - reflexivity.
  - repeat constructor; lia.
Defined.

Lemma escapeStringA_exact_witness :
  (length (replicate 13 x01) = Z.to_nat 13 ∧ 4 * Z.of_nat (length [97; 34; 7]) < 13)
  ∧ escapeAll [97; 34; 7] = bytes "a\x22\x07"
  ∧ escapeStringA (replicate 13 x01) 13 [97; 34; 7]
    = Ret (0, escapeAll [97; 34; 7] ++ [x00]
                ++ drop (S (length (escapeAll [97; 34; 7]))) (replicate 13 x01))
  ∧ forallb display_byte (escapeAll [97; 34; 7]) = true.
Proof.
  split; [split; [reflexivity|simpl; lia]|]. split; [reflexivity|].
  apply (escapeStringA_exact (replicate 13 x01) 13 [97; 34; 7]).
  - reflexivity.
  - simpl. lia.
  - repeat constructor; lia.
Defined.

Lemma escapeStringA_negative_char_witness :
  (length (replicate 257 x00) = Z.to_nat 257 ∧ 4 * Z.of_nat (length [76; 49]) + 4 < 257)
  ∧ escapeStringA (replicate 257 x00) 257 ([76; 49] ++ -128 :: [50]) = Undefined.
Proof.
  split; [split; [reflexivity|simpl; lia]|].
  apply (escapeStringA_negative_char (replicate 257 x00) 257 [76; 49] (-128) [50]).
  - reflexivity.
  - simpl. lia.
  - repeat constructor; lia.
  - lia.
Defined.

End EscapeInstances.

(** ** Layer names of the Type 1 decoder *)

Section LayerNames.
Import C Reader Ubvff1.
Context `{Host}.

(** Whether [escapeStringA] stays within what C defines does not turn on
    what [dest] holds before the call: [strBuf] may hold anything. *)
Lemma escapeLoop_dest (source : list Z) :
  ∀ (dest dest' : list byte) (destPos destSize : nat),
  Escape.escapeLoop source dest destPos destSize = Undefined →
  Escape.escapeLoop source dest' destPos destSize = Undefined.
Proof.
  induction source as [|c rest IH]; intros dest dest' destPos destSize;
    cbn [Escape.escapeLoop].
  - destruct (destSize <=? destPos)%nat; discriminate.
  - destruct (destSize <=? destPos)%nat; [discriminate|].
    destruct (c =? 0); [discriminate|].
    destruct (Escape.escaped_char c).
    + destruct (destSize <=? destPos + 4)%nat; [discriminate|].
      destruct (c <? 0); [reflexivity|]. apply IH.
    + apply IH.
Qed.

Lemma escapeLoop_fuel (source : list Z) :
  ∀ (dest : list byte) (destPos destSize : nat),
  Escape.escapeLoop source dest destPos destSize ≠ OutOfFuel.
Proof.
  induction source as [|c rest IH]; intros dest destPos destSize;
    cbn [Escape.escapeLoop].
  - destruct (destSize <=? destPos)%nat; discriminate.
  - destruct (destSize <=? destPos)%nat; [discriminate|].
    destruct (c =? 0); [discriminate|].
    destruct (Escape.escaped_char c).
    + destruct (destSize <=? destPos + 4)%nat; [discriminate|].
      destruct (c <? 0); [discriminate|]. apply IH.
    + apply IH.
Qed.

Lemma escapeStringA_dest (dest dest' : list byte) (destSize : Z) (source : list Z) :
  Escape.escapeStringA dest destSize source = Undefined →
  Escape.escapeStringA dest' destSize source = Undefined.
Proof.
  unfold Escape.escapeStringA. destruct (destSize <? 1); [discriminate|].
  destruct (Escape.escapeLoop source dest 0 (Z.to_nat destSize))
    as [[[d p] ov]| |] eqn:E.
  - destruct (Z.of_nat p =? destSize); discriminate.
  - intros _. rewrite (escapeLoop_dest _ dest dest' _ _ E). reflexivity.
  - discriminate.
Qed.

(** A [char] that is negative, met first in a string, with room left. *)
Lemma escapeStringA_first_negative (dest : list byte) (destSize c : Z) (rest : list Z) :
  5 ≤ destSize → c < 0 → Escape.escapeStringA dest destSize (c :: rest) = Undefined.
Proof.
  intros Hs Hc. unfold Escape.escapeStringA.
  destruct (Z.ltb_spec destSize 1); [lia|]. cbn [Escape.escapeLoop].
  destruct (Nat.leb_spec (Z.to_nat destSize) 0); [lia|].
  destruct (Z.eqb_spec c 0); [lia|].
  assert (E : Escape.escaped_char c = true).
  { unfold Escape.escaped_char. destruct (Z.ltb_spec c 32); [reflexivity|lia]. }
  rewrite E. destruct (Nat.leb_spec (Z.to_nat destSize) (0 + 4)); [lia|].
  destruct (Z.ltb_spec c 0); [reflexivity|lia].
Qed.

(** The loop over a name writes [title] from [title[y]] on only. *)
Lemma titleLoop_below (n : nat) : ∀ (y : nat) (f : list byte) (t : list Z) (i : nat),
  (i < y)%nat → (titleLoop n y f t).2 !! i = t !! i.
Proof.
  induction n as [|n IH]; intros y f t i Hi; cbn [titleLoop]; [reflexivity|].
  destruct (read32 f) as [[dw rest]|]; [|reflexivity].
  rewrite IH by lia. apply list_lookup_insert_ne. lia.
Qed.

Lemma titleLoop_length (n : nat) : ∀ (y : nat) (f : list byte) (t : list Z),
  length (titleLoop n y f t).2 = length t.
Proof.
  induction n as [|n IH]; intros y f t; cbn [titleLoop]; [reflexivity|].
  destruct (read32 f) as [[dw rest]|]; [|reflexivity].
  rewrite IH. apply length_insert.
Qed.

(** Where [char] is signed, a layer name whose first character has its
    high bit set takes the round out of what C defines: [sprintf] in
    [escapeStringA] is given a negative value for [%02X]. *)
Lemma step_name_high_byte (d : decoder) (f f0 f1 : list byte) (strLength dw : Z) :
  charSigned = true →
  (0 < length (title d))%nat →
  read32 (fin d) = Some (1, f) →
  read32 f = Some (strLength, f0) →
  0 < strLength ≤ 64 →
  read32 f0 = Some (dw, f1) →
  128 ≤ dw mod 256 →
  step d = Fault.
Proof.
  intros Hc Ht E E0 Hn E1 Hdw. unfold step. rewrite E. cbv zeta.
  change (1 =? 0) with false. change (1 =? 1) with true. cbv iota.
  rewrite E0. destruct (Z.gtb_spec strLength 64); [lia|].
  destruct (Z.to_nat strLength) as [|n] eqn:En; [lia|].
  cbn [titleLoop]. rewrite E1. cbn [title with_fin].
  pose proof (titleLoop_below n 1 f1 (<[0%nat := to_char dw]> (title d)) 0 ltac:(lia)) as Hl.
  pose proof (titleLoop_length n 1 f1 (<[0%nat := to_char dw]> (title d))) as Hlen.
  destruct (titleLoop n 1 f1 (<[0%nat := to_char dw]> (title d))) as [f2 t2].
  cbn [snd] in Hl, Hlen. cbn [title with_title].
  rewrite list_lookup_insert_eq in Hl by exact Ht.
  rewrite length_insert in Hlen.
  destruct t2 as [|c t2]; [discriminate|]. injection Hl as ->.
  cbn [insert list_insert].
  rewrite escapeStringA_first_negative; [reflexivity | lia |].
  unfold to_char. rewrite Hc. unfold wraps. cbv zeta.
  change (2 ^ 8) with 256. change (2 ^ (8 - 1)) with 128.
  destruct (Z.ltb_spec (dw mod 256) 128); [lia|].
  pose proof (Z.mod_pos_bound dw 256 ltac:(lia)). lia.
Qed.

Lemma guarded_title (res : Z * emitter) (d : decoder) :
  match guarded res d with
  | Continue d' | Break d' | Return _ d' => title d' = title d
  | Fault => False
  end.
Proof. unfold guarded. destruct res as [rc e]. destruct (rc =? 0); reflexivity. Qed.

Lemma titleLoop_unsigned (n : nat) : ∀ (y : nat) (f : list byte) (t : list Z),
  charSigned = false → Forall (λ c, 0 ≤ c) t → Forall (λ c, 0 ≤ c) (titleLoop n y f t).2.
Proof.
  induction n as [|n IH]; intros y f t Hc Ht; cbn [titleLoop]; [exact Ht|].
  destruct (read32 f) as [[dw rest]|]; [|exact Ht].
  apply IH; [exact Hc|].
  destruct (decide (y < length t)%nat) as [Hy|Hy].
  - apply Forall_insert; [exact Ht|]. unfold to_char. rewrite Hc. unfold wrapu.
    apply Z.mod_pos_bound. reflexivity.
  - rewrite list_insert_ge by lia. exact Ht.
Qed.

Ltac title_done Ht := cbn [title with_fin with_em with_title] in *; first [exact I | exact Ht].

Ltac guard_title Ht :=
  match goal with
  | |- context [guarded ?r ?dd] =>
      let Hg := fresh "Hg" in
      pose proof (guarded_title r dd) as Hg; destruct (guarded r dd);
      try exact I; try (exfalso; exact Hg); rewrite Hg; title_done Ht
  end.

(** Where [char] is unsigned, no round leaves what C defines, and the
    elements of [title] stay values of an unsigned [char]. *)
Lemma step_title (d : decoder) :
  charSigned = false → Forall (λ c, 0 ≤ c) (title d) →
  match step d with
  | Continue d' => Forall (λ c, 0 ≤ c) (title d')
  | Fault => False
  | _ => True
  end.
Proof.
  intros Hc Ht. unfold step. destruct (read32 (fin d)) as [[cmd f]|]; [|exact I].
  cbv zeta.
  destruct (cmd =? 0); [title_done Ht|].
  destruct (cmd =? 1).
  { destruct (read32 f) as [[strLength f0]|]; [|exact I].
    destruct (strLength >? 64); [exact I|].
    match goal with
    | |- context [titleLoop ?n ?y ?g ?t] =>
        pose proof (titleLoop_unsigned n y g t Hc Ht) as Hu;
        destruct (titleLoop n y g t) as [f1 t1]
    end.
    cbn [snd] in Hu. cbn [title with_title].
    assert (Hz : Forall (λ c, 0 ≤ c) (<[Z.to_nat strLength := 0]> t1)).
    { destruct (decide (Z.to_nat strLength < length t1)%nat).
      - apply Forall_insert; [exact Hu | reflexivity].
      - rewrite list_insert_ge by lia. exact Hu. }
    unfold Escape.escapeStringA. change (257 <? 1) with false. cbv iota.
    destruct (escapeLoop_bounds (<[Z.to_nat strLength := 0]> t1) strBuf0 0 (Z.to_nat 257)
                eq_refl ltac:(lia) Hz) as (d1 & p1 & ov & E & _).
    rewrite E. destruct (Z.of_nat p1 =? 257);
      (destruct (if state_eqb _ _ then _ else _) as [rc e];
       destruct (negb _); [exact I | guard_title Hz]). }
  destruct (cmd =? 2).
  { destruct (if state_eqb _ _ then _ else _) as [rc e].
    destruct (negb _); [exact I | guard_title Ht]. }
  destruct (cmd =? 3).
  { destruct (readN read32 5 f) as [[ws f0]|]; [|exact I].
    destruct ws as [|? [|? [|? [|? [|? [|? ?]]]]]]; try exact I. title_done Ht. }
  destruct (cmd =? 4).
  { destruct (readColor f) as [[c f0]|]; title_done Ht. }
  destruct (cmd =? 5).
  { destruct (readColor f) as [[c f0]|]; title_done Ht. }
  destruct (cmd =? 6).
  { destruct (readPoint f) as [[p f0]|]; [|exact I]. guard_title Ht. }
  destruct (cmd =? 7).
  { destruct (read32 f) as [[pcount f0]|]; [|exact I].
    destruct (lineLoop _ _ _) as [f1 e]. title_done Ht. }
  destruct (cmd =? 8).
  { destruct (read32 f) as [[pcount f0]|]; [|exact I].
    destruct (cubicLoop _ _ _) as [f1 e]. title_done Ht. }
  destruct (cmd =? 9); [guard_title Ht|].
  destruct (_ || _); [guard_title Ht|].
  destruct (cmd =? 12); [title_done Ht|].
  destruct (cmd =? 13); [guard_title Ht|].
  destruct (_ || _).
  { destruct (read32 f) as [[v f0]|]; title_done Ht. }
  destruct (cmd =? 16).
  { destruct (read32 f) as [[v f0]|]; title_done Ht. }
  destruct (cmd =? 21); [exact I | title_done Ht].
Qed.

Lemma mainLoop_defined (fuel : nat) : ∀ d : decoder,
  charSigned = false → Forall (λ c, 0 ≤ c) (title d) → mainLoop fuel d ≠ Undefined.
Proof.
  induction fuel as [|fuel IH]; intros d Hc Ht; [discriminate|].
  cbn [mainLoop]. pose proof (step_title d Hc Ht) as Hs.
  destruct (step d) as [d'|d'|code d'|]; try discriminate; [|exact (False_ind _ Hs)].
  apply IH; assumption.
Qed.

(** Where [char] is unsigned, [main] returns, whatever the bytes of the file
    are. *)
Lemma main_returns_unsigned_char (dump : bool) (file : list byte) (l : locals) :
  charSigned = false → ∃ code d, main dump file l = Ret (code, d).
Proof.
  intros Hc. destruct (main_returns dump file l) as [Hr|Hu]; [exact Hr|].
  exfalso. unfold main in Hu.
  destruct (mainLoop _ _) as [r| |] eqn:E; try discriminate.
  revert E. apply mainLoop_defined; [exact Hc|].
  cbn [title]. apply Forall_replicate. reflexivity.
Qed.

End LayerNames.

Section LayerNameSamples.
Import C Reader Ubvff1.

(** A layer named by the one byte 0xE9: with a signed [char] the run leaves
    what C defines, with the SVG dump and without it; with an unsigned
    [char], and for the name [A] with either, it ends with exit status 0. *)
Lemma layer_name_runs :
  @main Examples.host true (Samples.Type1.namedFile xe9) Samples.Type1.locals0 = Undefined
  ∧ @main Examples.host false (Samples.Type1.namedFile xe9) Samples.Type1.locals0 = Undefined
  ∧ (∃ d, @main Examples.hostUnsignedChar true (Samples.Type1.namedFile xe9)
            Samples.Type1.locals0 = Ret (0, d))
  ∧ (∃ d, @main Examples.host true (Samples.Type1.namedFile x41)
            Samples.Type1.locals0 = Ret (0, d))
  ∧ ∃ d, @main Examples.host false (Samples.Type1.namedFile x41)
           Samples.Type1.locals0 = Ret (0, d).
Proof.
  split; [vm_compute; reflexivity|]. split; [vm_compute; reflexivity|].
  split; [eexists; vm_compute; reflexivity|].
  split; eexists; vm_compute; reflexivity.
Qed.

End LayerNameSamples.

(** ** The output of the assembler *)

Section AssemblerOutput.
Import C Vecass VecassSpec AssemblySpec.
Context `{Host}.
Variable fs : list byte → option (list byte).
Variable prefix svgfilename : list byte.

(** Two writes in a row are one write of both texts. *)
Lemma fwrite_fwrite (a b : list byte) (f : FILE) :
  fwrite b (fwrite a f) = fwrite (a ++ b) f.
Proof.
  unfold fwrite. cbn [contents fpos].
  set (c := contents f). set (p := fpos f).
  set (gap := replicate (p - length c) x00).
  set (c1 := take p c ++ gap ++ a ++ drop (p + length a) c).
  assert (Hpre : length (take p c ++ gap ++ a) = (p + length a)%nat).
  { unfold gap. rewrite !length_app, length_take, length_replicate. lia. }
  assert (Hc1 : c1 = (take p c ++ gap ++ a) ++ drop (p + length a) c).
  { unfold c1. rewrite <- !app_assoc. reflexivity. }
  assert (Ht : take (p + length a) c1 = take p c ++ gap ++ a).
  { rewrite Hc1. apply take_app_length'. symmetry. exact Hpre. }
  assert (Hg : (p + length a - length c1 = 0)%nat).
  { rewrite Hc1, length_app, Hpre. lia. }
  assert (Hd : drop (p + length a + length b) c1 = drop (p + length (a ++ b)) c).
  { rewrite Hc1, drop_app_ge by lia. rewrite Hpre, drop_drop, length_app. f_equal. lia. }
  rewrite Ht, Hg, Hd. cbn [replicate app]. rewrite !length_app, <- !app_assoc.
  f_equal. lia.
Qed.

Lemma fwrite_keeps_end (data : list byte) (f : FILE) :
  fpos f = length (contents f) → fpos (fwrite data f) = length (contents (fwrite data f)).
Proof.
  intros Hp. rewrite fwrite_at_end by exact Hp. cbn [fpos contents].
  rewrite length_app. reflexivity.
Qed.

Lemma copyBlocks_appends (fuel : nat) : ∀ (bytesLeft : Z) (fin : list byte) (fo : FILE)
                                          (rc : Z) (fo' : FILE),
  fpos fo = length (contents fo) →
  copyBlocks fuel bytesLeft fin fo = Ret (rc, fo') →
  fpos fo' = length (contents fo') ∧ ∃ extra, contents fo' = contents fo ++ extra.
Proof.
  induction fuel as [|fuel IH]; intros bytesLeft fin fo rc fo' Hp Hr; [discriminate|].
  cbn [copyBlocks] in Hr.
  destruct (bytesLeft >? 0).
  - destruct (_ <? _).
    + injection Hr as <- <-. split; [exact Hp|]. exists []. rewrite app_nil_r. reflexivity.
    + apply IH in Hr.
      * rewrite fwrite_at_end in Hr by exact Hp. cbn [contents fpos] in Hr.
        destruct Hr as [Hp' [extra He]]. split; [exact Hp'|].
        eexists. rewrite He, <- app_assoc. reflexivity.
      * apply fwrite_keeps_end. exact Hp.
  - injection Hr as <- <-. split; [exact Hp|]. exists []. rewrite app_nil_r. reflexivity.
Qed.

Lemma open_out_printf (s : list byte) (st : state) : open_out st → open_out (printf s st).
Proof. exact (λ x, x). Qed.

Lemma open_out_set_view (a b c d : Z) (st : state) : open_out st → open_out (set_view a b c d st).
Proof. exact (λ x, x). Qed.

Lemma dumpOne_open (e : DUMPLIST) (st : state) :
  open_out st →
  match dumpOne fs prefix e st with
  | Ret (inr st') => open_out st'
  | _ => True
  end.
Proof.
  intros Ho. unfold dumpOne.
  destruct (fs _) as [data|]; [|exact Ho].
  destruct (sscanf_4i _) as [[[[x1 y1] x2] y2]|]; [|exact I].
  destruct (strchr_nl _ 0) as [[nl|]|]; try exact I.
  cbn [fout set_view].
  destruct Ho as (fo & body & Hf & Hp & Hc). rewrite Hf.
  match goal with |- context [copyBlocks ?n ?b ?f ?o] =>
    destruct (copyBlocks n b f o) as [[rc fo']| |] eqn:Hcopy end; try exact I.
  apply copyBlocks_appends in Hcopy; [|apply fwrite_keeps_end; exact Hp].
  rewrite fwrite_at_end in Hcopy by exact Hp. cbn [contents] in Hcopy.
  destruct Hcopy as [Hp' [extra He]].
  destruct rc; try exact I.
  unfold open_out. cbn [fout set_fout].
  eexists. eexists. split; [reflexivity|].
  split; [apply fwrite_keeps_end; exact Hp'|].
  rewrite fwrite_at_end by exact Hp'. cbn [contents fpos].
  rewrite He, Hc, <- !app_assoc. reflexivity.
Qed.

Lemma dumpLoop_open (todo : list DUMPLIST) : ∀ st,
  open_out st →
  match dumpLoop fs prefix todo st with
  | Ret (inr st') => open_out st'
  | _ => True
  end.
Proof.
  induction todo as [|e todo IH]; intros st Ho; cbn [dumpLoop]; [exact Ho|].
  pose proof (dumpOne_open e st Ho) as H1.
  destruct (dumpOne fs prefix e st) as [[[rc st1]|st1]| |]; try exact I.
  apply IH. exact H1.
Qed.

Lemma sortDumpList_fout (st : state) : fout (sortDumpList st) = fout st.
Proof.
  unfold sortDumpList. destruct (_ <? _)%nat; [reflexivity|].
  destruct (bubbleOuter _ _ _ _) as [refs [|]]; reflexivity.
Qed.

(** [dumpFromList] on an output under way: on success the placeholder has
    made way for the field of the final viewport, the rest is as it was
    appended. *)
Lemma dumpFromList_framed (st st' : state) :
  open_out st → dumpFromList fs prefix st = Ret (0, st') →
  ∃ fo body, fout st' = Some fo ∧ fpos fo = length (contents fo)
             ∧ contents fo = bytes "<svg viewBox=" ++ viewboxField st'
                               ++ drop 39 header_line ++ body.
Proof.
  intros Ho. unfold dumpFromList.
  assert (Hs : open_out (sortDumpList st)).
  { unfold open_out. rewrite sortDumpList_fout. exact Ho. }
  pose proof (dumpLoop_open (entries (sortDumpList st)) (sortDumpList st) Hs) as Hl.
  pose proof (dumpLoop_widens fs prefix (entries (sortDumpList st)) (sortDumpList st)) as Hw.
  destruct (dumpLoop _ _ _ _) as [[[rc st1]|st1]| |]; try discriminate.
  { destruct Hw as [-> _]. discriminate. }
  destruct Hl as (fo & body & Hf & Hp & Hc). rewrite Hf.
  destruct (Nat.leb_spec 30 (length (viewboxText (viewMinX st1) (viewMinY st1)
                                        (viewMaxX st1) (viewMaxY st1)))) as [Hlen|Hlen].
  { unfold setViewbox. apply Nat.leb_le in Hlen. rewrite Hlen. discriminate. }
  destruct (setViewbox_in_range fo _ _ _ _ Hlen) as [Hfl ->].
  intros Hr. injection Hr as <-.
  set (field := take 26 (viewboxText _ _ _ _ ++ _)) in *.
  exists (fseek_set (fpos fo) (fwrite field (fseek_set 13 fo))), body.
  split; [reflexivity|].
  unfold fseek_set, fwrite. cbn [contents fpos]. rewrite Hc.
  assert (Hh : (length header_line = 109)%nat) by reflexivity.
  rewrite Hfl. rewrite take_app_le by lia.
  replace (13 - length (header_line ++ body))%nat with 0%nat by (rewrite length_app; lia).
  cbn [replicate app]. rewrite drop_app_le by lia.
  split.
  - rewrite Hp, Hc, !length_app, length_take, length_drop, Hfl. lia.
  - unfold viewboxField. cbn [viewMinX viewMinY viewMaxX viewMaxY set_fout].
    fold field. rewrite <- ?app_assoc. reflexivity.
Qed.

(** The loop over the commands leaves the output alone, and [depth] does
    not get smaller, when the calls it makes are such. *)
Lemma scanLoop_fout (call : list byte → state → outcome (Z * state)) (spacer : list byte) :
  inner_ok call →
  ∀ (n : nat) (fin1 : list byte) (st : state),
    (length fin1 ≤ n)%nat → 0 ≤ depth st →
    match scanLoop prefix call spacer fin1 st with
    | Ret st' => fout st' = fout st ∧ depth st ≤ depth st'
    | _ => True
    end.
Proof.
  intros Hcall. induction n as [|n IH]; intros fin1 st Hlen Hd.
  - destruct fin1; [|simpl in Hlen; lia]. simpl. split; [reflexivity|lia].
  - destruct fin1 as [|b0 [|b1 rest]]; cbn [scanLoop]; try (split; [reflexivity|lia]).
    simpl in Hlen.
    destruct (_ =? 0); [apply IH; [lia|exact Hd]|].
    destruct (_ || _); [|apply IH; [lia|exact Hd]].
    destruct rest as [|c0 [|c1 rest']]; try (split; [reflexivity|simpl; lia]).
    simpl in Hlen.
    set (st1 := set_depth _ (printf _ st)).
    assert (Hd1 : 1 ≤ depth st1) by (unfold st1; simpl; lia).
    pose proof (Hcall (prefix ++ fmt_05u (bo_read16 c0 c1) ++ bytes ".bin") st1 Hd1) as Hc.
    destruct (call _ st1) as [[r st2]| |]; try exact I.
    destruct Hc as [Hf2 Hd2].
    assert (Hd12 : depth st1 = depth st + 1) by reflexivity.
    assert (Hf1 : fout st1 = fout st) by reflexivity.
    destruct (r =? 0).
    + set (st3 := set_depth (depth st2 - 1) st2).
      pose proof (IH rest' st3 ltac:(lia) ltac:(unfold st3; simpl; lia)) as Hr.
      destruct (scanLoop prefix call spacer rest' st3) as [st4| |]; try exact I.
      destruct Hr as [Hf4 Hd4]. unfold st3 in Hf4, Hd4. simpl in Hf4, Hd4.
      split; [congruence|lia].
    + cbn [fout depth printf]. split; [congruence|lia].
Qed.

Lemma addToDumpList_fout (fnum lnum : Z) (st : state) :
  match addToDumpList fnum lnum st with
  | Ret (_, st') => fout st' = fout st ∧ depth st' = depth st
  | _ => True
  end.
Proof.
  unfold addToDumpList. destruct (_ <? _)%nat; [|exact I].
  destruct (_ <=? _)%nat; split; reflexivity.
Qed.

(** The body of [processFile] below the top level. *)
Lemma processBody_inner (call : list byte → state → outcome (Z * state))
      (name : list byte) (st : state) :
  inner_ok call → 1 ≤ depth st →
  match processBody fs prefix svgfilename call name st with
  | Ret (_, st') => fout st' = fout st ∧ depth st ≤ depth st'
  | _ => True
  end.
Proof.
  intros Hcall Hd. unfold processBody.
  destruct (depth st =? 10); [split; [reflexivity|simpl; lia]|].
  destruct (80 <=? 4 * depth st); [exact I|].
  set (spacer := replicate _ x20).
  set (st1 := log_open name st).
  assert (Hfail : ∀ s, fout (printf s st1) = fout st ∧ depth st ≤ depth (printf s st1))
    by (intros s; split; [reflexivity|simpl; lia]).
  destruct (fs name) as [data|]; [|apply Hfail].
  destruct data as [|a0 [|a1 [|a2 [|a3 [|b0 [|b1 [|b2 [|b3 [|c0 [|c1 [|c2 [|c3 rest]]]]]]]]]]]];
    try apply Hfail.
  destruct (_ =? 1).
  { destruct (negb _); [apply Hfail|].
    destruct (depth st1 =? 0); [apply Hfail|].
    match goal with |- context [addToDumpList ?f ?l ?s] =>
      pose proof (addToDumpList_fout f l s) as Ha; destruct (addToDumpList f l s) as [[r st2]| |]
    end; try exact I.
    destruct Ha as [Hf2 Hd2]. cbn [fout depth printf] in Hf2, Hd2.
    split; [rewrite Hf2; reflexivity|rewrite Hd2; simpl; lia]. }
  destruct (_ || _); [apply Hfail|].
  destruct (_ && _); [apply Hfail|].
  destruct (_ =? 72); [apply Hfail|].
  destruct (_ || _); [apply Hfail|].
  destruct rest as [|d0 [|d1 [|d2 [|d3 [|d4 [|d5 [|d6 [|d7 [|d8 [|d9 [|d10 [|d11 cmds]]]]]]]]]]]];
    try apply Hfail.
  assert (Hd1 : depth st1 = depth st) by reflexivity.
  destruct (Z.eqb_spec (depth st1) 0) as [E|E]; [lia|].
  pose proof (scanLoop_fout call spacer Hcall (length cmds) cmds st1 (le_n _) ltac:(lia)) as Hs.
  destruct (scanLoop prefix call spacer cmds st1) as [st3| |]; try exact I.
  destruct Hs as [Hf3 Hd3].
  change (depth (printf (spacer ++ bytes "end file" ++ [x0a]) st3)) with (depth st3).
  destruct (Z.eqb_spec (depth st3) 0) as [E3|E3]; [lia|].
  cbn [fout depth printf]. split; [rewrite Hf3; reflexivity|lia].
Qed.

Lemma processFile_inner (fuel : nat) : inner_ok (processFile fs prefix svgfilename fuel).
Proof.
  induction fuel as [|fuel IH]; intros name st Hd; cbn [processFile]; [exact I|].
  apply processBody_inner; assumption.
Qed.

(** X14.  What a run of the assembler that reports success leaves, from
    the initial [depth] of 0 and no output open: no output at all (the file is
    a plain include file), the bare header line with the placeholder still in
    it (an include failed: the [depth] that was counted up for it is never
    counted down, and the assembly is skipped), or the whole document, that
    is the header line with the field of the final viewport in the place of
    the placeholder, the body, and the closing [</svg>] line. *)
Theorem vecass_success_output (fuel : nat) (name : list byte) (st st' : state) :
  depth st = 0 → fout st = None →
  processFile fs prefix svgfilename fuel name st = Ret (0, st') →
  fout st' = None
  ∨ (depth st' ≠ 0 ∧ fout st' = Some (fwrite header_line fopen_w))
  ∨ (depth st' = 0
     ∧ ∃ fo body,
         fout st' = Some fo
         ∧ contents fo = bytes "<svg viewBox=" ++ viewboxField st' ++ drop 39 header_line
                           ++ body ++ bytes "</svg>" ++ [x0a]).
Proof.
  intros Hd Hf. destruct fuel as [|fuel]; [discriminate|].
  cbn [processFile]. unfold processBody. rewrite Hd. cbn [Z.eqb Z.mul Z.leb Z.compare].
  set (spacer := replicate _ x20).
  set (st1 := log_open name st).
  destruct (fs name) as [data|]; [|discriminate].
  destruct data as [|a0 [|a1 [|a2 [|a3 [|b0 [|b1 [|b2 [|b3 [|c0 [|c1 [|c2 [|c3 rest]]]]]]]]]]]];
    try discriminate.
  destruct (_ =? 1).
  { destruct (negb _); [discriminate|].
    change (depth st1) with (depth st). rewrite Hd. cbn [Z.eqb].
    intros Hr. injection Hr as <-. left. exact Hf. }
  destruct (_ || _); [discriminate|].
  destruct (_ && _); [discriminate|].
  destruct (_ =? 72); [discriminate|].
  destruct (_ || _); [discriminate|].
  destruct rest as [|d0 [|d1 [|d2 [|d3 [|d4 [|d5 [|d6 [|d7 [|d8 [|d9 [|d10 [|d11 cmds]]]]]]]]]]]];
    try discriminate.
  change (depth st1) with (depth st). rewrite Hd. cbn [Z.eqb].
  set (st2 := printf _ (set_fout _ st1)).
  pose proof (scanLoop_fout (processFile fs prefix svgfilename fuel) spacer
                (processFile_inner fuel) (length cmds) cmds st2 (le_n _)
                ltac:(unfold st2; simpl; lia)) as Hs.
  destruct (scanLoop prefix _ spacer cmds st2) as [st3| |]; try discriminate.
  destruct Hs as [Hf3 Hd3]. cbn [fout st2 printf set_fout] in Hf3.
  change (depth (printf (spacer ++ bytes "end file" ++ [x0a]) st3)) with (depth st3).
  destruct (Z.eqb_spec (depth st3) 0) as [E3|E3].
  - set (st4 := printf _ st3).
    destruct (dumpFromList fs prefix st4) as [[r st5]| |] eqn:Hdump; try discriminate.
    destruct (Z.eqb_spec r 0) as [->|]; cbn [negb]; [|discriminate].
    pose proof (dumpFromList_widens fs prefix st4) as Hw. rewrite Hdump in Hw.
    destruct Hw as [(_ & Hd5 & _) _].
    apply dumpFromList_framed in Hdump.
    + destruct Hdump as (fo & body & Hf5 & Hp5 & Hc5). rewrite Hf5.
      intros Hr. injection Hr as <-. right. right.
      split; [cbn [depth printf set_fout]; rewrite Hd5; exact E3|].
      eexists. exists body. split; [reflexivity|].
      rewrite fwrite_at_end by exact Hp5. cbn [contents]. rewrite Hc5.
      unfold viewboxField. cbn [viewMinX viewMinY viewMaxX viewMaxY printf set_fout].
      rewrite <- !app_assoc. reflexivity.
    + unfold open_out, st4. cbn [fout printf]. rewrite Hf3.
      eexists. exists []. split; [reflexivity|].
      rewrite fwrite_at_end by reflexivity. cbn [contents fpos fopen_w app].
      split; [reflexivity|]. rewrite app_nil_r. reflexivity.
  - intros Hr. injection Hr as <-. right. left.
    split; [exact E3|]. cbn [fout printf]. exact Hf3.
Qed.

Lemma read16_value (b0 b1 : byte) : bo_read16 b0 b1 = 256 * byteZ b0 + byteZ b1.
Proof.
  pose proof (byteZ_range b0). pose proof (byteZ_range b1).
  unfold bo_read16, load16. destruct littleEndian; [|reflexivity].
  rewrite reverseByteOrder2_bytes by lia. lia.
Qed.

Lemma read32_value (b0 b1 b2 b3 : byte) :
  bo_read32 b0 b1 b2 b3
  = byteZ b3 + 256 * byteZ b2 + 65536 * byteZ b1 + 16777216 * byteZ b0.
Proof.
  pose proof (byteZ_range b0). pose proof (byteZ_range b1).
  pose proof (byteZ_range b2). pose proof (byteZ_range b3).
  unfold bo_read32, load32. destruct littleEndian; [|lia].
  rewrite reverseByteOrder4_bytes by lia. reflexivity.
Qed.

Lemma int32_small (v : Z) : 0 ≤ v < 2147483648 → int32 v = v.
Proof.
  intros Hv. unfold int32, wraps. change (2 ^ 32) with 4294967296.
  change (2 ^ (32 - 1)) with 2147483648. rewrite Z.mod_small by lia.
  destruct (Z.ltb_spec v 2147483648); lia.
Qed.




(** With the dump list full the same call stores the pair past the end of
    the array: [addToDumpList] tests [dumpListPos] only after the store. *)
Lemma include_reference_overrun (fuel : nat) (name : list byte) (st : state)
        (c0 c1 c2 c3 : byte) (rest : list byte) :
  fs name = Some ([x00; x00; x00; x01; x00; x00; x00; x00; c0; c1; c2; c3] ++ rest) →
  1 ≤ depth st ≤ 9 →
  (MAX_DUMPLIST ≤ dumpListPos st)%nat →
  processFile fs prefix svgfilename (S fuel) name st = Undefined.
Proof.
  intros Hfs Hd Hpos. cbn [processFile]. unfold processBody.
  destruct (Z.eqb_spec (depth st) 10); [lia|].
  destruct (Z.leb_spec 80 (4 * depth st)); [lia|].
  rewrite Hfs. cbn [app].
  rewrite !read32_value.
  change (byteZ x01 + 256 * byteZ x00 + 65536 * byteZ x00 + 16777216 * byteZ x00) with 1.
  change (byteZ x00 + 256 * byteZ x00 + 65536 * byteZ x00 + 16777216 * byteZ x00) with 0.
  change (int32 1 =? 1) with true. change (negb (int32 0 =? 0)) with false. cbv iota.
  change (depth (log_open name st)) with (depth st).
  destruct (Z.eqb_spec (depth st) 0); [lia|].
  unfold addToDumpList. cbn [dumpListPos printf log_open].
  apply Nat.ltb_ge in Hpos. rewrite Hpos. reflexivity.
Qed.

(** X16.  An include that fails is not reported by the exit status: for a
    group file at the top level whose first command includes a file that
    cannot be opened, [processFile] returns 0, with [depth] left at 1 and the
    output left as the bare header line (no fragment, no viewBox, no closing
    tag). *)
Theorem missing_include_skips_assembly (fuel : nat) (name : list byte) (st : state)
        (n k i0 i1 : byte) (pad rest : list byte) :
  depth st = 0 →
  4 ≤ byteZ n < 100 → byteZ k = 3 ∨ byteZ k = 4 → length pad = 12%nat →
  fs name = Some ([x00; x00; x00; n] ++ replicate 8 x00 ++ pad ++ [x00; k; i0; i1] ++ rest) →
  fs (prefix ++ fmt_05u (bo_read16 i0 i1) ++ bytes ".bin") = None →
  ∃ st', processFile fs prefix svgfilename (S (S fuel)) name st = Ret (0, st')
         ∧ depth st' = 1 ∧ fout st' = Some (fwrite header_line fopen_w).
Proof.
  intros Hd Hn Hk Hpad Hfs Hinc.
  destruct pad as [|p0 [|p1 [|p2 [|p3 [|p4 [|p5 [|p6 [|p7 [|p8 [|p9 [|p10 [|p11 [|? ?]]]]]]]]]]]]];
    try discriminate.
  cbn [processFile]. unfold processBody at 1. rewrite Hd.
  cbn [Z.eqb Z.mul Z.leb Z.compare]. rewrite Hfs. cbn [app replicate].
  rewrite !read32_value.
  change (byteZ x00 + 256 * byteZ x00 + 65536 * byteZ x00 + 16777216 * byteZ x00) with 0.
  change (byteZ x00) with 0.
  replace (byteZ n + 256 * 0 + 65536 * 0 + 16777216 * 0) with (byteZ n) by lia.
  rewrite (int32_small (byteZ n)) by lia. change (int32 0) with 0.
  destruct (Z.eqb_spec (byteZ n) 1); [lia|].
  destruct (Z.ltb_spec (byteZ n) 3); [lia|].
  destruct (Z.geb_spec (byteZ n) (Z.of_nat MAX_DUMPLIST)); [unfold MAX_DUMPLIST in *; lia|].
  destruct (Z.eqb_spec (byteZ n) 3); [lia|].
  cbn [orb andb negb Z.eqb].
  change (depth (log_open name st)) with (depth st). rewrite Hd. cbn [Z.eqb].
  cbn [scanLoop]. rewrite (read16_value x00 k). change (byteZ x00) with 0.
  replace (256 * 0 + byteZ k) with (byteZ k) by lia.
  assert (Hcmd : int16 (byteZ k) = byteZ k).
  { unfold int16, wraps. change (2 ^ 16) with 65536. change (2 ^ (16 - 1)) with 32768.
    rewrite Z.mod_small by lia. destruct (Z.ltb_spec (byteZ k) 32768); lia. }
  rewrite Hcmd.
  destruct (Z.eqb_spec (byteZ k) 0); [lia|].
  assert (Hor : (byteZ k =? 3) || (byteZ k =? 4) = true).
  { destruct Hk as [-> | ->]; reflexivity. }
  rewrite Hor.
  unfold processBody. cbn [depth set_depth printf set_fout log_open]. rewrite Hd.
  cbn [Z.add Z.eqb Z.mul Z.leb Z.compare Pos.mul Pos.compare Pos.compare_cont].
  rewrite Hinc. cbn [Z.eqb].
  eexists. split; [reflexivity|]. split; reflexivity.
Qed.

(** The block copy of [n] bytes that the input has. *)
Lemma copyBlocks_exact (fuel : nat) : ∀ (n : Z) (fin : list byte) (fo : FILE),
  (length fin < fuel)%nat → 0 < n ≤ Z.of_nat (length fin) →
  copyBlocks fuel n fin fo = Ret (0, fwrite (take (Z.to_nat n) fin) fo).
Proof.
  induction fuel as [|fuel IH]; intros n fin fo Hf Hn; [lia|].
  cbn [copyBlocks]. destruct (Z.gtb_spec n 0); [|lia].
  set (count := if n <? BLOCKSIZE then n else BLOCKSIZE).
  assert (Hc : 0 < count ≤ n).
  { unfold count, BLOCKSIZE. destruct (Z.ltb_spec n 4096); lia. }
  destruct (Z.ltb_spec (Z.of_nat (length fin)) count); [lia|].
  destruct (Z.eq_dec count n) as [E|E].
  - rewrite E, Z.sub_diag. destruct fuel as [|fuel]; [lia|]. reflexivity.
  - rewrite IH.
    + rewrite fwrite_fwrite, take_take_drop.
      replace (Z.to_nat count + Z.to_nat (n - count))%nat with (Z.to_nat n) by lia.
      reflexivity.
    + rewrite length_drop. lia.
    + rewrite length_drop. lia.
Qed.

Lemma copyBlocks_short (fuel : nat) : ∀ (n : Z) (fin : list byte) (fo : FILE),
  (length fin < fuel)%nat → Z.of_nat (length fin) < n →
  ∃ fo', copyBlocks fuel n fin fo = Ret (1, fo').
Proof.
  induction fuel as [|fuel IH]; intros n fin fo Hf Hlt; [lia|].
  cbn [copyBlocks]. destruct (Z.gtb_spec n 0); [|lia].
  set (count := if n <? BLOCKSIZE then n else BLOCKSIZE).
  assert (Hc : 0 < count ≤ n).
  { unfold count, BLOCKSIZE. destruct (Z.ltb_spec n 4096); lia. }
  destruct (Z.ltb_spec (Z.of_nat (length fin)) count); [eauto|].
  apply IH; rewrite ?length_drop; lia.
Qed.

(** X17.  The block copy of [dumpFromList] moves exactly the bytes asked
    for, in blocks of 4096: with [n] bytes to copy and at least as many in the
    input, the first [n] bytes of the input are appended at the cursor and the
    copy succeeds; with fewer in the input it fails. *)
Theorem copyBlocks_copies (n : Z) (fin : list byte) (fo : FILE) :
  0 < n →
  (n ≤ Z.of_nat (length fin) →
   copyBlocks (S (length fin)) n fin fo = Ret (0, fwrite (take (Z.to_nat n) fin) fo))
  ∧ (Z.of_nat (length fin) < n →
     ∃ fo', copyBlocks (S (length fin)) n fin fo = Ret (1, fo')).
Proof.
  intros Hn. split.
  - intros Hle. apply copyBlocks_exact; lia.
  - intros Hlt. apply copyBlocks_short; lia.
Qed.

Lemma strchr_nl_found (line : list byte) : ∀ (rest : list byte) (i : nat),
  Forall (λ b, b ≠ x0a ∧ b ≠ x00) line →
  strchr_nl (line ++ x0a :: rest) i = Some (Some (i + length line)%nat).
Proof.
  induction line as [|b line IH]; intros rest i Hl; cbn [app strchr_nl length].
  - rewrite Nat.add_0_r. reflexivity.
  - inversion Hl as [|? ? [Hb1 Hb2] Hrest]; subst.
    destruct (Byte.eqb b x0a) eqn:E1; [apply Byte.byte_dec_bl in E1; contradiction|].
    destruct (Byte.eqb b x00) eqn:E2; [apply Byte.byte_dec_bl in E2; contradiction|].
    rewrite IH by exact Hrest. do 2 f_equal. lia.
Qed.

(** X18.  One fragment in the composite: of a fragment file that starts
    with a header line of fewer than 150 bytes and ends with the seven bytes
    of its closing line, what lies between the two goes to the output as it
    is, between the opening and the closing tag of a group. *)
Theorem dumpOne_splices_body (e : DUMPLIST) (st : state) (fo : FILE)
        (line body tail : list byte) (x1 y1 x2 y2 : Z) :
  let data := line ++ [x0a] ++ body ++ tail in
  fs (prefix ++ fmt_05u (filenum e) ++ bytes ".svg") = Some data →
  Forall (λ b, b ≠ x0a ∧ b ≠ x00) line → (length line < 150)%nat →
  length tail = 7%nat → Z.of_nat (length data) < 4294967296 →
  sscanf_4i (drop 14 (take 150 data ++ replicate (150 - length data) x00))
  = Some (x1, y1, x2, y2) →
  fout st = Some fo →
  ∃ st', dumpOne fs prefix e st = Ret (inr st')
         ∧ fout st' = Some (fwrite (bytes "<g>" ++ [x0a] ++ body ++ bytes "</g>" ++ [x0a]) fo).
Proof.
  intros data Hfs Hline Hlen Htail Hsize Hscan Hfo. unfold dumpOne.
  rewrite Hfs. fold data. rewrite Hscan.
  assert (Hdl : length data = (length line + 1 + length body + 7)%nat).
  { unfold data. rewrite !length_app, Htail. simpl. lia. }
  assert (Hbuf : take 150 data ++ replicate (150 - length data) x00
                 = line ++ x0a :: (take (149 - length line) (body ++ tail)
                                     ++ replicate (150 - length data) x00)).
  { unfold data at 1. rewrite take_app_ge by lia. cbn [app].
    replace (150 - length line)%nat with (S (149 - length line)) by lia.
    cbn [take]. rewrite <- app_assoc. reflexivity. }
  rewrite Hbuf, strchr_nl_found by exact Hline. cbn [Nat.add].
  cbn [fout set_view]. rewrite Hfo.
  assert (Hdrop : drop (Z.to_nat (Z.of_nat (length line) + 1)) data = body ++ tail).
  { unfold data. replace (Z.to_nat (Z.of_nat (length line) + 1)) with (length line + 1)%nat by lia.
    rewrite <- drop_drop, drop_app_length. reflexivity. }
  rewrite Hdrop.
  assert (Hcount : uint32 (uint32 (uint32 (Z.of_nat (length data)) - 7)
                           - (Z.of_nat (length line) + 1)) = Z.of_nat (length body)).
  { unfold uint32, wrapu. change (2 ^ 32) with 4294967296.
    rewrite (Z.mod_small (Z.of_nat (length data))) by lia.
    rewrite (Z.mod_small (Z.of_nat (length data) - 7)) by lia.
    rewrite Z.mod_small by lia. lia. }
  rewrite Hcount.
  destruct body as [|b0 body'].
  - cbn [length Z.of_nat copyBlocks Z.gtb Z.compare].
    eexists. split; [reflexivity|]. cbn [fout set_fout]. rewrite fwrite_fwrite.
    rewrite <- !app_assoc. reflexivity.
  - set (body := b0 :: body') in *.
    rewrite copyBlocks_exact.
    + eexists. split; [reflexivity|]. cbn [fout set_fout].
      rewrite Nat2Z.id, take_app_length, !fwrite_fwrite.
      rewrite <- !app_assoc. reflexivity.
    + lia.
    + rewrite length_app. unfold body. simpl. lia.
Qed.

(** X19.  The patch of the viewBox changes nothing but the 26 bytes from
    offset 13 on: in a file that holds at least the start of the header line,
    the cursor, the size, the first 13 bytes and everything from byte 39 on
    are as before. *)
Theorem setViewbox_frame (f f' : FILE) (minx miny maxx maxy rc : Z) :
  (39 ≤ length (contents f))%nat →
  setViewbox f minx miny maxx maxy = Ret (rc, f') →
  rc = 0 ∧ fpos f' = fpos f
  ∧ length (contents f') = length (contents f)
  ∧ take 13 (contents f') = take 13 (contents f)
  ∧ drop 39 (contents f') = drop 39 (contents f).
Proof.
  intros Hlen Hr.
  destruct (Nat.leb_spec 30 (length (viewboxText minx miny maxx maxy))) as [Hl|Hl].
  { unfold setViewbox in Hr. apply Nat.leb_le in Hl. rewrite Hl in Hr. discriminate. }
  destruct (setViewbox_in_range f minx miny maxx maxy Hl) as [Hfl E].
  set (field := take 26 (viewboxText _ _ _ _ ++ _)) in *.
  assert (Hrc : rc = 0 ∧ f' = fseek_set (fpos f) (fwrite field (fseek_set 13 f)))
    by (split; congruence).
  destruct Hrc as [-> ->]. clear Hr E.
  unfold fseek_set, fwrite. cbn [contents fpos]. rewrite Hfl.
  replace (13 - length (contents f))%nat with 0%nat by lia. cbn [replicate app].
  assert (Ht : length (take 13 (contents f)) = 13%nat) by (rewrite length_take; lia).
  split; [reflexivity|]. split; [reflexivity|]. split; [|split].
  - rewrite !length_app, Ht, Hfl, length_drop. lia.
  - rewrite take_app_length' by (symmetry; exact Ht). reflexivity.
  - rewrite app_assoc, drop_app_length'; [reflexivity|].
    rewrite length_app, Ht, Hfl. reflexivity.
Qed.

End AssemblerOutput.

Section SortAgain.
Import C Vecass SortSpec.

Lemma Sorted_fmap_inv {A B : Type} (f : A → B) (R : relation B) (l : list A) :
  Sorted R (f <$> l) → Sorted (λ a b, R (f a) (f b)) l.
Proof.
  induction l as [|a l IH]; intros Hs; [constructor|].
  cbn [fmap list_fmap] in Hs. inversion Hs as [|? ? Hs' Hhd]; subst.
  constructor; [apply IH; exact Hs'|].
  destruct l as [|b l]; constructor. inversion Hhd; subst. assumption.
Qed.

Lemma bubble_sorted_fix {A : Type} (key : A → Z) (cnt : nat) : ∀ l : list A,
  Sorted (key_le key) l → bubble key cnt l = l.
Proof.
  induction cnt as [|cnt IH]; intros l Hs; [destruct l; reflexivity|].
  destruct l as [|a [|b t]]; try reflexivity.
  cbn [bubble]. inversion Hs as [|? ? Hs' Hhd]; subst.
  inversion Hhd as [|? ? Hab]; subst. unfold key_le in Hab.
  destruct (Z.gtb_spec (key a) (key b)); [lia|].
  rewrite IH by exact Hs'. reflexivity.
Qed.

Lemma passes_sorted_fix {A : Type} (key : A → Z) (reps : nat) : ∀ l : list A,
  Sorted (key_le key) l → passes key reps l = l.
Proof.
  induction reps as [|reps IH]; intros l Hs; [reflexivity|].
  cbn [passes]. rewrite bubble_sorted_fix by exact Hs. apply IH. exact Hs.
Qed.

Lemma sortDumpList_length (st : state) :
  (dumpListPos st ≤ length (dumpList st))%nat →
  length (dumpList (sortDumpList st)) = length (dumpList st).
Proof.
  intros Hpos. unfold sortDumpList. destruct (_ <? _)%nat eqn:Hlt; [reflexivity|].
  apply Nat.ltb_ge in Hlt.
  pose proof (bubbleOuter_passes (dumpList st) (dumpListPos st - 1)
                (seq 0 (dumpListPos st)) false) as Hp.
  destruct (bubbleOuter _ _ _ _) as [refs [|]]; [|reflexivity].
  cbn [dumpList set_dump fst] in *.
  rewrite length_app, length_fmap, length_drop, Hp by (rewrite length_seq; lia).
  rewrite (Permutation_length (passes_perm _ _ _)), length_seq. lia.
Qed.

Lemma sortDumpList_sorted_fix (st : state) :
  (dumpListPos st ≤ length (dumpList st))%nat →
  Sorted (λ a b, layernum a ≤ layernum b) (entries st) →
  sortDumpList st = st.
Proof.
  intros Hpos Hs. unfold sortDumpList. destruct (_ <? _)%nat eqn:Hlt; [reflexivity|].
  apply Nat.ltb_ge in Hlt.
  pose proof (bubbleOuter_passes (dumpList st) (dumpListPos st - 1)
                (seq 0 (dumpListPos st)) false) as Hp.
  destruct (bubbleOuter _ _ _ _) as [refs [|]]; [|reflexivity].
  cbn [fst] in Hp. rewrite Hp by (rewrite length_seq; lia).
  rewrite passes_sorted_fix.
  - rewrite fmap_lookup_seq by exact Hpos. rewrite take_drop.
    destruct st; reflexivity.
  - unfold entries in Hs.
    rewrite <- (fmap_lookup_seq (dumpList st)) in Hs by exact Hpos.
    apply Sorted_fmap_inv in Hs. exact Hs.
Qed.

(** X20.  Sorting what is sorted changes nothing: [sortDumpList] leaves a
    state alone whose entries are in nondecreasing order of layer number, and
    so a second call after a first one has no effect. *)
Theorem sortDumpList_idempotent (st : state) :
  (dumpListPos st ≤ length (dumpList st))%nat →
  (Sorted (λ a b, layernum a ≤ layernum b) (entries st) → sortDumpList st = st)
  ∧ sortDumpList (sortDumpList st) = sortDumpList st.
Proof.
  intros Hpos. split; [apply sortDumpList_sorted_fix; exact Hpos|].
  destruct (entries_sortDumpList st Hpos) as [Hp He].
  apply sortDumpList_sorted_fix.
  - rewrite Hp, sortDumpList_length by exact Hpos. exact Hpos.
  - rewrite He. apply StronglySorted_Sorted.
    pose proof (passes_all_sorted (refKey (dumpList st)) (seq 0 (dumpListPos st))) as Hs.
    rewrite length_seq in Hs.
    apply (StronglySorted_fmap _ (key_le (refKey (dumpList st)))); [|exact Hs].
    intros x y Hxy. exact Hxy.
Qed.

End SortAgain.

Section AssemblerSamples.
Import C Vecass VecassSpec AssemblySpec.

Lemma vecass_success_output_witness :
  ∃ st', (depth init = 0 ∧ fout init = None
          ∧ @processFile Examples.host Samples.Assembler.files [] (bytes "output.svg") 11
              (bytes "00001.bin") init = Ret (0, st'))
         ∧ viewboxField st' = [x22] ++ bytes "-5 -3 12 10" ++ [x22] ++ replicate 13 x20
         ∧ (fout st' = None
            ∨ (depth st' ≠ 0 ∧ fout st' = Some (fwrite header_line fopen_w))
            ∨ (depth st' = 0
               ∧ ∃ fo body,
                   fout st' = Some fo
                   ∧ contents fo
                     = bytes "<svg viewBox=" ++ viewboxField st' ++ drop 39 header_line
                         ++ body ++ bytes "</svg>" ++ [x0a])).
Proof.
  eexists. split; [split; [reflexivity|split; [reflexivity|vm_compute; reflexivity]]|].
  split; [vm_compute; reflexivity|].
  apply (@vecass_success_output Examples.host Samples.Assembler.files [] (bytes "output.svg")
           11 (bytes "00001.bin") init).
  - reflexivity.
  - reflexivity.
  - vm_compute. reflexivity.
Defined.


Lemma missing_include_skips_assembly_witness :
  (depth init = 0 ∧ 4 ≤ byteZ x04 < 100 ∧ (byteZ x03 = 3 ∨ byteZ x03 = 4)
   ∧ length (replicate 12 x00) = 12%nat
   ∧ Samples.Assembler.missingFiles (bytes "00001.bin")
     = Some ([x00; x00; x00; x04] ++ replicate 8 x00 ++ replicate 12 x00
               ++ [x00; x03; x00; x02] ++ [])
   ∧ Samples.Assembler.missingFiles
       ([] ++ fmt_05u (@bo_read16 Examples.host x00 x02) ++ bytes ".bin") = None)
  ∧ ∃ st', @processFile Examples.host Samples.Assembler.missingFiles [] (bytes "output.svg")
             2 (bytes "00001.bin") init = Ret (0, st')
           ∧ depth st' = 1 ∧ fout st' = Some (fwrite header_line fopen_w).
Proof.
  assert (H1 : depth init = 0) by reflexivity.
  assert (H2 : 4 ≤ byteZ x04 < 100) by (vm_compute; split; congruence).
  assert (H3 : byteZ x03 = 3 ∨ byteZ x03 = 4) by (left; reflexivity).
  assert (H4 : length (replicate 12 x00) = 12%nat) by reflexivity.
  assert (H5 : Samples.Assembler.missingFiles (bytes "00001.bin")
               = Some ([x00; x00; x00; x04] ++ replicate 8 x00 ++ replicate 12 x00
                         ++ [x00; x03; x00; x02] ++ [])) by reflexivity.
  assert (H6 : Samples.Assembler.missingFiles
                 ([] ++ fmt_05u (@bo_read16 Examples.host x00 x02) ++ bytes ".bin") = None)
    by (vm_compute; reflexivity).
  split; [auto 10|].
  exact (@missing_include_skips_assembly Examples.host Samples.Assembler.missingFiles []
           (bytes "output.svg") 0 (bytes "00001.bin") init x04 x03 x00 x02
           (replicate 12 x00) [] H1 H2 H3 H4 H5 H6).
Defined.

Lemma copyBlocks_copies_witness :
  0 < 3
  ∧ copyBlocks 6 3 (bytes "abcde") fopen_w = Ret (0, mkFILE (bytes "abc") 3)
  ∧ (3 ≤ Z.of_nat (length (bytes "abcde")) →
     copyBlocks (S (length (bytes "abcde"))) 3 (bytes "abcde") fopen_w
     = Ret (0, fwrite (take (Z.to_nat 3) (bytes "abcde")) fopen_w))
  ∧ (Z.of_nat (length (bytes "abcde")) < 3 →
     ∃ fo', copyBlocks (S (length (bytes "abcde"))) 3 (bytes "abcde") fopen_w = Ret (1, fo')).
Proof.
  split; [lia|]. split; [reflexivity|].
  apply (copyBlocks_copies 3 (bytes "abcde") fopen_w). lia.
Defined.

Lemma dumpOne_splices_body_witness :
  ∃ st', @dumpOne Examples.host Examples.Assembler.fragmentFiles [] (mkDL 7 1)
           Examples.Assembler.oneFragment = Ret (inr st')
         ∧ fout st'
           = Some (fwrite (bytes "<g>" ++ [x0a] ++ Samples.Assembler.fragmentBody
                             ++ bytes "</g>" ++ [x0a])
                          (fwrite header_line fopen_w)).
Proof.
  apply (@dumpOne_splices_body Examples.host Examples.Assembler.fragmentFiles []
           (mkDL 7 1) Examples.Assembler.oneFragment (fwrite header_line fopen_w)
           Samples.Assembler.fragmentLine Samples.Assembler.fragmentBody
           Samples.Assembler.fragmentTail (-5) (-3) 12 10).
  - reflexivity.
  - vm_compute. repeat (constructor; [split; discriminate|]). constructor.
  - vm_compute. lia.
  - reflexivity.
  - vm_compute. reflexivity.
  - vm_compute. reflexivity.
  - reflexivity.
Defined.

Lemma setViewbox_frame_witness :
  ∃ f', (39 ≤ length (contents (fwrite header_line fopen_w)))%nat
        ∧ setViewbox (fwrite header_line fopen_w) (-5) (-3) 12 10 = Ret (0, f')
        ∧ take 39 (contents f')
          = bytes "<svg viewBox=" ++ [x22] ++ bytes "-5 -3 12 10" ++ [x22] ++ replicate 13 x20
        ∧ 0 = 0 ∧ fpos f' = fpos (fwrite header_line fopen_w)
        ∧ length (contents f') = length (contents (fwrite header_line fopen_w))
        ∧ take 13 (contents f') = take 13 (contents (fwrite header_line fopen_w))
        ∧ drop 39 (contents f') = drop 39 (contents (fwrite header_line fopen_w)).
Proof.
  eexists. split; [vm_compute; lia|]. split; [vm_compute; reflexivity|].
  split; [vm_compute; reflexivity|].
  apply (setViewbox_frame (fwrite header_line fopen_w) _ (-5) (-3) 12 10 0).
  - vm_compute. lia.
  - vm_compute. reflexivity.
Defined.

Lemma sortDumpList_idempotent_witness :
  (dumpListPos Examples.fiveEntries ≤ length (dumpList Examples.fiveEntries))%nat
  ∧ (layernum <$> entries (sortDumpList Examples.fiveEntries)) = [1; 3; 3; 5; 5]
  ∧ (Sorted (λ a b, layernum a ≤ layernum b) (entries Examples.fiveEntries)
     → sortDumpList Examples.fiveEntries = Examples.fiveEntries)
  ∧ sortDumpList (sortDumpList Examples.fiveEntries) = sortDumpList Examples.fiveEntries.
Proof.
  assert (H1 : (dumpListPos Examples.fiveEntries ≤ length (dumpList Examples.fiveEntries))%nat)
    by (vm_compute; lia).
  split; [exact H1|]. split; [reflexivity|].
  exact (sortDumpList_idempotent Examples.fiveEntries H1).
Defined.

End AssemblerSamples.

(** ** File names, and [main] of vecass.c *)

Section FileNames.
Import C Names.

Lemma bytes_eqb_refl (a : list byte) : bytes_eqb a a = true.
Proof.
  unfold bytes_eqb. rewrite Nat.eqb_refl. cbn [andb].
  induction a as [|b a IH]; [reflexivity|].
  cbn [zip zip_with forallb fst snd]. rewrite IH, andb_true_r.
  apply Byte.byte_dec_lb. reflexivity.
Qed.

Lemma bytes_eqb_eq (a b : list byte) : bytes_eqb a b = true → a = b.
Proof.
  unfold bytes_eqb. intros Hb. apply andb_true_iff in Hb as [Hl Hz].
  apply Nat.eqb_eq in Hl. revert b Hl Hz.
  induction a as [|x a IH]; intros [|y b] Hl Hz; try discriminate; [reflexivity|].
  cbn [zip zip_with forallb fst snd] in Hz. apply andb_true_iff in Hz as [Hxy Hz].
  apply Byte.byte_dec_bl in Hxy. subst y. f_equal. apply IH; [simpl in Hl; lia|exact Hz].
Qed.

Lemma digitRun_digits (digits : list byte) : ∀ (pre post : list byte),
  forallb isdigit digits = true →
  digitRun (pre ++ digits ++ post) (length pre) (length digits)
  = (length pre + length digits)%nat.
Proof.
  induction digits as [|d digits IH]; intros pre post Hd; cbn [digitRun length].
  - lia.
  - cbn [forallb] in Hd. apply andb_true_iff in Hd as [Hd1 Hd2].
    rewrite lookup_app_r by lia. rewrite Nat.sub_diag. cbn [app lookup list_lookup].
    rewrite Hd1.
    replace (pre ++ d :: digits ++ post) with ((pre ++ [d]) ++ digits ++ post)
      by (rewrite <- app_assoc; reflexivity).
    replace (S (length pre)) with (length (pre ++ [d])) by (rewrite length_app; simpl; lia).
    rewrite IH by exact Hd2. rewrite length_app. simpl. lia.
Qed.

Lemma numbered_name (dir digits : list byte) :
  dir ≠ [] → length digits = 5%nat → forallb isdigit digits = true →
  numbered (dir ++ digits ++ bytes ".bin") = true.
Proof.
  intros Hdir Hlen Hd. unfold numbered.
  assert (Hl : length (dir ++ digits ++ bytes ".bin") = (length dir + 9)%nat).
  { rewrite !length_app, Hlen. simpl. lia. }
  rewrite Hl.
  assert (0 < length dir)%nat by (destruct dir; [congruence|simpl; lia]).
  replace (length dir + 9 - 9)%nat with (length dir) by lia.
  replace (length dir + 9 - 4)%nat with (length dir + 5)%nat by lia.
  pose proof (digitRun_digits digits dir (bytes ".bin") Hd) as Hrun.
  rewrite Hlen in Hrun. rewrite Hrun, Nat.eqb_refl.
  destruct (Nat.ltb_spec 9 (length dir + 9)); [|lia]. cbn [andb].
  rewrite app_assoc, drop_app_length'; [apply bytes_eqb_refl|].
  rewrite length_app, Hlen. reflexivity.
Qed.

(** X21.  The files that go with a numbered command file are looked for
    next to it: for a command file named by a directory part, five digits and
    [.bin], the prefix of vecass for its include and fragment files is the
    directory part, and the [auto] points file of ubvff2 is the file of the
    footer's number in that directory. *)
Theorem numbered_name_prefix (dir digits : list byte) (pfilenum : Z) :
  length digits = 5%nat → forallb isdigit digits = true →
  prefixOf (dir ++ digits ++ bytes ".bin") = dir
  ∧ pointsName (dir ++ digits ++ bytes ".bin") (bytes "auto") pfilenum
    = dir ++ fmt_05u pfilenum ++ bytes ".bin".
Proof.
  intros Hlen Hd. unfold prefixOf, pointsName.
  change (is_auto (bytes "auto")) with true. cbv iota.
  destruct dir as [|c dir].
  - assert (Hn : numbered ([] ++ digits ++ bytes ".bin") = false).
    { unfold numbered. cbn [app]. rewrite length_app, Hlen. reflexivity. }
    rewrite Hn. split; reflexivity.
  - rewrite numbered_name by (try exact Hlen; try exact Hd; discriminate).
    assert (Ht : take (length ((c :: dir) ++ digits ++ bytes ".bin") - 9)
                      ((c :: dir) ++ digits ++ bytes ".bin") = c :: dir).
    { apply take_app_length'. rewrite !length_app, Hlen. simpl. lia. }
    rewrite Ht. split; reflexivity.
Qed.

Lemma dotScan_app (a : list byte) : ∀ (b : list byte) (i : nat) (p : option nat),
  dotScan (a ++ b) i p = dotScan b (i + length a) (dotScan a i p).
Proof.
  induction a as [|c a IH]; intros b i p; cbn [app dotScan length].
  - rewrite Nat.add_0_r. reflexivity.
  - replace (i + S (length a))%nat with (S i + length a)%nat by lia.
    destruct (_ || _); [apply IH|]. destruct (Byte.eqb c x2e); apply IH.
Qed.

Lemma dotScan_plain (ext : list byte) : ∀ (i : nat) (p : option nat),
  forallb (λ c, negb (Byte.eqb c x2f || Byte.eqb c x5c || Byte.eqb c x2e)) ext = true →
  dotScan ext i p = p.
Proof.
  induction ext as [|c ext IH]; intros i p He; [reflexivity|].
  cbn [forallb dotScan] in *. apply andb_true_iff in He as [Hc He].
  apply negb_true_iff, orb_false_iff in Hc as [Hc ->]. rewrite Hc. apply IH. exact He.
Qed.

(** X22.  The [auto] name of the SVG file in ubvff1 and ubvff2: an
    extension of one to four characters after the last dot, in a name of more
    than five characters, makes way for [.svg]; a name of at most five
    characters keeps all of it and gets [.svg] appended. *)
Theorem auto_svg_name (base ext : list byte) :
  (1 ≤ length ext ≤ 4)%nat →
  forallb (λ c, negb (Byte.eqb c x2f || Byte.eqb c x5c || Byte.eqb c x2e)) ext = true →
  (5 < length (base ++ [x2e] ++ ext))%nat → (length base + 5 < 300)%nat →
  autoSvgName (base ++ [x2e] ++ ext) = Some (base ++ bytes ".svg")
  ∧ ∀ short : list byte, (length short ≤ 5)%nat →
      autoSvgName short = Some (short ++ bytes ".svg").
Proof.
  intros Hext Hplain Hlong Hfit. split.
  - unfold autoSvgName. cbv zeta.
    destruct (Nat.ltb_spec 5 (length (base ++ [x2e] ++ ext))); [|lia].
    rewrite !length_app in *. cbn [length] in *.
    set (k := (length base + (1 + length ext) - 5)%nat).
    assert (Hk : (k ≤ length base)%nat) by (unfold k; lia).
    rewrite drop_app_le by exact Hk.
    rewrite dotScan_app. rewrite length_drop.
    replace (k + (length base - k))%nat with (length base) by lia.
    cbn [app dotScan]. change (Byte.eqb x2e x2f || Byte.eqb x2e x5c) with false.
    change (Byte.eqb x2e x2e) with true. cbv iota.
    rewrite dotScan_plain by exact Hplain.
    rewrite take_app_length.
    destruct (Nat.ltb_spec (length base + 5) 300); [reflexivity|lia].
  - intros short Hs. unfold autoSvgName. cbv zeta.
    destruct (Nat.ltb_spec 5 (length short)); [lia|].
    destruct (Nat.ltb_spec (length short + 5) 300); [reflexivity|lia].
Qed.

Lemma cstring_app (a : list byte) (b : list byte) :
  forallb (λ c, negb (Byte.eqb c x00)) a = true → cstring (a ++ b) = a ++ cstring b.
Proof.
  induction a as [|c a IH]; intros Ha; [reflexivity|].
  cbn [forallb app cstring] in *. apply andb_true_iff in Ha as [Hc Ha].
  apply negb_true_iff in Hc. rewrite Hc, IH by exact Ha. reflexivity.
Qed.

Lemma cstring_default_tail (k : nat) :
  (k < 300)%nat →
  cstring (drop k svgfilename0) = drop k (bytes "output.svg").
Proof.
  intros Hk. destruct (Nat.lt_ge_cases k 10) as [Hlt|Hge].
  - do 10 (destruct k as [|k]; [vm_compute; reflexivity|]). lia.
  - unfold svgfilename0. rewrite drop_app_ge by (simpl; lia).
    rewrite (drop_ge (bytes "output.svg")) by (simpl; lia).
    rewrite drop_replicate. change (length (bytes "output.svg")) with 10%nat.
    destruct (290 - (k - 10))%nat eqn:E; [lia|]. reflexivity.
Qed.

(** X23.  The [auto] name of vecass: the name of the command file without
    its [.bin] is copied over the start of the default name [output.svg], and
    [.svg] goes after what the array then holds.  For a name whose part before
    [.bin] has ten characters or more that is this part and [.svg]; for a
    shorter one the end of the default name stays between the two. *)
Theorem vecass_auto_name (stem : list byte) :
  forallb (λ c, negb (Byte.eqb c x00)) stem = true →
  (2 ≤ length stem)%nat → (length (stem ++ bytes ".bin") ≤ 255)%nat →
  VecassMain.svgname (stem ++ bytes ".bin") (bytes "auto")
  = Some (stem ++ drop (length stem) (bytes "output.svg") ++ bytes ".svg").
Proof.
  intros Hz Hmin Hmax. unfold VecassMain.svgname.
  change (is_auto (bytes "auto")) with true. cbv iota zeta.
  rewrite length_app in *. change (length (bytes ".bin")) with 4%nat in *.
  replace (length stem + 4 - 4)%nat with (length stem) by lia.
  destruct (Nat.ltb_spec 5 (length stem + 4)); [|lia]. cbn [andb].
  rewrite drop_app_length, bytes_eqb_refl.
  unfold swapExtension. rewrite length_app. change (length (bytes ".bin")) with 4%nat.
  replace (length stem + 4 - 4)%nat with (length stem) by lia.
  rewrite take_app_length, cstring_app by exact Hz.
  rewrite cstring_default_tail by lia. rewrite <- app_assoc. reflexivity.
Qed.

End FileNames.

Section MainEnds.
Import C Vecass VecassSpec Names VecassMain.
Context `{Host}.
Variable fs : list byte → option (list byte).

Lemma processBody_status (prefix svgfilename : list byte)
      (call : list byte → state → outcome (Z * state)) (name : list byte) (st : state) :
  match processBody fs prefix svgfilename call name st with
  | Ret (r, _) => r = 0 ∨ r = 1
  | _ => True
  end.
Proof.
  unfold processBody.
  destruct (depth st =? 10); [left; reflexivity|].
  destruct (80 <=? 4 * depth st); [exact I|].
  destruct (fs name) as [data|]; [|right; reflexivity].
  destruct data as [|a0 [|a1 [|a2 [|a3 [|b0 [|b1 [|b2 [|b3 [|c0 [|c1 [|c2 [|c3 rest]]]]]]]]]]]];
    try (right; reflexivity).
  destruct (_ =? 1).
  { destruct (negb _); [right; reflexivity|].
    destruct (_ =? 0); [left; reflexivity|].
    destruct (addToDumpList _ _ _) as [[r st2]| |]; try exact I. left; reflexivity. }
  destruct (_ || _); [right; reflexivity|].
  destruct (_ && _); [right; reflexivity|].
  destruct (_ =? 72); [right; reflexivity|].
  destruct (_ || _); [right; reflexivity|].
  destruct rest as [|d0 [|d1 [|d2 [|d3 [|d4 [|d5 [|d6 [|d7 [|d8 [|d9 [|d10 [|d11 cmds]]]]]]]]]]]];
    try (right; reflexivity).
  destruct (scanLoop _ _ _ _ _) as [st3| |]; try exact I.
  destruct (_ =? 0); [|left; reflexivity].
  destruct (dumpFromList _ _ _) as [[r st5]| |]; try exact I.
  destruct (negb _); [right; reflexivity|].
  destruct (fout st5); [left; reflexivity|exact I].
Qed.

(** X24.  vecass ends on every command line and every directory of files,
    circular includes among them: within the budget of nested calls that
    [depth] allows, [main] returns the exit status 0 or 1, unless it runs into
    behaviour that C leaves undefined. *)
Theorem vecass_main_ends (argv : list (list byte)) :
  main fs argv = Undefined
  ∨ ∃ st, main fs argv = Ret (0, st) ∨ main fs argv = Ret (1, st).
Proof.
  unfold main.
  destruct argv as [|prog [|cmdFile [|outputFile more]]]; try solve [right; eauto].
  destruct (_ <? _)%nat; [solve [right; eauto]|].
  destruct (_ <? _)%nat; [solve [right; eauto]|].
  destruct (svgname cmdFile outputFile) as [name|]; [|solve [right; eauto]].
  pose proof (processFile_ends fs (prefixOf cmdFile) name 11 cmdFile init
                ltac:(simpl; lia) ltac:(constructor) ltac:(simpl; lia)) as He.
  pose proof (processBody_status (prefixOf cmdFile) name
                (processFile fs (prefixOf cmdFile) name 10) cmdFile init) as Hs.
  change (processBody fs (prefixOf cmdFile) name
            (processFile fs (prefixOf cmdFile) name 10) cmdFile init)
    with (processFile fs (prefixOf cmdFile) name 11 cmdFile init) in Hs.
  destruct (processFile fs (prefixOf cmdFile) name 11 cmdFile init) as [[r st]| |].
  - right. exists st. destruct Hs as [-> | ->]; [left|right]; reflexivity.
  - left. reflexivity.
  - contradiction.
Qed.

End MainEnds.

Section FileNameSamples.
Import C Names.

Lemma numbered_name_prefix_witness :
  (length (bytes "00123") = 5%nat ∧ forallb isdigit (bytes "00123") = true)
  ∧ prefixOf (bytes "data/" ++ bytes "00123" ++ bytes ".bin") = bytes "data/"
  ∧ pointsName (bytes "data/" ++ bytes "00123" ++ bytes ".bin") (bytes "auto") 52
    = bytes "data/" ++ fmt_05u 52 ++ bytes ".bin".
Proof.
  split; [split; reflexivity|].
  apply (numbered_name_prefix (bytes "data/") (bytes "00123") 52); reflexivity.
Defined.

Lemma auto_svg_name_witness :
  ((1 ≤ length (bytes "bin") ≤ 4)%nat
   ∧ (5 < length (bytes "pic/00123" ++ [x2e] ++ bytes "bin"))%nat)
  ∧ autoSvgName (bytes "pic/00123.bin") = Some (bytes "pic/00123.svg")
  ∧ autoSvgName (bytes "a.bin") = Some (bytes "a.bin.svg")
  ∧ autoSvgName (bytes "pic/00123" ++ [x2e] ++ bytes "bin")
    = Some (bytes "pic/00123" ++ bytes ".svg")
  ∧ ∀ short : list byte, (length short ≤ 5)%nat →
      autoSvgName short = Some (short ++ bytes ".svg").
Proof.
  split; [split; simpl; lia|]. split; [reflexivity|]. split; [reflexivity|].
  apply (auto_svg_name (bytes "pic/00123") (bytes "bin")).
  - simpl. lia.
  - reflexivity.
  - simpl. lia.
  - simpl. lia.
Defined.

Lemma vecass_auto_name_witness :
  ((2 ≤ length (bytes "00001"))%nat ∧ (length (bytes "00001" ++ bytes ".bin") ≤ 255)%nat)
  ∧ VecassMain.svgname (bytes "00001.bin") (bytes "auto") = Some (bytes "00001t.svg.svg")
  ∧ VecassMain.svgname (bytes "00001" ++ bytes ".bin") (bytes "auto")
    = Some (bytes "00001" ++ drop (length (bytes "00001")) (bytes "output.svg")
              ++ bytes ".svg").
Proof.
  split; [split; simpl; lia|]. split; [reflexivity|].
  apply (vecass_auto_name (bytes "00001")).
  - reflexivity.
  - simpl. lia.
  - simpl. lia.
Defined.

End FileNameSamples.

(** ** The colours of the Type 1 decoder *)

Section Colour1.
Import C Reader Ubvff1.
Context `{Host}.

Lemma byte_at (v k : Z) : 0 ≤ k → Z.land (Z.shiftr v (8 * k)) 0xFF = (v / 2 ^ (8 * k)) mod 2 ^ 8.
Proof.
  intros Hk. change 0xFF with (Z.ones 8).
  rewrite Z.land_ones, Z.shiftr_div_pow2 by lia. reflexivity.
Qed.

(** X25.  The colours of a Type 1 file depend on the byte order of the
    host: the four bytes of a colour are read as one 32-bit item, which a
    little-endian host turns round, so there [r], [g], [b] are the fourth,
    third and second byte of the file, and on a big-endian host the first,
    second and third. *)
Theorem readColor_host_order (f0 f1 f2 f3 : byte) (rest : list byte) :
  readColor (f0 :: f1 :: f2 :: f3 :: rest)
  = Some (if littleEndian
          then mkColor (byteZ f3) (byteZ f2) (byteZ f1) (byteZ f0)
          else mkColor (byteZ f0) (byteZ f1) (byteZ f2) (byteZ f3), rest).
Proof.
  pose proof (byteZ_range f0) as H0. pose proof (byteZ_range f1) as H1.
  pose proof (byteZ_range f2) as H2. pose proof (byteZ_range f3) as H3.
  unfold readColor, read32. rewrite read32_value.
  destruct (byte_of_word (byteZ f3) (byteZ f2) (byteZ f1) (byteZ f0) H3 H2 H1 H0)
    as (E0 & E1 & E2 & E3 & _).
  unfold mem_byte. destruct littleEndian.
  - rewrite !byte_at by lia.
    change (8 * 0) with 0. change (8 * 1) with 8. change (8 * 2) with 16.
    change (8 * 3) with 24. rewrite E0, E1, E2, E3. reflexivity.
  - rewrite !byte_at by lia.
    change (8 * (3 - 0)) with 24. change (8 * (3 - 1)) with 16.
    change (8 * (3 - 2)) with 8. change (8 * (3 - 3)) with 0.
    rewrite E0, E1, E2, E3. reflexivity.
Qed.

End Colour1.
